(** * blockchain_banking: the transaction submission engine, in Rocq

    A shallow embedding of [app/utils/web3_client.py],
    [app/repositories/account.py] and [app/utils/crypto.py], with the
    validators of [app/schemas], the account route of [app/routers/api.py]
    and the startup and the exception handler of [app/main.py].

    Coroutines are state-passing functions over a [World]: the rows of the
    [users] table, the objects pending in the SQLAlchemy session, and the
    chronological trace of everything the process did to the outside
    (JSON-RPC calls with their answers, log records, sleeps).  The remote
    node is an oracle: its answer to a call may depend on the whole trace
    so far, which covers every deterministic behaviour of the network
    (nonces that advance, a node that fails twice and then answers, ...).
    Python exceptions are the [Raise] branch of [result]. *)

From Stdlib Require Import ZArith Lia Floats.SpecFloat.
From stdpp Require Import base tactics option list list_numbers strings pretty gmap.

Local Open Scope string_scope.
Local Open Scope list_scope.
Local Open Scope Z_scope.

(** ** Python values, exceptions, results *)

(** The classes of the exceptions that occur in the modelled code or that the
    libraries it calls raise.  All of them derive from [Exception]. *)
Inductive exn_class :=
  | Exception | TypeError | ValueError | KeyError | OverflowError
  | UnicodeEncodeError | UnicodeDecodeError
  | ConnectionError | TimeExhausted | ValidationError | IntegrityError
  | InvalidRequestError | InvalidToken | PrivateKeyEncryptionError
  | AccountAlreadyExistsError | AccountNotFoundError
  | InsufficientBalanceError | BlockchainError | InvalidAddressError.

Global Instance exn_class_eq_dec : EqDecision exn_class.
Proof. solve_decision. Defined.

(** An exception instance: its class and [str(e)]. *)
Record exn := Exn { exn_cls : exn_class; exn_str : string }.

Global Instance exn_eq_dec : EqDecision exn.
Proof. solve_decision. Defined.

Inductive result (A : Type) := Ok (a : A) | Raise (e : exn).
Global Arguments Ok {A} a.
Global Arguments Raise {A} e.

Definition is_Ok {A} (r : result A) : bool :=
  match r with Ok _ => true | Raise _ => false end.

(** Values stored in the dictionaries the client builds (transaction
    dictionaries, receipts, keyword arguments of log records). *)
Inductive pyval := PInt (n : Z) | PStr (s : string).

Global Instance pyval_eq_dec : EqDecision pyval.
Proof. solve_decision. Defined.

(** A Python [dict] with string keys. *)
Abbreviation pydict := (gmap string pyval).

(** A Python [bytes] object. *)
Abbreviation bytes := (list Byte.byte).

(** [decimal.Decimal]: sign, coefficient and exponent, as [as_tuple()] shows
    them; the value is [(-1)^sign * coefficient * 10^exponent]. *)
Record Decimal := { dec_sign : bool; dec_coef : N; dec_exp : Z }.

(** ** Double-precision arithmetic as Python performs it

    [estimate_gas] computes [int(gas * 1.2)]: the integer is converted to a
    double (round to nearest even, [OverflowError] beyond the largest double),
    multiplied by the double nearest to 1.2, and [int()] truncates toward
    zero.  The IEEE-754 operations are those of [SpecFloat] at
    [prec = 53], [emax = 1024]. *)
Module PyFloat.

Definition prec : Z := 53.
Definition emax : Z := 1024.

  (** The literal [1.2]: the double nearest to 6/5. *)
Definition lit_1_2 : spec_float := S754_finite false 5404319552844595 (-52).
  (** The literal [2.0]. *)
Definition lit_2_0 : spec_float := S754_finite false 4503599627370496 (-51).
  (** The literal [1.0]. *)
Definition lit_1_0 : spec_float := S754_finite false 4503599627370496 (-52).

  (** [float(n)] for a Python [int]. *)
Definition float_of_int (n : Z) : result spec_float :=
    match binary_normalize prec emax n 0 false with
    | S754_infinity _ | S754_nan =>
        Raise (Exn OverflowError "int too large to convert to float")
    | x => Ok x
    end.

  (** [n * f] for an [int] [n] and a [float] [f]: the product itself never
      raises, it overflows to an infinity. *)
Definition int_mul_float (n : Z) (f : spec_float) : result spec_float :=
    match float_of_int n with
    | Ok x => Ok (SFmul prec emax x f)
    | Raise e => Raise e
    end.

  (** [int(f)]: truncation toward zero. *)
Definition int_of_float (f : spec_float) : result Z :=
    match f with
    | S754_zero _ => Ok 0
    | S754_finite s m e =>
        let a := if 0 <=? e then Z.pos m * 2 ^ e else Z.pos m / 2 ^ (- e) in
        Ok (if s then - a else a)
    | S754_infinity _ =>
        Raise (Exn OverflowError "cannot convert float infinity to integer")
    | S754_nan => Raise (Exn ValueError "cannot convert float NaN to integer")
    end.

End PyFloat.

(** ** The outside world *)

(** A row of the [users] table ([app/models/user.py]): [name] is the primary
    key, [address] carries a unique index. *)
Record User := {
  User_name : string; User_address : string; User_private_key : string }.

(** [eth_account.signers.local.LocalAccount]: the address and [key.hex()]. *)
Record LocalAccount := { la_address : string; la_key_hex : string }.

(** [app/schemas/blockchain.py] *)
Record BlockchainAccount := { ba_address : string; ba_private_key : string }.

(** [app/schemas/user.py] *)
Record UserResponse := {
  ur_name : string; ur_address : string; ur_private_key : string;
  ur_faucet_tx_hash : option string }.

Inductive LogLevel := INFO | WARNING | ERROR.

Global Instance LogLevel_eq_dec : EqDecision LogLevel.
Proof. solve_decision. Defined.

(** Everything the process does to the outside, with the answer it got. *)
Inductive Event :=
  | EvAccountCreate (a : LocalAccount)
  | EvGetTransactionCount (addr : string) (r : result Z)
  | EvGetBalance (addr : string) (r : result Z)
  | EvCallBalanceOf (contract owner : string) (r : result Z)
  | EvEstimateGas (transaction : pydict) (r : result Z)
  | EvBuildTransfer (contract to : string) (amount : Z) (params : pydict)
      (r : result pydict)
  | EvSignTransaction (transaction : pydict) (r : result bytes)
  | EvSendRawTransaction (raw : bytes) (r : result bytes)
  | EvWaitForTransactionReceipt (tx_hash : bytes) (r : result pydict)
  | EvLog (level : LogLevel) (event : string) (kw : list (string * pyval))
  | EvSleep (delay : spec_float)
  | EvPrint (line : string).

(** [web3.AsyncWeb3] together with [eth_account.Account]: the helpers that run
    locally are plain functions, the calls that reach the node (or the
    operating system's randomness) get the trace so far. *)
Class AsyncWeb3 := {
  (* local helpers *)
  to_checksum_address : string → result string;
  from_key : string → result LocalAccount;
  to_wei : Decimal → string → result Z;
  sign_transaction : pydict → string → result bytes;
  to_hex : bytes → string;
  (* the node *)
  node_account_create : list Event → LocalAccount;
  node_get_transaction_count : list Event → string → result Z;
  node_get_balance : list Event → string → result Z;
  node_call_balanceOf : list Event → string → string → result Z;
  node_estimate_gas : list Event → pydict → result Z;
  node_build_transfer :
    list Event → string → string → Z → pydict → result pydict;
  node_send_raw_transaction : list Event → bytes → result bytes;
  node_wait_for_transaction_receipt : list Event → bytes → result pydict;
}.

(** [app/settings.py], the fields the modelled code reads. *)
Class Settings := {
  rpc_url : string;
  faucet_private_key : string;
  chain_id : Z;
  gas_limit : Z;
  gas_price_gwei : Decimal;
  initial_faucet_gwei : Decimal;
}.

(** The connectivity probe of the provider, [AsyncWeb3.is_connected()]: it
    reports whether the node answered, or raises. *)
Class Provider := {
  node_is_connected : list Event → result bool;
}.

Record World := {
  users : gmap string User;     (* committed rows *)
  session_new : list User;      (* objects added to the session, not yet committed *)
  trace : list Event;           (* oldest first *)
}.

Definition emit (ev : Event) (w : World) : World :=
  {| users := users w; session_new := session_new w; trace := trace w ++ [ev] |}.

(** ** Coroutines *)

Definition M (A : Type) : Type := World → result A * World.

Global Instance M_ret : MRet M := λ A a w, (Ok a, w).
Global Instance M_bind : MBind M := λ A B k m w,
  match m w with
  | (Ok a, w') => k a w'
  | (Raise e, w') => (Raise e, w')
  end.
Global Instance M_fmap : FMap M := λ A B f m w,
  match m w with
  | (Ok a, w') => (Ok (f a), w')
  | (Raise e, w') => (Raise e, w')
  end.

Definition raise {A} (e : exn) : M A := λ w, (Raise e, w).

(** A call that cannot touch the world: its outcome is returned or raised. *)
Definition lift {A} (r : result A) : M A := λ w, (r, w).

(** [try: m  except Exception as e: h e] *)
Definition try_except {A} (m : M A) (h : exn → M A) : M A := λ w,
  match m w with
  | (Ok a, w') => (Ok a, w')
  | (Raise e, w') => h e w'
  end.

(** A call answered by the node: the answer is a function of the trace so
    far, and the call with its answer is appended to the trace. *)
Definition ask {A} (node : list Event → result A) (ev : result A → Event) : M A :=
  λ w, let r := node (trace w) in (r, emit (ev r) w).

Definition logger (level : LogLevel) (event : string)
    (kw : list (string * pyval)) : M () :=
  λ w, (Ok (), emit (EvLog level event kw) w).

Definition asyncio_sleep (delay : spec_float) : M () :=
  λ w, (Ok (), emit (EvSleep delay) w).

(** A local call worth recording: its outcome is a function of its arguments
    alone, and the call is appended to the trace like the others. *)
Definition record {A} (r : result A) (ev : result A → Event) : M A :=
  λ w, (r, emit (ev r) w).

(** [d[k]]; the text of a [KeyError] is the [repr] of the key. *)
Definition getitem (d : pydict) (k : string) : M pyval :=
  match d !! k with
  | Some v => mret v
  | None => raise (Exn KeyError ("'" +:+ k +:+ "'"))
  end.

(** ** app/utils/web3_client.py *)

Module Web3Client.

  (** [async_retry(max_retries, delay)] applied to [func]: the [wrapper]
      coroutine.  The arguments of the call are fixed across attempts, so
      [func] is the call itself; [func_name] is [func.__name__]. *)
Section async_retry.
Context {A : Type}.
Variables (max_retries : Z) (delay : spec_float).
Variables (func_name : string) (func : M A).

    (** What the [except Exception as e] branch does besides recording [e]. *)
Definition on_failure (attempt : Z) (e : exn) : M () :=
      if bool_decide (attempt < max_retries - 1) then
        logger WARNING "Retry attempt"
          [("function", PStr func_name); ("attempt", PInt (attempt + 1));
           ("max_retries", PInt max_retries); ("error", PStr (exn_str e))];;
        asyncio_sleep delay
      else
        logger ERROR "Max retries reached"
          [("function", PStr func_name); ("error", PStr (exn_str e))].

    (** The [for attempt in range(max_retries)] loop, then
        [raise last_exception]. *)
Fixpoint wrapper_loop (attempts : list Z) (last_exception : option exn)
        : M A :=
      match attempts with
      | [] =>
          match last_exception with
          | Some e => raise e
          | None => raise (Exn TypeError "exceptions must derive from BaseException")
          end
      | attempt :: rest =>
          r ← try_except (inl <$> func)
                (λ e, on_failure attempt e;; mret (inr e));
          match r with
          | inl v => mret v
          | inr e => wrapper_loop rest (Some e)
          end
      end.

Definition async_retry : M A := wrapper_loop (seqZ 0 max_retries) None.
End async_retry.

Section client.
Context `{!AsyncWeb3, !Settings}.

    (** The contract object is identified with its checksummed address; the
        ABI is the constant [settings.erc20_abi]. *)
Definition get_contract (address : string) : M string :=
      lift (to_checksum_address address).

    (** The field validators of [BlockchainAccount]. *)
Definition validate_address (value : string) : result string :=
      if negb (String.prefix "0x" value) || negb (bool_decide (String.length value = 42%nat))
      then Raise (Exn ValidationError "Invalid blockchain address format")
      else Ok value.

Definition validate_private_key (value : string) : result string :=
      if negb (String.prefix "0x" value)
      then Raise (Exn ValidationError "Private key must be a hex string starting with 0x")
      else Ok value.

Definition create_account : M BlockchainAccount :=
      account ← (λ w, let a := node_account_create (trace w) in
                      (Ok a, emit (EvAccountCreate a) w));
      checksum_address ← lift (to_checksum_address (la_address account));
      let private_key := la_key_hex account in
      address ← lift (validate_address checksum_address);
      private_key ← lift (validate_private_key private_key);
      mret {| ba_address := address; ba_private_key := private_key |}.

Definition get_account_from_key (private_key : string) : M LocalAccount :=
      lift (from_key private_key).

Definition get_balance_func (address token_address : string) : M Z :=
      contract ← get_contract token_address;
      checksum_address ← lift (to_checksum_address address);
      balance ← ask (λ h, node_call_balanceOf h contract checksum_address)
                    (EvCallBalanceOf contract checksum_address);
      mret balance.

Definition get_balance (address token_address : string) : M Z :=
      async_retry 3 PyFloat.lit_2_0 "get_balance"
        (get_balance_func address token_address).

Definition get_native_balance_func (address : string) : M Z :=
      checksum_address ← lift (to_checksum_address address);
      balance ← ask (λ h, node_get_balance h checksum_address)
                    (EvGetBalance checksum_address);
      mret balance.

Definition get_native_balance (address : string) : M Z :=
      async_retry 3 PyFloat.lit_2_0 "get_native_balance"
        (get_native_balance_func address).

Definition estimate_gas_func (transaction : pydict) : M Z :=
      try_except
        (gas ← ask (λ h, node_estimate_gas h transaction)
                   (EvEstimateGas transaction);
         (* Add 20% buffer *)
         x ← lift (PyFloat.int_mul_float gas PyFloat.lit_1_2);
         lift (PyFloat.int_of_float x))
        (λ e,
           logger WARNING "Gas estimation failed, using default"
             [("error", PStr (exn_str e))];;
           mret gas_limit).

Definition estimate_gas (transaction : pydict) : M Z :=
      async_retry 3 PyFloat.lit_2_0 "estimate_gas" (estimate_gas_func transaction).

Definition send_native_token_func
        (from_private_key to_address : string) (amount_wei : Z) : M string :=
      account ← get_account_from_key from_private_key;
      checksum_to ← lift (to_checksum_address to_address);
      nonce ← ask (λ h, node_get_transaction_count h (la_address account))
                  (EvGetTransactionCount (la_address account));
      gas_price ← lift (to_wei gas_price_gwei "gwei");
      let transaction : pydict := list_to_map
        [("nonce", PInt nonce); ("to", PStr checksum_to);
         ("value", PInt amount_wei); ("gas", PInt gas_limit);
         ("gasPrice", PInt gas_price); ("chainId", PInt chain_id)] in
      gas ← estimate_gas transaction;
      let transaction := <["gas" := PInt gas]> transaction in
      signed_txn ← record (sign_transaction transaction from_private_key)
                          (EvSignTransaction transaction);
      tx_hash ← ask (λ h, node_send_raw_transaction h signed_txn)
                    (EvSendRawTransaction signed_txn);
      let tx_hash_hex := to_hex tx_hash in
      logger INFO "Native token sent"
        [("from_address", PStr (la_address account)); ("to_address", PStr to_address);
         ("amount", PInt amount_wei); ("tx_hash", PStr tx_hash_hex)];;
      receipt ← ask (λ h, node_wait_for_transaction_receipt h tx_hash)
                    (EvWaitForTransactionReceipt tx_hash);
      status ← getitem receipt "status";
      if bool_decide (status ≠ PInt 1)
      then raise (Exn Exception ("Transaction failed: " +:+ tx_hash_hex))
      else mret tx_hash_hex.

Definition send_native_token
        (from_private_key to_address : string) (amount_wei : Z) : M string :=
      async_retry 3 PyFloat.lit_2_0 "send_native_token"
        (send_native_token_func from_private_key to_address amount_wei).

Definition transfer_erc20_func
        (from_private_key to_address : string) (amount : Z)
        (token_address : string) : M string :=
      account ← get_account_from_key from_private_key;
      contract ← get_contract token_address;
      checksum_to ← lift (to_checksum_address to_address);
      nonce ← ask (λ h, node_get_transaction_count h (la_address account))
                  (EvGetTransactionCount (la_address account));
      gas_price ← lift (to_wei gas_price_gwei "gwei");
      let params : pydict := list_to_map
        [("from", PStr (la_address account)); ("nonce", PInt nonce);
         ("gas", PInt gas_price); ("chainId", PInt chain_id)] in
      transaction ← ask (λ h, node_build_transfer h contract checksum_to amount params)
                        (EvBuildTransfer contract checksum_to amount params);
      gas ← estimate_gas transaction;
      let transaction := <["gas" := PInt gas]> transaction in
      signed_txn ← record (sign_transaction transaction from_private_key)
                          (EvSignTransaction transaction);
      tx_hash ← ask (λ h, node_send_raw_transaction h signed_txn)
                    (EvSendRawTransaction signed_txn);
      let tx_hash_hex := to_hex tx_hash in
      logger INFO "ERC20 transfer sent"
        [("from_address", PStr (la_address account)); ("to_address", PStr to_address);
         ("amount", PInt amount); ("token", PStr token_address);
         ("tx_hash", PStr tx_hash_hex)];;
      (* Wait for transaction receipt *)
      receipt ← ask (λ h, node_wait_for_transaction_receipt h tx_hash)
                    (EvWaitForTransactionReceipt tx_hash);
      status ← getitem receipt "status";
      if bool_decide (status ≠ PInt 1)
      then raise (Exn Exception ("Transaction failed: " +:+ tx_hash_hex))
      else mret tx_hash_hex.

Definition transfer_erc20
        (from_private_key to_address : string) (amount : Z)
        (token_address : string) : M string :=
      async_retry 3 PyFloat.lit_2_0 "transfer_erc20"
        (transfer_erc20_func from_private_key to_address amount token_address).

End client.
Section connection.
Context `{!Provider, !Settings}.

    (** [connect]: the value it returns, paired with [self._connected] as
        the call leaves it.  The probe is answered from the trace so far; of
        the call itself only the log record is kept. *)
Definition connect : M (bool * bool) :=
      try_except
        (is_connected ← (λ w, (node_is_connected (trace w), w));
         let self_connected := is_connected in
         (if (is_connected : bool)
          then logger INFO "Connected to blockchain" [("rpc_url", PStr rpc_url)]
          else logger ERROR "Failed to connect to blockchain"
                 [("rpc_url", PStr rpc_url)]);;
         mret (is_connected, self_connected))
        (λ e,
           logger ERROR "Blockchain connection error"
             [("error", PStr (exn_str e))];;
           let self_connected := false in
           mret (false, self_connected)).

End connection.
End Web3Client.

(** ** The SQLAlchemy session

    The [users] table with its two constraints (primary key [name], unique
    index on [address]); [add] stages an object, [commit] flushes the staged
    objects and makes them durable, a query sees the committed rows and,
    because the session flushes before it queries, the staged ones. *)
Module Session.

Definition address_taken (addr : string) (rows : gmap string User) : bool :=
    existsb (λ kv, bool_decide (User_address kv.2 = addr)) (map_to_list rows).

  (** Insert the staged objects one by one; [None] when a constraint fails. *)
Fixpoint flush (new : list User) (rows : gmap string User)
      : option (gmap string User) :=
    match new with
    | [] => Some rows
    | u :: rest =>
        match rows !! User_name u with
        | Some _ => None
        | None =>
            if address_taken (User_address u) rows then None
            else flush rest (<[User_name u := u]> rows)
        end
    end.

  (** [select(User).where(User.name == name)] then [scalar_one_or_none()] *)
Definition select_by_name (name : string) : M (option User) := λ w,
    (Ok (match users w !! name with
         | Some u => Some u
         | None => snd <$> list_find (λ u, User_name u = name) (session_new w)
         end), w).

Definition add (user : User) : M () := λ w,
    (Ok (), {| users := users w; session_new := session_new w ++ [user];
               trace := trace w |}).

Definition commit : M () := λ w,
    match flush (session_new w) (users w) with
    | Some rows =>
        (Ok (), {| users := rows; session_new := []; trace := trace w |})
    | None =>
        (Raise (Exn IntegrityError "constraint failed: users"),
         {| users := users w; session_new := []; trace := trace w |})
    end.

Definition refresh (user : User) : M User := λ w,
    match users w !! User_name user with
    | Some u => (Ok u, w)
    | None => (Raise (Exn InvalidRequestError "Could not refresh instance"), w)
    end.

End Session.

(** ** app/repositories/account.py *)

Module AccountRepository.
Section repository.
Context `{!AsyncWeb3, !Settings}.

Definition get_user_by_name (name : string) : M User :=
      user ← Session.select_by_name name;
      match user with
      | None =>
          logger WARNING "Account not found" [("name", PStr name)];;
          raise (Exn AccountNotFoundError ("Account '" +:+ name +:+ "' not found"))
      | Some user => mret user
      end.

Definition get_balance (name token_address : string) : M Z :=
      user ← get_user_by_name name;
      try_except (Web3Client.get_balance (User_address user) token_address)
        (λ e, raise (Exn BlockchainError ("Failed to get balance: " +:+ exn_str e))).

Definition transfer_from_to
        (from_name to_name : string) (amount : Z) (token_address : string)
        : M string :=
      from_user ← get_user_by_name from_name;
      to_user ← get_user_by_name to_name;
      try_except
        (balance ← Web3Client.get_balance (User_address from_user) token_address;
         if bool_decide (balance < amount) then
           raise (Exn InsufficientBalanceError
                    ("Insufficient balance. Available: " +:+ pretty balance +:+
                     ", Required: " +:+ pretty amount))
         else mret ())
        (λ e,
           if bool_decide (exn_cls e = InsufficientBalanceError) then raise e
           else
             logger ERROR "Failed to check balance" [("error", PStr (exn_str e))];;
             raise (Exn BlockchainError ("Failed to check balance: " +:+ exn_str e)));;
      Web3Client.transfer_erc20 (User_private_key from_user)
        (User_address to_user) amount token_address.

Definition get_initial_fund (name : string) (user : option User) : M string :=
      user ← match user with
             | None => get_user_by_name name
             | Some user => mret user
             end;
      amount_wei ← lift (to_wei initial_faucet_gwei "gwei");
      try_except
        (Web3Client.send_native_token faucet_private_key (User_address user)
           amount_wei)
        (λ e,
           logger ERROR "Faucet funding failed"
             [("name", PStr name); ("error", PStr (exn_str e))];;
           raise (Exn BlockchainError ("Faucet funding failed: " +:+ exn_str e))).

Definition create_account (name : string) : M UserResponse :=
      existing_user ← Session.select_by_name name;
      match existing_user with
      | Some _ =>
          logger WARNING "Account already exists" [("name", PStr name)];;
          raise (Exn AccountAlreadyExistsError
                   ("Account with name '" +:+ name +:+ "' already exists"))
      | None =>
          account_data ← Web3Client.create_account;
          (* Create user in database *)
          let user := {| User_name := name;
                         User_address := ba_address account_data;
                         User_private_key := ba_private_key account_data |} in
          Session.add user;;
          Session.commit;;
          user ← Session.refresh user;
          faucet_tx_hash ← get_initial_fund name (Some user);
          mret {| ur_name := User_name user; ur_address := User_address user;
                  ur_private_key := User_private_key user;
                  ur_faucet_tx_hash := Some faucet_tx_hash |}
      end.

End repository.
End AccountRepository.

(** ** app/routers/api.py *)

Module Api.

(** How a route function ends: with the value it returns, with the
    [HTTPException] it raises, or with any other exception, which it lets
    through to the handlers of the application. *)
Inductive outcome (A : Type) :=
  | Returned (a : A)
  | HTTPException (status_code : Z) (detail : string)
  | Uncaught (e : exn).
Global Arguments Returned {A} a.
Global Arguments HTTPException {A} status_code detail.
Global Arguments Uncaught {A} e.

Section api.
Context `{!AsyncWeb3, !Settings}.

(** [POST /create_account], on the validated [user_data.name]. *)
Definition create_account (user_data_name : string)
    : World → outcome UserResponse * World := λ w,
  match AccountRepository.create_account user_data_name w with
  | (Ok response, w') => (Returned response, w')
  | (Raise e, w') =>
      if bool_decide (exn_cls e = AccountAlreadyExistsError)
      then (HTTPException 409 (exn_str e), w')
      else (Uncaught e, w')
  end.

End api.
End Api.

(** ** app/main.py *)

Module Main.

(** [fastapi.responses.JSONResponse]: the status code and the JSON object. *)
Record JSONResponse := {
  status_code : Z; content : list (string * string) }.

Section main.
Context `{!Provider, !Settings}.

(** [lifespan] up to its [yield]: what runs before the application serves. *)
Definition lifespan_startup : M () :=
  logger INFO "Starting application"
    [("app_name", PStr "Blockchain Banking API")];;
  (* Connect to blockchain *)
  connected ← fst <$> Web3Client.connect;
  if negb connected then logger ERROR "Failed to connect to blockchain" []
  else mret ().

(** [lifespan] after its [yield]. *)
Definition lifespan_shutdown : M () :=
  logger INFO "Shutting down application" [].

(** The handler registered for [Exception]; [exc_info=True] is the integer 1,
    as a Python [bool] is. *)
Definition global_exception_handler (method url : string) (exc : exn)
    : M JSONResponse :=
  logger ERROR "Unhandled exception"
    [("method", PStr method); ("url", PStr url);
     ("error", PStr (exn_str exc)); ("exc_info", PInt 1)];;
  mret {| status_code := 500;
          content := [("detail", "Internal server error");
                      ("error", exn_str exc)] |}.

End main.
End Main.

(** ** app/utils/crypto.py *)

(** [str.encode("utf-8")] and [bytes.decode("utf-8")] with the default
    [errors="strict"].  Here a [str] is the sequence of its code points: a
    Python [str] may hold any code point up to U+10FFFF, the surrogates
    U+D800..U+DFFF included, and those have no UTF-8 encoding. *)
Module Utf8.
Local Open Scope N_scope.

Abbreviation pystr := (list N).

Definition byte_of_N (n : N) : Byte.byte := default Byte.x00 (Byte.of_N n).

Definition is_surrogate (c : N) : bool := (0xD800 <=? c) && (c <=? 0xDFFF).

Definition encode_char (c : N) : option bytes :=
    if c <? 0x80 then Some [byte_of_N c]
    else if c <? 0x800 then
      Some [byte_of_N (0xC0 + c / 64); byte_of_N (0x80 + c mod 64)]
    else if c <? 0x10000 then
      if is_surrogate c then None
      else Some [byte_of_N (0xE0 + c / 4096);
                 byte_of_N (0x80 + (c / 64) mod 64);
                 byte_of_N (0x80 + c mod 64)]
    else if c <? 0x110000 then
      Some [byte_of_N (0xF0 + c / 262144);
            byte_of_N (0x80 + (c / 4096) mod 64);
            byte_of_N (0x80 + (c / 64) mod 64);
            byte_of_N (0x80 + c mod 64)]
    else None.

Fixpoint encode (s : pystr) : result bytes :=
    match s with
    | [] => Ok []
    | c :: s' =>
        match encode_char c with
        | None => Raise (Exn UnicodeEncodeError "'utf-8' codec can't encode character")
        | Some bs =>
            match encode s' with
            | Ok rest => Ok (bs ++ rest)
            | Raise e => Raise e
            end
        end
    end.

  (** The payload of a continuation byte [10xxxxxx]. *)
Definition continuation (b : Byte.byte) : option N :=
    let n := Byte.to_N b in
    if (0x80 <=? n) && (n <? 0xC0) then Some (n - 0x80) else None.

Fixpoint decode_opt (bs : bytes) : option pystr :=
    match bs with
    | [] => Some []
    | b0 :: r0 =>
        let n0 := Byte.to_N b0 in
        if n0 <? 0x80 then cons n0 <$> decode_opt r0
        else if n0 <? 0xC2 then None
        else if n0 <? 0xE0 then
          match r0 with
          | b1 :: r1 =>
              match continuation b1 with
              | Some c1 => cons ((n0 - 0xC0) * 64 + c1) <$> decode_opt r1
              | None => None
              end
          | _ => None
          end
        else if n0 <? 0xF0 then
          match r0 with
          | b1 :: b2 :: r2 =>
              match continuation b1, continuation b2 with
              | Some c1, Some c2 =>
                  let c := (n0 - 0xE0) * 4096 + c1 * 64 + c2 in
                  if (c <? 0x800) || is_surrogate c then None
                  else cons c <$> decode_opt r2
              | _, _ => None
              end
          | _ => None
          end
        else if n0 <? 0xF5 then
          match r0 with
          | b1 :: b2 :: b3 :: r3 =>
              match continuation b1, continuation b2, continuation b3 with
              | Some c1, Some c2, Some c3 =>
                  let c := (n0 - 0xF0) * 262144 + c1 * 4096 + c2 * 64 + c3 in
                  if (c <? 0x10000) || (0x10FFFF <? c) then None
                  else cons c <$> decode_opt r3
              | _, _, _ => None
              end
          | _ => None
          end
        else None
    end.

Definition decode (bs : bytes) : result pystr :=
    match decode_opt bs with
    | Some s => Ok s
    | None => Raise (Exn UnicodeDecodeError "'utf-8' codec can't decode byte")
    end.

  (** The strings [encode] accepts. *)
Definition encodable (s : pystr) : Prop :=
    Forall (λ c, c < 0x110000 ∧ is_surrogate c = false) s.

End Utf8.

(** ** app/schemas/user.py *)

Module Schemas.
Import Utf8.
Section unicode.

(** [c.isalnum()] for one character: what the Unicode database of the
    interpreter says of the code point. *)
Variable isalnum_char : N → bool.

(** [s.isalnum()]: every character is alphanumeric and there is at least
    one character. *)
Definition isalnum (s : pystr) : bool :=
  negb (bool_decide (s = [])) && forallb isalnum_char s.

(** [s.replace(old, "")] for a one-character [old]. *)
Definition replace_char (old : N) (s : pystr) : pystr :=
  filter (λ c, c ≠ old) s.

(** [UserCreate.validate_name]; 95 is ["_"], 45 is ["-"]. *)
Definition validate_name (v : pystr) : result pystr :=
  if negb (isalnum (replace_char 45 (replace_char 95 v)))
  then Raise (Exn ValueError
                "Name must contain only alphanumeric characters, hyphens, and underscores")
  else Ok v.

(** [UserCreate(name=name)]: the constraints of the field ([min_length=1],
    [max_length=100]), then the validator.  Pydantic reports the failure of
    either as a [ValidationError]; [exn_str] keeps the message of the error
    it wraps. *)
Definition UserCreate (name : pystr) : result pystr :=
  if bool_decide (length name < 1)%nat
  then Raise (Exn ValidationError "String should have at least 1 character")
  else if bool_decide (100 < length name)%nat
  then Raise (Exn ValidationError "String should have at most 100 characters")
  else
    match validate_name name with
    | Ok v => Ok v
    | Raise e => Raise (Exn ValidationError (exn_str e))
    end.

End unicode.
End Schemas.

(** [cryptography.fernet.Fernet] under one key.  The library is not part of
    the repository: it is an interface.  [encrypt] reads the clock and 16
    random bytes, passed here as arguments; [decrypt] answers [None] where
    the library raises [InvalidToken].  [settings.py] declares no
    [private_key_encryption_key], so the key is a field of the interface. *)
Class Fernet := {
  fernet_key : string;
  fernet_encrypt : Z → bytes → bytes → bytes;
  fernet_decrypt : bytes → option bytes;
}.

(** What the library promises under one key: [decrypt] undoes [encrypt],
    and a token is URL-safe base64, hence ASCII. *)
Record fernet_contract `{!Fernet} : Prop := {
  fernet_decrypt_encrypt : ∀ now iv data,
    fernet_decrypt (fernet_encrypt now iv data) = Some data;
  fernet_token_ascii : ∀ now iv data,
    Forall (λ b, (Byte.to_N b < 128)%N) (fernet_encrypt now iv data);
}.

Module Crypto.
Import Utf8.
Section crypto.
    (** [fernet = Fernet(settings.private_key_encryption_key)] *)
Context `{!Fernet}.

Definition encrypt_private_key (now : Z) (iv : bytes) (plain_key : pystr)
        : result pystr :=
      match encode plain_key with
      | Ok data => decode (fernet_encrypt now iv data)
      | Raise e => Raise e
      end.

Definition decrypt_private_key (token : pystr) : M pystr :=
      (λ w, (Ok (), emit (EvPrint fernet_key) w));;
      data ← lift (encode token);
      match fernet_decrypt data with
      | Some plain => lift (decode plain)
      | None =>
          raise (Exn PrivateKeyEncryptionError
                   "Invalid encryption token for private key")
      end.

End crypto.
End Crypto.

(** ** Observations on traces *)

Module Trace.

  (** The world after the events [evs]. *)
Definition extend (w : World) (evs : list Event) : World :=
    {| users := users w; session_new := session_new w;
       trace := trace w ++ evs |}.

Definition is_broadcast (ev : Event) : bool :=
    match ev with EvSendRawTransaction _ _ => true | _ => false end.

Definition is_nonce_fetch (ev : Event) : bool :=
    match ev with EvGetTransactionCount _ _ => true | _ => false end.

Definition is_native_balance_call (ev : Event) : bool :=
    match ev with EvGetBalance _ _ => true | _ => false end.

Definition is_balanceOf_call (ev : Event) : bool :=
    match ev with EvCallBalanceOf _ _ _ => true | _ => false end.

  (** Number of [send_raw_transaction] calls. *)
Definition broadcasts (evs : list Event) : nat :=
    length (filter (λ ev, is_broadcast ev = true) evs).

  (** Number of [get_transaction_count] calls. *)
Definition nonce_fetches (evs : list Event) : nat :=
    length (filter (λ ev, is_nonce_fetch ev = true) evs).

  (** The hashes the node answered the broadcasts with, in order. *)
Definition broadcast_hashes (evs : list Event) : list bytes :=
    omap (λ ev, match ev with
                | EvSendRawTransaction _ (Ok tx_hash) => Some tx_hash
                | _ => None
                end) evs.

  (** The delays slept, in order. *)
Definition sleeps (evs : list Event) : list spec_float :=
    omap (λ ev, match ev with EvSleep d => Some d | _ => None end) evs.

  (** The record [wrapper] logs when an attempt of [func_name] raised. *)
Definition is_failure_record (func_name : string) (ev : Event) : bool :=
    match ev with
    | EvLog WARNING event ((k, PStr f) :: _) =>
        bool_decide (event = "Retry attempt" ∧ k = "function" ∧ f = func_name)
    | EvLog ERROR event ((k, PStr f) :: _) =>
        bool_decide
          (event = "Max retries reached" ∧ k = "function" ∧ f = func_name)
    | _ => false
    end.

  (** Number of failed attempts of [func_name] on record. *)
Definition failures (func_name : string) (evs : list Event) : nat :=
    length (filter (λ ev, is_failure_record func_name ev = true) evs).

  (** Attempts of [func_name] in a run that ended with [r]: one per logged
      failure, and the one that returned. *)
Definition attempts_made {A} (func_name : string) (r : result A)
      (evs : list Event) : nat :=
    (failures func_name evs + if is_Ok r then 1 else 0)%nat.

  (** The transaction dictionary an event carries, for the two submissions:
      the native transfer hands its dictionary to [estimate_gas] and to
      [sign_transaction]; the token transfer hands the parameters to
      [build_transaction]. *)
Definition native_carrier (ev : Event) : option pydict :=
    match ev with
    | EvEstimateGas tx _ | EvSignTransaction tx _ => Some tx
    | _ => None
    end.

Definition erc20_carrier (ev : Event) : option pydict :=
    match ev with
    | EvBuildTransfer _ _ _ params _ => Some params
    | _ => None
    end.

Definition is_build_transfer (ev : Event) : bool :=
    match ev with EvBuildTransfer _ _ _ _ _ => true | _ => false end.

  (** The parameters handed to [build_transaction] put the gas price where
      the gas limit belongs, and name no gas price. *)
Definition gas_is_gas_price `{!AsyncWeb3, !Settings} (ev : Event) : Prop :=
    match ev with
    | EvBuildTransfer _ _ _ params _ =>
        ∃ gas_price, to_wei gas_price_gwei "gwei" = Ok gas_price ∧
          params !! "gas" = Some (PInt gas_price) ∧
          params !! "gasPrice" = None
    | _ => True
    end.

  (** Scans a run in order.  [cur] is the nonce fetched so far in the
      current attempt; a failure record of [func_name] closes the attempt.
      Every carried dictionary must hold the nonce of its own attempt. *)
Fixpoint nonce_fresh_from (func_name : string)
      (carrier : Event → option pydict) (cur : option Z) (evs : list Event)
      : bool :=
    match evs with
    | [] => true
    | ev :: rest =>
        if is_failure_record func_name ev
        then nonce_fresh_from func_name carrier None rest
        else
          match ev with
          | EvGetTransactionCount _ (Ok n) =>
              nonce_fresh_from func_name carrier (Some n) rest
          | EvGetTransactionCount _ (Raise _) =>
              nonce_fresh_from func_name carrier None rest
          | _ =>
              match carrier ev with
              | Some tx =>
                  match cur with
                  | Some n =>
                      bool_decide (tx !! "nonce" = Some (PInt n)) &&
                      nonce_fresh_from func_name carrier cur rest
                  | None => false
                  end
              | None => nonce_fresh_from func_name carrier cur rest
              end
          end
    end.

Definition nonce_fresh func_name carrier evs : bool :=
    nonce_fresh_from func_name carrier None evs.

  (** What [wrapper] appends between a failed attempt and the next one, and
      after the last one. *)
Definition backoff_events (func_name : string) (max_retries : Z)
      (delay : spec_float) (attempt : Z) (e : exn) : list Event :=
    [EvLog WARNING "Retry attempt"
       [("function", PStr func_name); ("attempt", PInt (attempt + 1));
        ("max_retries", PInt max_retries); ("error", PStr (exn_str e))];
     EvSleep delay].

Definition give_up_events (func_name : string) (e : exn) : list Event :=
    [EvLog ERROR "Max retries reached"
       [("function", PStr func_name); ("error", PStr (exn_str e))]].

  (** The four ways a call decorated with [async_retry(3, 2.0)] can go:
      every attempt is a run of the whole of [func], started in the world the
      previous one left, after the record and a sleep of [2.0]. *)
Inductive retry_outcome {A} (func_name : string) (func : M A) (w : World)
      : result A * World → Prop :=
    | first_attempt_returns v w1 :
        func w = (Ok v, w1) →
        retry_outcome func_name func w (Ok v, w1)
    | second_attempt_returns e1 w1 v w2 :
        func w = (Raise e1, w1) →
        func (extend w1 (backoff_events func_name 3 PyFloat.lit_2_0 0 e1))
          = (Ok v, w2) →
        retry_outcome func_name func w (Ok v, w2)
    | third_attempt_returns e1 w1 e2 w2 v w3 :
        func w = (Raise e1, w1) →
        func (extend w1 (backoff_events func_name 3 PyFloat.lit_2_0 0 e1))
          = (Raise e2, w2) →
        func (extend w2 (backoff_events func_name 3 PyFloat.lit_2_0 1 e2))
          = (Ok v, w3) →
        retry_outcome func_name func w (Ok v, w3)
    | third_attempt_raises e1 w1 e2 w2 e3 w3 :
        func w = (Raise e1, w1) →
        func (extend w1 (backoff_events func_name 3 PyFloat.lit_2_0 0 e1))
          = (Raise e2, w2) →
        func (extend w2 (backoff_events func_name 3 PyFloat.lit_2_0 1 e2))
          = (Raise e3, w3) →
        retry_outcome func_name func w
          (Raise e3, extend w3 (give_up_events func_name e3)).

  (** [wp m Q]: from every world, [m] leaves the tables alone, appends some
      events [evs] to the trace [h] and ends with an outcome [r] such that
      [Q h r evs]. *)
Definition wp {A} (m : M A)
      (Q : list Event → result A → list Event → Prop) : Prop :=
    ∀ w, ∃ r evs, m w = (r, extend w evs) ∧ Q (trace w) r evs.

(** Everything before the broadcast succeeds, whatever the trace: the key
    and the addresses decode, the node reports a nonce, builds the token
    call, and the transaction can be signed. *)
Definition reaches_broadcast `{!AsyncWeb3, !Settings}
    (key to token : string) : Prop :=
  is_Ok (from_key key) = true ∧
  is_Ok (to_checksum_address to) = true ∧
  is_Ok (to_checksum_address token) = true ∧
  is_Ok (to_wei gas_price_gwei "gwei") = true ∧
  (∀ h a, is_Ok (node_get_transaction_count h a) = true) ∧
  (∀ h c t a p, is_Ok (node_build_transfer h c t a p) = true) ∧
  (∀ tx, is_Ok (sign_transaction tx key) = true).

(** Every receipt the node hands out reports a status other than 1. *)
Definition every_receipt_failed `{!AsyncWeb3} : Prop :=
  ∀ h tx_hash, ∃ receipt status,
    node_wait_for_transaction_receipt h tx_hash = Ok receipt ∧
    receipt !! "status" = Some status ∧ status ≠ PInt 1.

(** The exception an attempt raises on such a receipt. *)
Definition transaction_failed `{!AsyncWeb3} (e : exn) : Prop :=
  ∃ tx_hash, e = Exn Exception ("Transaction failed: " +:+ to_hex tx_hash).

(** The same four ways, seen from the trace: [P h r evs] says what one run
    of [func] from the trace [h] may append ([evs]) and end with ([r]). *)
Inductive retry_run {A} (func_name : string) (delay : spec_float)
    (P : list Event → result A → list Event → Prop) (h : list Event)
    : result A → list Event → Prop :=
  | run_1 v evs1 :
      P h (Ok v) evs1 →
      retry_run func_name delay P h (Ok v) evs1
  | run_2 e1 evs1 v evs2 :
      let b1 := backoff_events func_name 3 delay 0 e1 in
      P h (Raise e1) evs1 →
      P (h ++ evs1 ++ b1) (Ok v) evs2 →
      retry_run func_name delay P h (Ok v) (evs1 ++ b1 ++ evs2)
  | run_3 e1 evs1 e2 evs2 v evs3 :
      let b1 := backoff_events func_name 3 delay 0 e1 in
      let b2 := backoff_events func_name 3 delay 1 e2 in
      P h (Raise e1) evs1 →
      P (h ++ evs1 ++ b1) (Raise e2) evs2 →
      P (h ++ evs1 ++ b1 ++ evs2 ++ b2) (Ok v) evs3 →
      retry_run func_name delay P h (Ok v)
        (evs1 ++ b1 ++ evs2 ++ b2 ++ evs3)
  | run_4 e1 evs1 e2 evs2 e3 evs3 :
      let b1 := backoff_events func_name 3 delay 0 e1 in
      let b2 := backoff_events func_name 3 delay 1 e2 in
      P h (Raise e1) evs1 →
      P (h ++ evs1 ++ b1) (Raise e2) evs2 →
      P (h ++ evs1 ++ b1 ++ evs2 ++ b2) (Raise e3) evs3 →
      retry_run func_name delay P h (Raise e3)
        (evs1 ++ b1 ++ evs2 ++ b2 ++ evs3 ++ give_up_events func_name e3).

(** The transaction of a native transfer of [amount_wei] to [to_address]. *)
Definition native_transfer_of `{!AsyncWeb3, !Settings}
    (to_address : string) (amount_wei : Z) (transaction : pydict) : Prop :=
  ∃ checksum_to gas_price,
    to_checksum_address to_address = Ok checksum_to ∧
    to_wei gas_price_gwei "gwei" = Ok gas_price ∧
    transaction !! "to" = Some (PStr checksum_to) ∧
    transaction !! "value" = Some (PInt amount_wei) ∧
    transaction !! "gasPrice" = Some (PInt gas_price) ∧
    transaction !! "chainId" = Some (PInt chain_id).

(** What a native transfer signs is such a transaction, signed with the key
    of the call, and what it broadcasts is such a signature. *)
Definition signs_the_request `{!AsyncWeb3, !Settings}
    (from_private_key to_address : string) (amount_wei : Z) (ev : Event)
    : Prop :=
  match ev with
  | EvSignTransaction transaction r =>
      r = sign_transaction transaction from_private_key ∧
      native_transfer_of to_address amount_wei transaction
  | EvSendRawTransaction raw _ =>
      ∃ transaction,
        sign_transaction transaction from_private_key = Ok raw ∧
        native_transfer_of to_address amount_wei transaction
  | _ => True
  end.

(** The transaction of a token transfer: what the node built for
    [transfer(to_address, amount)] on the contract at [token_address], sent
    from the account of the key, with its ["gas"] entry replaced. *)
Definition token_transfer_of `{!AsyncWeb3, !Settings}
    (from_private_key to_address : string) (amount : Z)
    (token_address : string) (transaction : pydict) : Prop :=
  ∃ account contract checksum_to h params built gas,
    from_key from_private_key = Ok account ∧
    to_checksum_address token_address = Ok contract ∧
    to_checksum_address to_address = Ok checksum_to ∧
    params !! "from" = Some (PStr (la_address account)) ∧
    node_build_transfer h contract checksum_to amount params = Ok built ∧
    transaction = <["gas" := PInt gas]> built.

Definition signs_the_token_request `{!AsyncWeb3, !Settings}
    (from_private_key to_address : string) (amount : Z)
    (token_address : string) (ev : Event) : Prop :=
  match ev with
  | EvBuildTransfer contract checksum_to amount' _ _ =>
      to_checksum_address token_address = Ok contract ∧
      to_checksum_address to_address = Ok checksum_to ∧ amount' = amount
  | EvSignTransaction transaction r =>
      r = sign_transaction transaction from_private_key ∧
      token_transfer_of from_private_key to_address amount token_address
        transaction
  | EvSendRawTransaction raw _ =>
      ∃ transaction,
        sign_transaction transaction from_private_key = Ok raw ∧
        token_transfer_of from_private_key to_address amount token_address
          transaction
  | _ => True
  end.

(** The events [evs] show a transaction broadcast under the hash whose
    hexadecimal form is [tx_hash_hex], and a receipt for it with status 1. *)
Definition confirmed `{!AsyncWeb3} (tx_hash_hex : string)
    (evs : list Event) : Prop :=
  ∃ raw tx_hash receipt,
    EvSendRawTransaction raw (Ok tx_hash) ∈ evs ∧
    EvWaitForTransactionReceipt tx_hash (Ok receipt) ∈ evs ∧
    receipt !! "status" = Some (PInt 1) ∧
    tx_hash_hex = to_hex tx_hash.

(** Number of events of a kind [p]. *)
Definition count_events (p : Event → bool) (evs : list Event) : nat :=
  length (filter (λ ev, p ev = true) evs).

(** A call that reaches the node or the entropy of the system; the log
    records, the sleeps, the local signatures and the prints are the rest. *)
Definition is_node_call (ev : Event) : bool :=
  match ev with
  | EvLog _ _ _ | EvSleep _ | EvPrint _ | EvSignTransaction _ _ => false
  | _ => true
  end.

End Trace.

(** ** The [users] table

    What the schema of [app/models/user.py] promises of the committed rows:
    a row is stored under its [name], and no two rows share an [address]. *)

Module Table.

Definition keyed_by_name (rows : gmap string User) : Prop :=
  ∀ name user, rows !! name = Some user → User_name user = name.

Definition addresses_unique (rows : gmap string User) : Prop :=
  ∀ name1 name2 user1 user2,
    rows !! name1 = Some user1 → rows !! name2 = Some user2 →
    User_address user1 = User_address user2 → name1 = name2.

Definition table_ok (rows : gmap string User) : Prop :=
  keyed_by_name rows ∧ addresses_unique rows.

End Table.

(** ** What [estimate_gas] comes to *)

Module Gas.
Section gas.
Context `{!Settings}.

(** [int(gas * 1.2)] *)
Definition with_margin (gas : Z) : result Z :=
  match PyFloat.int_mul_float gas PyFloat.lit_1_2 with
  | Ok x => PyFloat.int_of_float x
  | Raise e => Raise e
  end.

(** The [try] block of [estimate_gas], given the node's answer. *)
Definition attempt (answer : result Z) : result Z :=
  match answer with
  | Ok gas => with_margin gas
  | Raise e => Raise e
  end.

(** The value [estimate_gas] returns, given the node's answer. *)
Definition value (answer : result Z) : Z :=
  match attempt answer with
  | Ok gas => gas
  | Raise _ => gas_limit
  end.

(** What [estimate_gas] logs after the call, given the node's answer. *)
Definition fallback_log (answer : result Z) : list Event :=
  match attempt answer with
  | Ok _ => []
  | Raise e =>
      [EvLog WARNING "Gas estimation failed, using default"
         [("error", PStr (exn_str e))]]
  end.

End gas.
End Gas.

(** ** Concrete worlds

    A small node and the default settings, to run the model on. *)

Module Demo.

(** The defaults of [app/settings.py]. *)
Definition settings : Settings := {|
  rpc_url := "http://localhost:8545";
  faucet_private_key := "0xfaucet";
  chain_id := 1000;
  gas_limit := 100000;
  gas_price_gwei := {| dec_sign := false; dec_coef := 1; dec_exp := -1 |};
  initial_faucet_gwei := {| dec_sign := false; dec_coef := 10; dec_exp := 0 |};
|}.

Definition new_address : string := "0x52908400098527886E0F7030069857D2E4169EE7".

(** A node scripted by: whether keys decode, its answer to [estimate_gas],
    its answer to [send_raw_transaction] (which may depend on the trace), the
    status of every receipt, and every token balance.  The nonce it reports
    is the number of broadcasts it has seen; native balances are 5. *)
Definition w3 (key_ok : bool) (estimate : result Z)
    (send : list Event → bytes → result bytes) (status : Z) (balance : Z)
    : AsyncWeb3 := {|
  to_checksum_address a :=
    if String.prefix "0x" a then Ok a
    else Raise (Exn ValueError "invalid address");
  from_key k :=
    if key_ok then Ok {| la_address := "0xF0"; la_key_hex := k |}
    else Raise (Exn ValueError "invalid private key");
  to_wei d unit := Ok (Z.of_N (dec_coef d) * 10 ^ (9 + dec_exp d));
  sign_transaction tx key :=
    match tx !! "nonce" with
    | Some (PInt n) => Ok [Byte.xf8; Utf8.byte_of_N (Z.to_N n)]
    | _ => Ok [Byte.xf8]
    end;
  to_hex b := "0xab";
  node_account_create h := {| la_address := new_address; la_key_hex := "0x11" |};
  node_get_transaction_count h a := Ok (Z.of_nat (Trace.broadcasts h));
  node_get_balance h a := Ok 5;
  node_call_balanceOf h c o := Ok balance;
  node_estimate_gas h tx := estimate;
  node_build_transfer h c to amount params :=
    Ok (<["to" := PStr c]> (<["data" := PStr "0xa9059cbb"]> params));
  node_send_raw_transaction := send;
  node_wait_for_transaction_receipt h tx_hash :=
    Ok {["status" := PInt status]};
|}.

Definition accepts (h : list Event) (raw : bytes) : result bytes :=
  Ok [Byte.xab].

Definition rejects (h : list Event) (raw : bytes) : result bytes :=
  Raise (Exn ValueError "nonce too low").

(** Unreachable for the first two broadcasts, then it accepts. *)
Definition flaky (h : list Event) (raw : bytes) : result bytes :=
  if (Trace.broadcasts h <? 2)%nat
  then Raise (Exn ConnectionError "connection refused")
  else Ok [Byte.xab].

Definition unreachable (h : list Event) (raw : bytes) : result bytes :=
  Raise (Exn ConnectionError "connection refused").

(** A provider whose probe always gives the same answer. *)
Definition provider (answer : result bool) : Provider := {|
  node_is_connected h := answer;
|}.

(** The classification of the ASCII range: digits and letters. *)
Definition isalnum_char (c : N) : bool :=
  ((48 <=? c) && (c <=? 57) || (65 <=? c) && (c <=? 90)
   || (97 <=? c) && (c <=? 122))%N.

Definition empty : World := {| users := ∅; session_new := []; trace := [] |}.

Definition alice : User := {|
  User_name := "alice"; User_address := "0xA1"; User_private_key := "0xa11ce" |}.
Definition bob : User := {|
  User_name := "bob"; User_address := "0xB0"; User_private_key := "0xb0b" |}.

(** Alice and Bob have accounts. *)
Definition bank : World :=
  {| users := <["alice" := alice]> (<["bob" := bob]> ∅);
     session_new := []; trace := [] |}.

End Demo.

(** A stand-in for Fernet with the same contract and no secrecy: every
    byte becomes two letters of [a..p].  It is there to run the model. *)
Module ToyFernet.
Import Utf8.
Local Open Scope N_scope.

Definition nibble (n : N) : Byte.byte := byte_of_N (97 + n).

Definition unnibble (b : Byte.byte) : option N :=
  let n := Byte.to_N b in
  if (97 <=? n) && (n <? 113) then Some (n - 97) else None.

Definition armor (data : bytes) : bytes :=
  flat_map (λ b, [nibble (Byte.to_N b / 16); nibble (Byte.to_N b mod 16)]) data.

Fixpoint dearmor (token : bytes) : option bytes :=
  match token with
  | [] => Some []
  | h :: l :: rest =>
      match unnibble h, unnibble l with
      | Some x, Some y => cons (byte_of_N (x * 16 + y)) <$> dearmor rest
      | _, _ => None
      end
  | _ => None
  end.

Definition fernet : Fernet := {|
  fernet_key := "c2VjcmV0LWtleS1mb3ItdGhlLXRveS1jaXBoZXItMDA9";
  fernet_encrypt now iv data := armor data;
  fernet_decrypt := dearmor;
|}.

End ToyFernet.

(** * Proofs *)

(** ** The program logic of coroutines *)

Section logic.
Import Trace.

Lemma extend_nil w : extend w [] = w.
  Proof. destruct w; unfold extend; simpl; by rewrite app_nil_r. Qed.

Lemma extend_extend w evs1 evs2 :
    extend (extend w evs1) evs2 = extend w (evs1 ++ evs2).
  Proof. unfold extend; simpl; by rewrite app_assoc. Qed.

Lemma emit_extend ev w : emit ev w = extend w [ev].
  Proof. reflexivity. Qed.

Lemma trace_extend w evs : trace (extend w evs) = trace w ++ evs.
  Proof. reflexivity. Qed.

Lemma users_extend w evs : users (extend w evs) = users w.
  Proof. reflexivity. Qed.

Context {A : Type}.
Implicit Types Q : list Event → result A → list Event → Prop.

Lemma wp_mono (m : M A) Q Q' :
    wp m Q → (∀ h r evs, Q h r evs → Q' h r evs) → wp m Q'.
  Proof. intros Hm HQ w. destruct (Hm w) as (r & evs & ? & ?); eauto. Qed.

Lemma wp_ret (a : A) Q : (∀ h, Q h (Ok a) []) → wp (mret a) Q.
  Proof. intros HQ w. exists (Ok a), []. by rewrite extend_nil. Qed.

Lemma wp_raise e Q : (∀ h, Q h (Raise e) []) → wp (raise e) Q.
  Proof. intros HQ w. exists (Raise e), []. by rewrite extend_nil. Qed.

Lemma wp_lift (r : result A) Q : (∀ h, Q h r []) → wp (lift r) Q.
  Proof. intros HQ w. exists r, []. by rewrite extend_nil. Qed.

Lemma wp_ask (node : list Event → result A) ev Q :
    (∀ h, Q h (node h) [ev (node h)]) → wp (ask node ev) Q.
  Proof. intros HQ w. by exists (node (trace w)), [ev (node (trace w))]. Qed.

Lemma wp_record (r : result A) ev Q :
    (∀ h, Q h r [ev r]) → wp (record r ev) Q.
  Proof. intros HQ w. by exists r, [ev r]. Qed.

Lemma wp_bind {B} (m : M B) (k : B → M A) Q :
    wp m (λ h r evs1,
      match r with
      | Ok b => wp (k b) (λ h' r' evs2, h' = h ++ evs1 → Q h r' (evs1 ++ evs2))
      | Raise e => Q h (Raise e) evs1
      end) →
    wp (m ≫= k) Q.
  Proof.
    intros Hm w. destruct (Hm w) as (r & evs1 & Hrun & Hr).
    unfold mbind, M_bind. rewrite Hrun. destruct r as [b|e]; [|eauto].
    destruct (Hr (extend w evs1)) as (r' & evs2 & Hrun' & HQ).
    exists r', (evs1 ++ evs2). rewrite Hrun', extend_extend. eauto.
  Qed.

Lemma wp_try_except (m : M A) (handler : exn → M A) Q :
    wp m (λ h r evs1,
      match r with
      | Ok a => Q h (Ok a) evs1
      | Raise e =>
          wp (handler e) (λ h' r' evs2, h' = h ++ evs1 → Q h r' (evs1 ++ evs2))
      end) →
    wp (try_except m handler) Q.
  Proof.
    intros Hm w. destruct (Hm w) as (r & evs1 & Hrun & Hr).
    unfold try_except. rewrite Hrun. destruct r as [a|e]; [eauto|].
    destruct (Hr (extend w evs1)) as (r' & evs2 & Hrun' & HQ).
    exists r', (evs1 ++ evs2). rewrite Hrun', extend_extend. eauto.
  Qed.

End logic.


(** ** The retry decorator *)

Section retry.
Import Trace Web3Client.
Context {A : Type} (func_name : string) (delay : spec_float) (func : M A).

Lemma on_failure_backoff attempt e w :
  attempt < 2 →
  on_failure 3 delay func_name attempt e w
  = (Ok (), extend w (backoff_events func_name 3 delay attempt e)).
Proof.
  intros Hlt. unfold on_failure. rewrite bool_decide_eq_true_2 by lia.
  unfold mbind, M_bind, logger, asyncio_sleep, emit, extend, backoff_events.
  simpl. by rewrite <- app_assoc.
Qed.

Lemma on_failure_give_up e w :
  on_failure 3 delay func_name 2 e w
  = (Ok (), extend w (give_up_events func_name e)).
Proof. reflexivity. Qed.

(** [async_retry(3, delay)] written out: at most three runs of [func]. *)
Lemma async_retry_3 w :
  async_retry 3 delay func_name func w =
    match func w with
    | (Ok v, w1) => (Ok v, w1)
    | (Raise e1, w1) =>
        match func (extend w1 (backoff_events func_name 3 delay 0 e1)) with
        | (Ok v, w2) => (Ok v, w2)
        | (Raise e2, w2) =>
            match func (extend w2 (backoff_events func_name 3 delay 1 e2)) with
            | (Ok v, w3) => (Ok v, w3)
            | (Raise e3, w3) =>
                (Raise e3, extend w3 (give_up_events func_name e3))
            end
        end
    end.
Proof.
  unfold async_retry. change (seqZ 0 3) with [0; 1; 2].
  cbn [wrapper_loop]. unfold mbind, M_bind, try_except, fmap, M_fmap.
  destruct (func w) as [[v|e1] w1]; [done|].
  rewrite on_failure_backoff by lia. cbn.
  destruct (func _) as [[v|e2] w2]; [done|].
  rewrite on_failure_backoff by lia. cbn.
  destruct (func _) as [[v|e3] w3]; [done|].
  by rewrite on_failure_give_up.
Qed.

Lemma wp_async_retry_3 P :
  wp func P → wp (async_retry 3 delay func_name func) (retry_run func_name delay P).
Proof.
  intros Hf w. rewrite async_retry_3.
  destruct (Hf w) as (r1 & evs1 & -> & H1).
  destruct r1 as [v|e1]; [exists (Ok v), evs1; split; [done|by constructor]|].
  rewrite extend_extend.
  destruct (Hf (extend w (evs1 ++ backoff_events func_name 3 delay 0 e1)))
    as (r2 & evs2 & -> & H2).
  rewrite trace_extend in H2.
  destruct r2 as [v|e2].
  { eexists (Ok v), _; split; [by rewrite extend_extend, <- app_assoc|].
    by apply run_2. }
  rewrite !extend_extend.
  destruct (Hf (extend w ((evs1 ++ backoff_events func_name 3 delay 0 e1) ++
                          evs2 ++ backoff_events func_name 3 delay 1 e2)))
    as (r3 & evs3 & -> & H3).
  rewrite trace_extend, <- !app_assoc in H3.
  destruct r3 as [v|e3].
  - eexists (Ok v), _; split; [by rewrite extend_extend, <- !app_assoc|].
    by apply run_3.
  - eexists (Raise e3), _; split; [by rewrite !extend_extend, <- !app_assoc|].
    by apply run_4.
Qed.

End retry.


(** ** Symbolic execution of the client *)

Section wp_unit.
Import Trace.

Lemma wp_logger level event kw (Q : list Event → result () → list Event → Prop) :
  (∀ h, Q h (Ok ()) [EvLog level event kw]) → wp (logger level event kw) Q.
Proof. intros HQ w. by exists (Ok ()), [EvLog level event kw]. Qed.

Lemma wp_asyncio_sleep delay (Q : list Event → result () → list Event → Prop) :
  (∀ h, Q h (Ok ()) [EvSleep delay]) → wp (asyncio_sleep delay) Q.
Proof. intros HQ w. by exists (Ok ()), [EvSleep delay]. Qed.

Lemma wp_getitem d k (Q : list Event → result pyval → list Event → Prop) :
  (∀ h, Q h (match d !! k with
             | Some v => Ok v
             | None => Raise (Exn KeyError ("'" +:+ k +:+ "'"))
             end) []) →
  wp (getitem d k) Q.
Proof.
  intros HQ. unfold getitem. destruct (d !! k); [by apply wp_ret|by apply wp_raise].
Qed.

End wp_unit.

(** One step of symbolic execution, and the whole of it. *)
Ltac wp_step :=
  first
    [ apply wp_bind
    | apply wp_try_except
    | apply wp_ret; intros ?h
    | apply wp_raise; intros ?h
    | apply wp_lift; intros ?h
    | apply wp_ask; intros ?h
    | apply wp_record; intros ?h
    | apply wp_logger; intros ?h
    | apply wp_asyncio_sleep; intros ?h
    | apply wp_getitem; intros ?h
    | match goal with
      | |- _ = _ → _ => intros ->
      | |- context [match ?r with Ok _ => _ | Raise _ => _ end] =>
          destruct r eqn:?
      | |- context [match ?o with Some _ => _ | None => _ end] =>
          destruct o eqn:?
      | |- context [bool_decide ?P] => destruct (bool_decide P) eqn:?
      end ].

Ltac wp_exec := repeat wp_step.

Section estimate_gas.
Import Trace Web3Client.
Context `{!AsyncWeb3, !Settings}.

Lemma wp_estimate_gas_func transaction :
  wp (estimate_gas_func transaction) (λ h r evs,
    let answer := node_estimate_gas h transaction in
    r = Ok (Gas.value answer) ∧
    evs = EvEstimateGas transaction answer :: Gas.fallback_log answer).
Proof.
  unfold estimate_gas_func, Gas.value, Gas.fallback_log, Gas.attempt,
    Gas.with_margin.
  wp_exec; simplify_eq/=; done.
Qed.

(** The decorator never has anything to retry: [estimate_gas] is one run of
    its body. *)
Lemma wp_estimate_gas transaction :
  wp (estimate_gas transaction) (λ h r evs,
    let answer := node_estimate_gas h transaction in
    r = Ok (Gas.value answer) ∧
    evs = EvEstimateGas transaction answer :: Gas.fallback_log answer).
Proof.
  intros w. unfold estimate_gas. rewrite async_retry_3.
  destruct (wp_estimate_gas_func transaction w) as (r & evs & -> & -> & ->).
  eauto.
Qed.

End estimate_gas.

Section bodies.
Import Trace Web3Client.
Context `{!AsyncWeb3, !Settings}.

Lemma native_transaction_nonce nonce to amt gp :
  (list_to_map
     [("nonce", PInt nonce); ("to", PStr to); ("value", PInt amt);
      ("gas", PInt gas_limit); ("gasPrice", PInt gp);
      ("chainId", PInt chain_id)] : pydict) !! "nonce" = Some (PInt nonce).
Proof. reflexivity. Qed.

Lemma wp_send_native_token_func key to amt :
  wp (send_native_token_func key to amt) (λ h r evs,
    (broadcasts evs ≤ 1)%nat ∧ sleeps evs = [] ∧
    failures "send_native_token" evs = 0%nat ∧
    nonce_fetches evs
      = (if is_Ok (from_key key) && is_Ok (to_checksum_address to)
         then 1 else 0)%nat ∧
    ∀ cur, nonce_fresh_from "send_native_token" native_carrier cur evs = true).
Proof.
  unfold send_native_token_func, get_account_from_key.
  wp_exec.
  all: try (eapply wp_mono; [apply wp_estimate_gas|]; intros ? ? ? [-> ->]).
  all: wp_exec.
  all: unfold Gas.fallback_log; try destruct (Gas.attempt _).
  all: repeat match goal with
              | H : from_key _ = _ |- _ => rewrite H
              | H : to_checksum_address _ = _ |- _ => rewrite H
              end.
  all: split; [vm_compute; lia|].
  all: split; [vm_compute; reflexivity|].
  all: split; [vm_compute; reflexivity|].
  all: split; [vm_compute; reflexivity|].
  all: intros cur.
  all: cbn -[lookup insert list_to_map bool_decide].
  all: rewrite ?bool_decide_eq_false_2 by (intros [? _]; discriminate).
  all: repeat match goal with
       | |- context [bool_decide (<[?k:=?g]> ?m !! "nonce" = Some ?v)] =>
           rewrite (bool_decide_eq_true_2 (<[k:=g]> m !! "nonce" = Some v))
             by (rewrite lookup_insert_ne by done;
                 exact (native_transaction_nonce _ _ _ _))
       | |- context [bool_decide (list_to_map ?l !! "nonce" = Some ?v)] =>
           rewrite (bool_decide_eq_true_2 (list_to_map l !! "nonce" = Some v))
             by exact (native_transaction_nonce _ _ _ _)
       end.
  all: reflexivity.
Qed.

Lemma erc20_params_nonce from nonce gp :
  (list_to_map
     [("from", PStr from); ("nonce", PInt nonce); ("gas", PInt gp);
      ("chainId", PInt chain_id)] : pydict) !! "nonce" = Some (PInt nonce).
Proof. reflexivity. Qed.

Lemma wp_transfer_erc20_func key to amt token :
  wp (transfer_erc20_func key to amt token) (λ h r evs,
    (broadcasts evs ≤ 1)%nat ∧ sleeps evs = [] ∧
    failures "transfer_erc20" evs = 0%nat ∧
    nonce_fetches evs
      = (if is_Ok (from_key key) && is_Ok (to_checksum_address token)
            && is_Ok (to_checksum_address to)
         then 1 else 0)%nat ∧
    (∀ cur, nonce_fresh_from "transfer_erc20" erc20_carrier cur evs = true) ∧
    Forall gas_is_gas_price evs ∧
    (∀ account,
       from_key key = Ok account →
       is_Ok (to_checksum_address token) = true →
       is_Ok (to_checksum_address to) = true →
       is_Ok (node_get_transaction_count h (la_address account)) = true →
       is_Ok (to_wei gas_price_gwei "gwei") = true →
       Exists (λ ev, is_build_transfer ev = true) evs)).
Proof.
  unfold transfer_erc20_func, get_account_from_key, get_contract.
  wp_exec.
  all: try (eapply wp_mono; [apply wp_estimate_gas|]; intros ? ? ? [-> ->]).
  all: wp_exec.
  all: unfold Gas.fallback_log; try destruct (Gas.attempt _).
  all: rewrite ?app_nil_r in *.
  all: repeat match goal with
              | H : from_key _ = _ |- _ => rewrite H
              | H : to_checksum_address _ = _ |- _ => rewrite H
              end.
  all: split; [vm_compute; lia|].
  all: split; [vm_compute; reflexivity|].
  all: split; [vm_compute; reflexivity|].
  all: split; [vm_compute; reflexivity|].
  all: split; [intros cur|].
  all: try (cbn -[lookup insert list_to_map bool_decide];
            rewrite ?bool_decide_eq_false_2 by (intros [? _]; discriminate);
            repeat match goal with
              | |- context [bool_decide (list_to_map ?l !! "nonce" = Some ?v)] =>
                  rewrite (bool_decide_eq_true_2 (list_to_map l !! "nonce" = Some v))
                    by exact (erc20_params_nonce _ _ _)
              end;
            reflexivity).
  all: split;
    [ repeat first [ apply Forall_nil_2 | apply Forall_cons_2 ];
      first [ exact I | eexists; split; [eassumption|split; reflexivity] ]
    | intros account ? ? ? ? ?; simplify_eq/=;
      repeat match goal with
             | Hi : is_Ok ?r = true, He : ?r = Raise _ |- _ =>
                 rewrite He in Hi; discriminate Hi
             end;
      repeat first [ by apply Exists_cons_hd | apply Exists_cons_tl ] ].
Qed.

End bodies.

(** ** Counting over a decorated run *)

Section counting.
Import Trace.

Lemma broadcasts_app evs1 evs2 :
  broadcasts (evs1 ++ evs2) = (broadcasts evs1 + broadcasts evs2)%nat.
Proof. unfold broadcasts. by rewrite filter_app, length_app. Qed.

Lemma nonce_fetches_app evs1 evs2 :
  nonce_fetches (evs1 ++ evs2) = (nonce_fetches evs1 + nonce_fetches evs2)%nat.
Proof. unfold nonce_fetches. by rewrite filter_app, length_app. Qed.

Lemma failures_app func_name evs1 evs2 :
  failures func_name (evs1 ++ evs2)
  = (failures func_name evs1 + failures func_name evs2)%nat.
Proof. unfold failures. by rewrite filter_app, length_app. Qed.

Lemma sleeps_app evs1 evs2 : sleeps (evs1 ++ evs2) = sleeps evs1 ++ sleeps evs2.
Proof. apply omap_app. Qed.

Lemma is_failure_record_retry func_name attempt max_retries e :
  is_failure_record func_name
    (EvLog WARNING "Retry attempt"
       [("function", PStr func_name); ("attempt", PInt attempt);
        ("max_retries", PInt max_retries); ("error", PStr (exn_str e))]) = true.
Proof. by apply bool_decide_eq_true_2. Qed.

Lemma is_failure_record_max func_name e :
  is_failure_record func_name
    (EvLog ERROR "Max retries reached"
       [("function", PStr func_name); ("error", PStr (exn_str e))]) = true.
Proof. by apply bool_decide_eq_true_2. Qed.

Lemma failures_backoff func_name max_retries delay attempt e :
  failures func_name (backoff_events func_name max_retries delay attempt e) = 1%nat.
Proof.
  unfold failures, backoff_events.
  rewrite filter_cons_True by apply is_failure_record_retry.
  reflexivity.
Qed.

Lemma failures_give_up func_name e :
  failures func_name (give_up_events func_name e) = 1%nat.
Proof.
  unfold failures, give_up_events.
  rewrite filter_cons_True by apply is_failure_record_max.
  reflexivity.
Qed.

Lemma broadcasts_backoff func_name max_retries delay attempt e :
  broadcasts (backoff_events func_name max_retries delay attempt e) = 0%nat.
Proof. reflexivity. Qed.

Lemma broadcasts_give_up func_name e :
  broadcasts (give_up_events func_name e) = 0%nat.
Proof. reflexivity. Qed.

Lemma nonce_fetches_backoff func_name max_retries delay attempt e :
  nonce_fetches (backoff_events func_name max_retries delay attempt e) = 0%nat.
Proof. reflexivity. Qed.

Lemma nonce_fetches_give_up func_name e :
  nonce_fetches (give_up_events func_name e) = 0%nat.
Proof. reflexivity. Qed.

Lemma nonce_fresh_from_app func_name carrier evs1 evs2 :
  (∀ cur, nonce_fresh_from func_name carrier cur evs2 = true) →
  ∀ cur, nonce_fresh_from func_name carrier cur evs1 = true →
         nonce_fresh_from func_name carrier cur (evs1 ++ evs2) = true.
Proof.
  intros H2. induction evs1 as [|ev evs1 IH]; intros cur; [by intros _|].
  cbn [app nonce_fresh_from].
  destruct (is_failure_record func_name ev); [by apply IH|].
  destruct ev; try destruct r; try destruct (carrier _); try destruct cur;
    try apply IH; try done.
  all: intros [? ?]%andb_true_iff; apply andb_true_iff; auto.
Qed.

Lemma nonce_fresh_from_backoff func_name carrier max_retries delay attempt e :
  carrier (EvSleep delay) = None →
  ∀ cur, nonce_fresh_from func_name carrier cur
           (backoff_events func_name max_retries delay attempt e) = true.
Proof.
  intros Hc cur. unfold backoff_events. cbn [nonce_fresh_from].
  rewrite is_failure_record_retry. cbn. by rewrite Hc.
Qed.

Lemma nonce_fresh_from_give_up func_name carrier e :
  ∀ cur, nonce_fresh_from func_name carrier cur
           (give_up_events func_name e) = true.
Proof.
  intros cur. unfold give_up_events. cbn [nonce_fresh_from].
  by rewrite is_failure_record_max.
Qed.

(** What one run of the decorated function is known to append. *)
Record attempt_ok (func_name : string) (evs : list Event) : Prop := {
  attempt_broadcasts : (broadcasts evs ≤ 1)%nat;
  attempt_sleeps : sleeps evs = [];
  attempt_failures : failures func_name evs = 0%nat;
}.

Lemma retry_run_counts {A} func_name delay
    (P : list Event → result A → list Event → Prop) h r evs :
  (∀ h r evs, P h r evs → attempt_ok func_name evs) →
  retry_run func_name delay P h r evs →
  (1 ≤ attempts_made func_name r evs ≤ 3)%nat ∧
  (broadcasts evs ≤ attempts_made func_name r evs)%nat ∧
  sleeps evs = replicate (attempts_made func_name r evs - 1) delay.
Proof.
  intros HP Hrun. unfold attempts_made.
  destruct Hrun as [v evs1 H1|e1 evs1 v evs2 b1 H1 H2
    |e1 evs1 e2 evs2 v evs3 b1 b2 H1 H2 H3
    |e1 evs1 e2 evs2 e3 evs3 b1 b2 H1 H2 H3].
  all: apply HP in H1; destruct H1.
  all: try (apply HP in H2; destruct H2).
  all: try (apply HP in H3; destruct H3).
  all: rewrite ?broadcasts_app, ?failures_app, ?sleeps_app.
  all: subst b1 || idtac; subst b2 || idtac.
  all: rewrite ?failures_backoff, ?failures_give_up, ?broadcasts_backoff,
         ?broadcasts_give_up.
  all: repeat match goal with
              | H : sleeps _ = [] |- _ => rewrite H
              | H : failures _ _ = 0%nat |- _ => rewrite H
              end.
  all: cbn [is_Ok backoff_events give_up_events sleeps omap list_omap app
            broadcasts filter list_filter length is_broadcast Nat.add].
  all: repeat split; try lia; try reflexivity.
Qed.

Lemma retry_run_nonces {A} func_name delay carrier (c : nat)
    (P : list Event → result A → list Event → Prop) h r evs :
  carrier (EvSleep delay) = None →
  (∀ h r evs, P h r evs →
     attempt_ok func_name evs ∧ nonce_fetches evs = c ∧
     ∀ cur, nonce_fresh_from func_name carrier cur evs = true) →
  retry_run func_name delay P h r evs →
  nonce_fetches evs = (c * attempts_made func_name r evs)%nat ∧
  nonce_fresh func_name carrier evs = true.
Proof.
  intros Hc HP Hrun. unfold attempts_made, nonce_fresh.
  destruct Hrun as [v evs1 H1|e1 evs1 v evs2 b1 H1 H2
    |e1 evs1 e2 evs2 v evs3 b1 b2 H1 H2 H3
    |e1 evs1 e2 evs2 e3 evs3 b1 b2 H1 H2 H3].
  all: apply HP in H1; destruct H1 as ([] & ? & ?).
  all: try (apply HP in H2; destruct H2 as ([] & ? & ?)).
  all: try (apply HP in H3; destruct H3 as ([] & ? & ?)).
  all: split.
  all: try (rewrite ?nonce_fetches_app, ?failures_app;
            subst b1 || idtac; subst b2 || idtac;
            rewrite ?failures_backoff, ?failures_give_up,
              ?nonce_fetches_backoff, ?nonce_fetches_give_up;
            cbn [is_Ok]; lia).
  all: repeat first
         [ apply nonce_fresh_from_app; [intros ?|]
         | by apply nonce_fresh_from_backoff
         | apply nonce_fresh_from_give_up
         | done ].
Qed.

Lemma retry_run_all_fail {A} func_name delay (Pe : exn → Prop)
    (P : list Event → result A → list Event → Prop) h r evs :
  (∀ h r evs, P h r evs →
     (∃ e, r = Raise e ∧ Pe e) ∧ attempt_ok func_name evs ∧
     broadcasts evs = 1%nat) →
  retry_run func_name delay P h r evs →
  (∃ e, r = Raise e ∧ Pe e) ∧ broadcasts evs = 3%nat ∧
  sleeps evs = [delay; delay] ∧ attempts_made func_name r evs = 3%nat.
Proof.
  intros HP Hrun. unfold attempts_made.
  destruct Hrun as [v evs1 H1|e1 evs1 v evs2 b1 H1 H2
    |e1 evs1 e2 evs2 v evs3 b1 b2 H1 H2 H3
    |e1 evs1 e2 evs2 e3 evs3 b1 b2 H1 H2 H3].
  1: by apply HP in H1 as ((? & ? & _) & _).
  1: by apply HP in H2 as ((? & ? & _) & _).
  1: by apply HP in H3 as ((? & ? & _) & _).
  apply HP in H1 as (_ & [] & ?), H2 as (_ & [] & ?), H3 as (He & [] & ?).
  split; [done|].
  rewrite !broadcasts_app, !failures_app, !sleeps_app. subst b1 b2.
  rewrite !failures_backoff, failures_give_up, !broadcasts_backoff,
    broadcasts_give_up.
  repeat match goal with
         | Hs : sleeps _ = [] |- _ => rewrite Hs
         | Hf : failures _ _ = 0%nat |- _ => rewrite Hf
         | Hb : broadcasts _ = 1%nat |- _ => rewrite Hb
         end.
  done.
Qed.

(** A property of events that the records and sleeps of the decorator
    have holds of a whole run when it holds of every attempt. *)
Lemma retry_run_Forall {A} func_name delay (Q : Event → Prop)
    (P : list Event → result A → list Event → Prop) h r evs :
  (∀ level event kw, Q (EvLog level event kw)) →
  Q (EvSleep delay) →
  (∀ h r evs, P h r evs → Forall Q evs) →
  retry_run func_name delay P h r evs →
  Forall Q evs.
Proof.
  intros Hlog Hsleep HP Hrun.
  destruct Hrun as [v evs1 H1|e1 evs1 v evs2 b1 H1 H2
    |e1 evs1 e2 evs2 v evs3 b1 b2 H1 H2 H3
    |e1 evs1 e2 evs2 e3 evs3 b1 b2 H1 H2 H3].
  all: apply HP in H1; try apply HP in H2; try apply HP in H3.
  all: rewrite ?Forall_app; repeat split; try done.
  all: repeat first [ apply Forall_nil_2 | apply Forall_cons_2 ]; done.
Qed.

(** Every decorated run starts with a run of the function from where the
    call was made. *)
Lemma retry_run_first {A} func_name delay
    (P : list Event → result A → list Event → Prop) h r evs :
  retry_run func_name delay P h r evs →
  ∃ r1 evs1 rest, evs = evs1 ++ rest ∧ P h r1 evs1.
Proof.
  intros [v evs1 H1|e1 evs1 v evs2 b1 H1 H2
    |e1 evs1 e2 evs2 v evs3 b1 b2 H1 H2 H3
    |e1 evs1 e2 evs2 e3 evs3 b1 b2 H1 H2 H3].
  - exists (Ok v), evs1, []. by rewrite app_nil_r.
  - by eexists (Raise e1), evs1, _.
  - by eexists (Raise e1), evs1, _.
  - by eexists (Raise e1), evs1, _.
Qed.

(** Every decorated run that returns ends with a run of the function that
    returned the same value. *)
Lemma retry_run_last {A} func_name delay
    (P : list Event → result A → list Event → Prop) h v evs :
  retry_run func_name delay P h (Ok v) evs →
  ∃ h' before evs', evs = before ++ evs' ∧ P h' (Ok v) evs'.
Proof.
  inversion 1 as [v' evs1 H1|e1 evs1 v' evs2 b1 H1 H2
    |e1 evs1 e2 evs2 v' evs3 b1 b2 H1 H2 H3|]; subst.
  - by exists h, [], evs.
  - eexists _, (evs1 ++ b1), evs2. by rewrite <- app_assoc.
  - eexists _, (evs1 ++ b1 ++ evs2 ++ b2), evs3. by rewrite <- !app_assoc.
Qed.

Lemma broadcasts_none evs :
  Forall (λ ev, is_broadcast ev = false) evs → broadcasts evs = 0%nat.
Proof.
  unfold broadcasts. induction 1 as [|ev evs Hev _ IH]; [done|].
  rewrite filter_cons_False; [done|]. by rewrite Hev.
Qed.

End counting.


(** ** The retry policy of a submission *)

Section submissions.
Import Trace Web3Client.
Context `{!AsyncWeb3, !Settings}.

Lemma retry_outcome_async_retry {A} func_name (func : M A) w :
  retry_outcome func_name func w
    (async_retry 3 PyFloat.lit_2_0 func_name func w).
Proof.
  rewrite async_retry_3.
  destruct (func w) as [[v|e1] w1] eqn:H1; [by apply first_attempt_returns|].
  destruct (func (extend w1 _)) as [[v|e2] w2] eqn:H2;
    [by eapply second_attempt_returns|].
  destruct (func (extend w2 _)) as [[v|e3] w3] eqn:H3.
  - by eapply third_attempt_returns.
  - by eapply third_attempt_raises.
Qed.

Lemma wp_send_native_token key to amt :
  wp (send_native_token key to amt)
    (retry_run "send_native_token" PyFloat.lit_2_0 (λ h r evs,
       attempt_ok "send_native_token" evs ∧
       nonce_fetches evs
         = (if is_Ok (from_key key) && is_Ok (to_checksum_address to)
            then 1 else 0)%nat ∧
       ∀ cur, nonce_fresh_from "send_native_token" native_carrier cur evs = true)).
Proof.
  apply wp_async_retry_3. eapply wp_mono; [apply wp_send_native_token_func|].
  intros h r evs (? & ? & ? & ? & ?). by repeat split.
Qed.

Lemma wp_transfer_erc20 key to amt token :
  wp (transfer_erc20 key to amt token)
    (retry_run "transfer_erc20" PyFloat.lit_2_0 (λ h r evs,
       attempt_ok "transfer_erc20" evs ∧
       nonce_fetches evs
         = (if is_Ok (from_key key) && is_Ok (to_checksum_address token)
               && is_Ok (to_checksum_address to)
            then 1 else 0)%nat ∧
       (∀ cur, nonce_fresh_from "transfer_erc20" erc20_carrier cur evs = true) ∧
       Forall gas_is_gas_price evs ∧
       (∀ account,
          from_key key = Ok account →
          is_Ok (to_checksum_address token) = true →
          is_Ok (to_checksum_address to) = true →
          is_Ok (node_get_transaction_count h (la_address account)) = true →
          is_Ok (to_wei gas_price_gwei "gwei") = true →
          Exists (λ ev, is_build_transfer ev = true) evs))).
Proof.
  apply wp_async_retry_3. eapply wp_mono; [apply wp_transfer_erc20_func|].
  intros h r evs (? & ? & ? & ? & ? & ? & ?). by repeat split.
Qed.

(** C1.  A submission, native or token, is at most three runs of the whole
    build-sign-broadcast-confirm sequence: whatever an attempt raises, the
    next attempt starts the sequence again from its first step after one
    record and one sleep of 2.0, the exception of the third attempt is the
    one raised to the caller, and in any run there are at most as many
    broadcasts as attempts, at most three attempts, and one sleep of 2.0
    between two attempts. *)
Theorem submission_retry_policy key to amt token w :
  let native := send_native_token key to amt w in
  let erc20 := transfer_erc20 key to amt token w in
  retry_outcome "send_native_token" (send_native_token_func key to amt) w native ∧
  retry_outcome "transfer_erc20" (transfer_erc20_func key to amt token) w erc20 ∧
  (∃ evs, native.2 = extend w evs ∧
     (1 ≤ attempts_made "send_native_token" native.1 evs ≤ 3)%nat ∧
     (broadcasts evs ≤ attempts_made "send_native_token" native.1 evs)%nat ∧
     sleeps evs = replicate (attempts_made "send_native_token" native.1 evs - 1)
                    PyFloat.lit_2_0) ∧
  (∃ evs, erc20.2 = extend w evs ∧
     (1 ≤ attempts_made "transfer_erc20" erc20.1 evs ≤ 3)%nat ∧
     (broadcasts evs ≤ attempts_made "transfer_erc20" erc20.1 evs)%nat ∧
     sleeps evs = replicate (attempts_made "transfer_erc20" erc20.1 evs - 1)
                    PyFloat.lit_2_0).
Proof.
  intros native erc20.
  split; [apply retry_outcome_async_retry|].
  split; [apply retry_outcome_async_retry|].
  split.
  - destruct (wp_send_native_token key to amt w) as (r & evs & Hrun & Hr).
    subst native. rewrite Hrun. exists evs. split; [done|].
    eapply retry_run_counts; [|exact Hr]. by intros ? ? ? [? _].
  - destruct (wp_transfer_erc20 key to amt token w) as (r & evs & Hrun & Hr).
    subst erc20. rewrite Hrun. exists evs. split; [done|].
    eapply retry_run_counts; [|exact Hr]. by intros ? ? ? [? _].
Qed.

End submissions.


(** ** Nonces *)

Section nonces.
Import Trace Web3Client.
Context `{!AsyncWeb3, !Settings}.

(** C2, as the code has it.  In every attempt of a submission the
    transaction dictionary carries the nonce that the attempt itself fetched
    with [get_transaction_count], never one of an earlier attempt.  When the
    private key and the addresses decode, every attempt starts with one
    fetch, so there are as many nonce fetches as attempts; when one of them
    does not decode, every attempt fails before the fetch and no nonce is
    fetched at all. *)
Theorem nonce_fetched_in_every_attempt key to amt token w :
  let native := send_native_token key to amt w in
  let erc20 := transfer_erc20 key to amt token w in
  (∃ evs, native.2 = extend w evs ∧
     nonce_fresh "send_native_token" native_carrier evs = true ∧
     nonce_fetches evs
     = if is_Ok (from_key key) && is_Ok (to_checksum_address to)
       then attempts_made "send_native_token" native.1 evs else 0%nat) ∧
  (∃ evs, erc20.2 = extend w evs ∧
     nonce_fresh "transfer_erc20" erc20_carrier evs = true ∧
     nonce_fetches evs
     = if is_Ok (from_key key) && is_Ok (to_checksum_address token)
          && is_Ok (to_checksum_address to)
       then attempts_made "transfer_erc20" erc20.1 evs else 0%nat).
Proof.
  intros native erc20. split.
  - destruct (wp_send_native_token key to amt w) as (r & evs & Hrun & Hr).
    subst native. rewrite Hrun. exists evs. split; [done|]. cbn [fst snd].
    eapply retry_run_nonces in Hr as [Hn Hf]; [| |by intros ? ? ? Hp; exact Hp];
      [|done].
    split; [done|]. rewrite Hn. case_match; lia.
  - destruct (wp_transfer_erc20 key to amt token w) as (r & evs & Hrun & Hr).
    subst erc20. rewrite Hrun. exists evs. split; [done|]. cbn [fst snd].
    eapply retry_run_nonces in Hr as [Hn Hf];
      [| |by intros ? ? ? (? & ? & ? & _)]; [|done].
    split; [done|]. rewrite Hn. case_match; lia.
Qed.

End nonces.

(** C2, as stated, fails: with a private key that does not decode, three
    attempts are made and the nonce is never fetched. *)
Lemma three_attempts_without_nonce_fetch :
  let run := @Web3Client.send_native_token
               (Demo.w3 false (Ok 21000) Demo.accepts 1 0) Demo.settings
               "not a key" "0xB0" 5 Demo.empty in
  Trace.attempts_made "send_native_token" run.1 (trace run.2) = 3%nat ∧
  Trace.nonce_fetches (trace run.2) = 0%nat ∧
  run.1 = Raise (Exn ValueError "invalid private key").
Proof. vm_compute. done. Qed.

(** ** Rejected broadcasts and reverted transactions *)

Section run_facts.
Import Trace.

(** A coroutine has one run from a world: what two descriptions say of it
    holds together. *)
Lemma wp_and {A} (m : M A)
    (Q1 Q2 : list Event → result A → list Event → Prop) :
  wp m Q1 → wp m Q2 → wp m (λ h r evs, Q1 h r evs ∧ Q2 h r evs).
Proof.
  intros H1 H2 w. destruct (H1 w) as (r & evs & Hrun & HQ1).
  destruct (H2 w) as (r' & evs' & Hrun' & HQ2).
  rewrite Hrun in Hrun'. injection Hrun' as <- Hevs.
  apply app_inv_head in Hevs as <-. by exists r, evs.
Qed.

Lemma broadcast_hashes_app evs1 evs2 :
  broadcast_hashes (evs1 ++ evs2)
  = broadcast_hashes evs1 ++ broadcast_hashes evs2.
Proof. apply omap_app. Qed.

(** When every attempt broadcasts once and raises "Transaction failed" for
    the hash of its broadcast, the run has three broadcasts and raises for
    the hash of the third. *)
Lemma retry_run_all_fail_hashes {A} `{!AsyncWeb3} func_name delay
    (P : list Event → result A → list Event → Prop) h r evs :
  (∀ h r evs, P h r evs →
     ∃ tx_hash,
       r = Raise (Exn Exception ("Transaction failed: " +:+ to_hex tx_hash)) ∧
       broadcast_hashes evs = [tx_hash]) →
  retry_run func_name delay P h r evs →
  ∃ tx1 tx2 tx3,
    r = Raise (Exn Exception ("Transaction failed: " +:+ to_hex tx3)) ∧
    broadcast_hashes evs = [tx1; tx2; tx3].
Proof.
  intros HP Hrun.
  destruct Hrun as [v evs1 H1|e1 evs1 v evs2 b1 H1 H2
    |e1 evs1 e2 evs2 v evs3 b1 b2 H1 H2 H3
    |e1 evs1 e2 evs2 e3 evs3 b1 b2 H1 H2 H3].
  1: by apply HP in H1 as (? & ? & _).
  1: by apply HP in H2 as (? & ? & _).
  1: by apply HP in H3 as (? & ? & _).
  apply HP in H1 as (tx1 & _ & Hh1), H2 as (tx2 & _ & Hh2),
    H3 as (tx3 & -> & Hh3).
  exists tx1, tx2, tx3. split; [done|].
  rewrite !broadcast_hashes_app, Hh1, Hh2, Hh3. by subst b1 b2.
Qed.

End run_facts.

(** The paths of a symbolic execution that the assumptions in the context
    rule out. *)
Ltac absurd_path :=
  match goal with
  | Hok : is_Ok (Raise _) = true |- _ => discriminate Hok
  | He : ?r = Raise _ |- _ =>
      let Hok := fresh "Hok" in
      assert (Hok : is_Ok r = true) by (auto; fail);
      rewrite He in Hok; discriminate Hok
  | He : @node_send_raw_transaction _ _ _ = Ok _,
    Hs : ∀ h raw, @node_send_raw_transaction _ h raw = Raise _ |- _ =>
      rewrite Hs in He; discriminate He
  end.

Ltac attempt_facts :=
  repeat split;
  first [ vm_compute; lia | vm_compute; reflexivity | reflexivity | eauto ].

Section always_failing.
Import Trace Web3Client.
Context `{!AsyncWeb3, !Settings}.
Variables (key to token : string) (amt : Z).
Hypothesis Hreach : reaches_broadcast key to token.

Section rejected.
Variable rejection : exn.
Hypothesis Hrejects : ∀ h raw, node_send_raw_transaction h raw = Raise rejection.

Lemma wp_send_native_token_func_rejected :
  wp (send_native_token_func key to amt) (λ h r evs,
    (∃ e, r = Raise e ∧ e = rejection) ∧
    attempt_ok "send_native_token" evs ∧ broadcasts evs = 1%nat).
Proof.
  destruct Hreach as (Hk & Hto & Htok & Hwei & Hn & Hb & Hs).
  unfold send_native_token_func, get_account_from_key.
  wp_exec.
  all: try (eapply wp_mono; [apply wp_estimate_gas|]; intros ? ? ? [-> ->]).
  all: wp_exec.
  all: try absurd_path.
  all: unfold Gas.fallback_log; try destruct (Gas.attempt _).
  all: match goal with
       | He : node_send_raw_transaction _ _ = Raise _ |- _ =>
           rewrite Hrejects in He; injection He as <-
       end.
  all: attempt_facts.
Qed.

Lemma wp_transfer_erc20_func_rejected :
  wp (transfer_erc20_func key to amt token) (λ h r evs,
    (∃ e, r = Raise e ∧ e = rejection) ∧
    attempt_ok "transfer_erc20" evs ∧ broadcasts evs = 1%nat).
Proof.
  destruct Hreach as (Hk & Hto & Htok & Hwei & Hn & Hb & Hs).
  unfold transfer_erc20_func, get_account_from_key, get_contract.
  wp_exec.
  all: try (eapply wp_mono; [apply wp_estimate_gas|]; intros ? ? ? [-> ->]).
  all: wp_exec.
  all: try absurd_path.
  all: unfold Gas.fallback_log; try destruct (Gas.attempt _).
  all: match goal with
       | He : node_send_raw_transaction _ _ = Raise _ |- _ =>
           rewrite Hrejects in He; injection He as <-
       end.
  all: attempt_facts.
Qed.

(** C3, as the code has it.  A rejected broadcast is an exception like any
    other to the decorator: when every step before the broadcast succeeds
    and the node rejects every broadcast, the submission broadcasts three
    times, sleeps 2.0 twice, and raises the rejection after the third. *)
Theorem rejected_broadcast_is_retried w :
  (∃ evs,
     send_native_token key to amt w = (Raise rejection, extend w evs) ∧
     broadcasts evs = 3%nat ∧
     sleeps evs = [PyFloat.lit_2_0; PyFloat.lit_2_0] ∧
     attempts_made "send_native_token" (Raise rejection : result string) evs
       = 3%nat) ∧
  (∃ evs,
     transfer_erc20 key to amt token w = (Raise rejection, extend w evs) ∧
     broadcasts evs = 3%nat ∧
     sleeps evs = [PyFloat.lit_2_0; PyFloat.lit_2_0] ∧
     attempts_made "transfer_erc20" (Raise rejection : result string) evs
       = 3%nat).
Proof.
  split.
  - destruct (wp_async_retry_3 "send_native_token" PyFloat.lit_2_0 _ _
                wp_send_native_token_func_rejected w) as (r & evs & Hrun & Hr).
    eapply (retry_run_all_fail _ _ (λ e, e = rejection)) in Hr
      as ((e & -> & ->) & ? & ? & ?); [|by intros ? ? ? Hp; exact Hp].
    by exists evs.
  - destruct (wp_async_retry_3 "transfer_erc20" PyFloat.lit_2_0 _ _
                wp_transfer_erc20_func_rejected w) as (r & evs & Hrun & Hr).
    eapply (retry_run_all_fail _ _ (λ e, e = rejection)) in Hr
      as ((e & -> & ->) & ? & ? & ?); [|by intros ? ? ? Hp; exact Hp].
    by exists evs.
Qed.

End rejected.

Section reverted.
Hypothesis Haccepts : ∀ h raw, is_Ok (node_send_raw_transaction h raw) = true.
Hypothesis Hfailed : every_receipt_failed.

Ltac failed_receipt :=
  match goal with
  | He : node_wait_for_transaction_receipt ?h ?x = _ |- _ =>
      let Hrc := fresh "Hrc" in
      let Hst := fresh "Hst" in
      let Hne := fresh "Hne" in
      destruct (Hfailed h x) as (? & ? & Hrc & Hst & Hne);
      rewrite Hrc in He; simplify_eq;
      rewrite ?Hst in *; simplify_eq;
      try match goal with
          | Hb : bool_decide _ = false |- _ =>
              apply bool_decide_eq_false in Hb; by destruct Hb
          end
  end.

Lemma wp_send_native_token_func_reverted :
  wp (send_native_token_func key to amt) (λ h r evs,
    (∃ e, r = Raise e ∧ transaction_failed e) ∧
    attempt_ok "send_native_token" evs ∧ broadcasts evs = 1%nat).
Proof.
  destruct Hreach as (Hk & Hto & Htok & Hwei & Hn & Hb & Hs).
  unfold send_native_token_func, get_account_from_key.
  wp_exec.
  all: try (eapply wp_mono; [apply wp_estimate_gas|]; intros ? ? ? [-> ->]).
  all: wp_exec.
  all: try absurd_path.
  all: try failed_receipt.
  all: unfold Gas.fallback_log; try destruct (Gas.attempt _).
  all: unfold transaction_failed; attempt_facts.
Qed.

Lemma wp_transfer_erc20_func_reverted :
  wp (transfer_erc20_func key to amt token) (λ h r evs,
    (∃ e, r = Raise e ∧ transaction_failed e) ∧
    attempt_ok "transfer_erc20" evs ∧ broadcasts evs = 1%nat).
Proof.
  destruct Hreach as (Hk & Hto & Htok & Hwei & Hn & Hb & Hs).
  unfold transfer_erc20_func, get_account_from_key, get_contract.
  wp_exec.
  all: try (eapply wp_mono; [apply wp_estimate_gas|]; intros ? ? ? [-> ->]).
  all: wp_exec.
  all: try absurd_path.
  all: try failed_receipt.
  all: unfold Gas.fallback_log; try destruct (Gas.attempt _).
  all: unfold transaction_failed; attempt_facts.
Qed.

Lemma wp_send_native_token_func_reverted_hash :
  wp (send_native_token_func key to amt) (λ h r evs,
    ∃ tx_hash,
      r = Raise (Exn Exception ("Transaction failed: " +:+ to_hex tx_hash)) ∧
      broadcast_hashes evs = [tx_hash]).
Proof.
  destruct Hreach as (Hk & Hto & Htok & Hwei & Hn & Hb & Hs).
  unfold send_native_token_func, get_account_from_key.
  wp_exec.
  all: try (eapply wp_mono; [apply wp_estimate_gas|]; intros ? ? ? [-> ->]).
  all: wp_exec.
  all: try absurd_path.
  all: try failed_receipt.
  all: unfold Gas.fallback_log; try destruct (Gas.attempt _).
  all: by eexists.
Qed.

Lemma wp_transfer_erc20_func_reverted_hash :
  wp (transfer_erc20_func key to amt token) (λ h r evs,
    ∃ tx_hash,
      r = Raise (Exn Exception ("Transaction failed: " +:+ to_hex tx_hash)) ∧
      broadcast_hashes evs = [tx_hash]).
Proof.
  destruct Hreach as (Hk & Hto & Htok & Hwei & Hn & Hb & Hs).
  unfold transfer_erc20_func, get_account_from_key, get_contract.
  wp_exec.
  all: try (eapply wp_mono; [apply wp_estimate_gas|]; intros ? ? ? [-> ->]).
  all: wp_exec.
  all: try absurd_path.
  all: try failed_receipt.
  all: unfold Gas.fallback_log; try destruct (Gas.attempt _).
  all: by eexists.
Qed.

Lemma reach_native :
  is_Ok (from_key key) && is_Ok (to_checksum_address to) = true.
Proof. destruct Hreach as (-> & -> & _). done. Qed.

Lemma reach_erc20 :
  is_Ok (from_key key) && is_Ok (to_checksum_address token)
  && is_Ok (to_checksum_address to) = true.
Proof. destruct Hreach as (-> & -> & -> & _). done. Qed.

(** One attempt under these assumptions: it broadcasts once and raises for
    the hash of that broadcast, after one nonce fetch whose answer is in
    the dictionary it built. *)
Lemma wp_send_native_token_func_reverted_run :
  wp (send_native_token_func key to amt) (λ h r evs,
    ((∃ e, r = Raise e ∧ transaction_failed e) ∧
     attempt_ok "send_native_token" evs ∧ broadcasts evs = 1%nat) ∧
    (attempt_ok "send_native_token" evs ∧ nonce_fetches evs = 1%nat ∧
     ∀ cur, nonce_fresh_from "send_native_token" native_carrier cur evs = true) ∧
    ∃ tx_hash,
      r = Raise (Exn Exception ("Transaction failed: " +:+ to_hex tx_hash)) ∧
      broadcast_hashes evs = [tx_hash]).
Proof.
  eapply wp_mono.
  { apply wp_and; [apply wp_and|];
      [ exact wp_send_native_token_func_reverted
      | apply wp_send_native_token_func
      | apply wp_send_native_token_func_reverted_hash ]. }
  intros h r evs [[H1 (_ & _ & _ & Hn & Hf)] H3].
  rewrite reach_native in Hn. destruct H1 as (? & Hok & ?).
  pose proof Hok as []. by repeat split.
Qed.

Lemma wp_transfer_erc20_func_reverted_run :
  wp (transfer_erc20_func key to amt token) (λ h r evs,
    ((∃ e, r = Raise e ∧ transaction_failed e) ∧
     attempt_ok "transfer_erc20" evs ∧ broadcasts evs = 1%nat) ∧
    (attempt_ok "transfer_erc20" evs ∧ nonce_fetches evs = 1%nat ∧
     ∀ cur, nonce_fresh_from "transfer_erc20" erc20_carrier cur evs = true) ∧
    ∃ tx_hash,
      r = Raise (Exn Exception ("Transaction failed: " +:+ to_hex tx_hash)) ∧
      broadcast_hashes evs = [tx_hash]).
Proof.
  eapply wp_mono.
  { apply wp_and; [apply wp_and|];
      [ exact wp_transfer_erc20_func_reverted
      | apply wp_transfer_erc20_func
      | apply wp_transfer_erc20_func_reverted_hash ]. }
  intros h r evs [[H1 (_ & _ & _ & Hn & Hf & _)] H3].
  rewrite reach_erc20 in Hn. destruct H1 as (? & Hok & ?).
  pose proof Hok as []. by repeat split.
Qed.

(** C4, as the code has it.  A receipt whose status is not 1 makes the
    attempt raise a plain [Exception] ("Transaction failed: " and the
    hash), which the decorator retries like any other: when every
    broadcast is accepted and every receipt reports failure, the submission
    makes three attempts with two sleeps of 2.0 and broadcasts three
    transactions; every attempt fetches the nonce afresh, three fetches in
    all, and the dictionary it builds (for a token transfer, the parameters
    handed to [build_transaction]) carries the nonce it fetched; and the
    [Exception] raised is that of the third attempt, naming the hash of the
    third broadcast. *)
Theorem reverted_transaction_is_retried w :
  (∃ e evs tx1 tx2 tx3,
     send_native_token key to amt w = (Raise e, extend w evs) ∧
     transaction_failed e ∧ broadcasts evs = 3%nat ∧
     sleeps evs = [PyFloat.lit_2_0; PyFloat.lit_2_0] ∧
     attempts_made "send_native_token" (Raise e : result string) evs = 3%nat ∧
     nonce_fetches evs = 3%nat ∧
     nonce_fresh "send_native_token" native_carrier evs = true ∧
     broadcast_hashes evs = [tx1; tx2; tx3] ∧
     e = Exn Exception ("Transaction failed: " +:+ to_hex tx3)) ∧
  (∃ e evs tx1 tx2 tx3,
     transfer_erc20 key to amt token w = (Raise e, extend w evs) ∧
     transaction_failed e ∧ broadcasts evs = 3%nat ∧
     sleeps evs = [PyFloat.lit_2_0; PyFloat.lit_2_0] ∧
     attempts_made "transfer_erc20" (Raise e : result string) evs = 3%nat ∧
     nonce_fetches evs = 3%nat ∧
     nonce_fresh "transfer_erc20" erc20_carrier evs = true ∧
     broadcast_hashes evs = [tx1; tx2; tx3] ∧
     e = Exn Exception ("Transaction failed: " +:+ to_hex tx3)).
Proof.
  split.
  - destruct (wp_async_retry_3 "send_native_token" PyFloat.lit_2_0 _ _
                wp_send_native_token_func_reverted_run w)
      as (r & evs & Hrun & Hr).
    pose proof Hr as Hr1. pose proof Hr as Hr2.
    eapply (retry_run_all_fail _ _ transaction_failed) in Hr
      as ((e & -> & ?) & ? & ? & Ha); [|by intros ? ? ? [Hp _]; exact Hp].
    eapply (retry_run_nonces _ _ native_carrier 1) in Hr1 as [Hn ?];
      [|done|by intros ? ? ? (_ & Hp & _); exact Hp].
    eapply retry_run_all_fail_hashes in Hr2
      as (tx1 & tx2 & tx3 & [= ->] & ?);
      [|by intros ? ? ? (_ & _ & Hp); exact Hp].
    eexists _, evs, tx1, tx2, tx3. rewrite Hn, Ha. by repeat split.
  - destruct (wp_async_retry_3 "transfer_erc20" PyFloat.lit_2_0 _ _
                wp_transfer_erc20_func_reverted_run w)
      as (r & evs & Hrun & Hr).
    pose proof Hr as Hr1. pose proof Hr as Hr2.
    eapply (retry_run_all_fail _ _ transaction_failed) in Hr
      as ((e & -> & ?) & ? & ? & Ha); [|by intros ? ? ? [Hp _]; exact Hp].
    eapply (retry_run_nonces _ _ erc20_carrier 1) in Hr1 as [Hn ?];
      [|done|by intros ? ? ? (_ & Hp & _); exact Hp].
    eapply retry_run_all_fail_hashes in Hr2
      as (tx1 & tx2 & tx3 & [= ->] & ?);
      [|by intros ? ? ? (_ & _ & Hp); exact Hp].
    eexists _, evs, tx1, tx2, tx3. rewrite Hn, Ha. by repeat split.
Qed.

End reverted.
End always_failing.


(** ** The 20% margin in double precision *)

Section rounding.

(** One right shift of a non-negative mantissa. *)
Lemma shr_1_nonneg m r s :
  0 ≤ m →
  shr_1 {| shr_m := m; shr_r := r; shr_s := s |}
  = {| shr_m := m / 2; shr_r := Z.odd m; shr_s := r || s |}.
Proof.
  intros Hm. rewrite <- Z.div2_div.
  by destruct m as [|[p|p|]|].
Qed.

Lemma iter_pos_nat {A} (f : A → A) p x :
  SpecFloat.iter_pos f p x = Nat.iter (Pos.to_nat p) f x.
Proof.
  revert x. induction p as [p IH|p IH|]; intros x; cbn [SpecFloat.iter_pos].
  - rewrite !IH, Pos2Nat.inj_xI.
    replace (S (2 * Pos.to_nat p)) with (Pos.to_nat p + S (Pos.to_nat p))%nat by lia.
    by rewrite Nat.iter_add, Nat.iter_succ_r.
  - rewrite !IH, Pos2Nat.inj_xO.
    replace (2 * Pos.to_nat p)%nat with (Pos.to_nat p + Pos.to_nat p)%nat by lia.
    by rewrite Nat.iter_add.
  - reflexivity.
Qed.

(** [k] right shifts: the quotient, the bit shifted out last, and whether
    anything below it was set. *)
Lemma shr_iter_nonneg m (k : nat) :
  0 ≤ m →
  let mrs := Nat.iter (S k) shr_1 {| shr_m := m; shr_r := false; shr_s := false |} in
  shr_m mrs = m / 2 ^ Z.of_nat (S k) ∧
  (shr_r mrs = true ↔ 2 ^ Z.of_nat k ≤ m mod 2 ^ Z.of_nat (S k)) ∧
  (shr_s mrs = true ↔ m mod 2 ^ Z.of_nat k ≠ 0).
Proof.
  intros Hm. induction k as [|k IH].
  - cbn [Nat.iter]. rewrite shr_1_nonneg by done. cbn [shr_m shr_r shr_s orb].
    change (2 ^ Z.of_nat 1) with 2. change (2 ^ Z.of_nat 0) with 1.
    rewrite Z.mod_1_r. split; [done|]. split; [|done].
    rewrite Zmod_odd. destruct (Z.odd m); split; (done || lia).
  - destruct IH as (IHm & IHr & IHs).
    set (mrs := Nat.iter (S k) shr_1 _) in *.
    change (Nat.iter (S (S k)) shr_1 ?x) with (shr_1 (Nat.iter (S k) shr_1 x)).
    fold mrs. destruct mrs as [m' r' s']. cbn [shr_m shr_r shr_s] in *.
    assert (0 ≤ m') by (subst m'; apply Z.div_pos; lia).
    rewrite shr_1_nonneg by done. cbn [shr_m shr_r shr_s].
    assert (Hp : 0 < 2 ^ Z.of_nat k) by lia.
    assert (Hp' : 2 ^ Z.of_nat (S k) = 2 ^ Z.of_nat k * 2)
      by (rewrite Nat2Z.inj_succ, Z.pow_succ_r; lia).
    assert (Hp'' : 2 ^ Z.of_nat (S (S k)) = 2 ^ Z.of_nat (S k) * 2)
      by (rewrite (Nat2Z.inj_succ (S k)), Z.pow_succ_r; lia).
    assert (Hmod : m mod 2 ^ Z.of_nat (S (S k))
                   = m mod 2 ^ Z.of_nat (S k) + 2 ^ Z.of_nat (S k) * (m' mod 2)).
    { rewrite Hp'', Z.rem_mul_r by lia. by rewrite IHm. }
    assert (Hmod' : m mod 2 ^ Z.of_nat (S k)
                   = m mod 2 ^ Z.of_nat k + 2 ^ Z.of_nat k * ((m / 2 ^ Z.of_nat k) mod 2)).
    { rewrite Hp', Z.rem_mul_r by lia. done. }
    split; [|split].
    + subst m'. rewrite Hp'', Z.div_div by lia. done.
    + rewrite Hmod. pose proof (Z.mod_pos_bound m (2 ^ Z.of_nat (S k))).
      rewrite Zmod_odd. destruct (Z.odd m'); split; try done; try lia.
    + rewrite orb_true_iff, IHr, IHs. rewrite Hmod'.
      pose proof (Z.mod_pos_bound m (2 ^ Z.of_nat k)).
      pose proof (Z.mod_pos_bound (m / 2 ^ Z.of_nat k) 2) as Hb.
      destruct (decide ((m / 2 ^ Z.of_nat k) mod 2 = 0)) as [->|Hne].
      * rewrite Z.mul_0_r, Z.add_0_r. lia.
      * replace ((m / 2 ^ Z.of_nat k) mod 2) with 1 by lia. lia.
Qed.


(** Rounding to nearest after [S k] shifts is off by at most half a unit. *)
Lemma round_shift_bound m (k : nat) :
  0 ≤ m →
  let mrs := Nat.iter (S k) shr_1 {| shr_m := m; shr_r := false; shr_s := false |} in
  let m1 := round_nearest_even (shr_m mrs) (loc_of_shr_record mrs) in
  - 2 ^ Z.of_nat k ≤ m1 * 2 ^ Z.of_nat (S k) - m ≤ 2 ^ Z.of_nat k ∧
  m / 2 ^ Z.of_nat (S k) ≤ m1 ≤ m / 2 ^ Z.of_nat (S k) + 1.
Proof.
  intros Hm mrs m1. destruct (shr_iter_nonneg m k Hm) as (Hq & Hr & Hs).
  fold mrs in Hq, Hr, Hs. subst m1.
  assert (Hp : 0 < 2 ^ Z.of_nat k) by lia.
  assert (Hp' : 2 ^ Z.of_nat (S k) = 2 ^ Z.of_nat k * 2)
    by (rewrite Nat2Z.inj_succ, Z.pow_succ_r; lia).
  pose proof (Z.div_mod m (2 ^ Z.of_nat (S k))) as Hdm.
  pose proof (Z.mod_pos_bound m (2 ^ Z.of_nat (S k))) as Hb.
  assert (Hlow : m mod 2 ^ Z.of_nat (S k)
                 = m mod 2 ^ Z.of_nat k
                   + 2 ^ Z.of_nat k * ((m / 2 ^ Z.of_nat k) mod 2))
    by (rewrite Hp', Z.rem_mul_r by lia; done).
  pose proof (Z.mod_pos_bound m (2 ^ Z.of_nat k)) as Hb0.
  pose proof (Z.mod_pos_bound (m / 2 ^ Z.of_nat k) 2) as Hb1.
  set (q := m / 2 ^ Z.of_nat (S k)) in *.
  set (rem := m mod 2 ^ Z.of_nat (S k)) in *.
  set (low := m mod 2 ^ Z.of_nat k) in *.
  set (X := 2 ^ Z.of_nat k) in *.
  destruct mrs as [m' [] []]; cbn [shr_m shr_r shr_s loc_of_shr_record
    round_nearest_even] in *; subst m'.
  - (* more than half *)
    assert (X ≤ rem) by (by apply Hr). nia.
  - (* exactly half *)
    assert (X ≤ rem) by (by apply Hr).
    assert (low = 0) by (destruct (decide (low = 0)); [done|]; by apply Hs in n).
    destruct (Z.even q); nia.
  - (* less than half *)
    assert (¬ X ≤ rem) by (intros ?%Hr; done). nia.
  - assert (¬ X ≤ rem) by (intros ?%Hr; done). nia.
Qed.

Lemma digits2_pos_bounds p :
  2 ^ (Z.pos (digits2_pos p) - 1) ≤ Z.pos p < 2 ^ Z.pos (digits2_pos p).
Proof.
  induction p as [p IH|p IH|]; cbn [digits2_pos]; [| |done].
  all: rewrite Pos2Z.inj_succ.
  all: replace (Z.succ (Z.pos (digits2_pos p)) - 1)
         with (Z.succ (Z.pos (digits2_pos p) - 1)) by lia.
  all: rewrite !Z.pow_succ_r by lia; lia.
Qed.

Lemma digits2_pos_unique p d :
  2 ^ (d - 1) ≤ Z.pos p < 2 ^ d → Z.pos (digits2_pos p) = d.
Proof.
  intros [Hlo Hhi]. pose proof (digits2_pos_bounds p) as [Hlo' Hhi'].
  assert (0 < d).
  { destruct (Z.lt_trichotomy d 0) as [?|[->|?]]; [|cbn in Hhi; lia|done].
    rewrite Z.pow_neg_r in Hhi by done. lia. }
  assert (d - 1 < Z.pos (digits2_pos p))
    by (apply (Z.pow_lt_mono_r_iff 2); lia).
  assert (Z.pos (digits2_pos p) - 1 < d)
    by (apply (Z.pow_lt_mono_r_iff 2); lia).
  lia.
Qed.

Lemma iter_xO_mul_pow2 p k : Z.pos (Pos.iter xO p k) = Z.pos p * 2 ^ Z.pos k.
Proof.
  induction k as [|k IH] using Pos.peano_ind.
  - cbn. lia.
  - rewrite Pos.iter_succ, Pos2Z.inj_xO, IH, Pos2Z.inj_succ, Z.pow_succ_r; lia.
Qed.


Lemma digits2_pos_iter_xO p k :
  digits2_pos (Pos.iter xO p k) = (digits2_pos p + k)%positive.
Proof.
  induction k as [|k IH] using Pos.peano_ind.
  - cbn. lia.
  - rewrite Pos.iter_succ. cbn [digits2_pos]. rewrite IH. lia.
Qed.

(** An exact mantissa of 53 digits is left alone by the rounding. *)
Lemma binary_round_aux_exact s m e :
  Z.pos (digits2_pos m) = 53 → -1074 ≤ e ≤ 971 →
  binary_round_aux PyFloat.prec PyFloat.emax s (Z.pos m) e loc_Exact
  = S754_finite s m e.
Proof.
  intros Hd He. unfold binary_round_aux, shr_fexp, fexp, emin, Zdigits2.
  cbn [shr_record_of_loc]. rewrite Hd.
  replace (Z.max (53 + e - PyFloat.prec) (3 - PyFloat.emax - PyFloat.prec) - e)
    with 0 by (unfold PyFloat.prec, PyFloat.emax; lia).
  cbn [shr shr_m loc_of_shr_record round_nearest_even Zdigits2].
  rewrite Hd.
  replace (Z.max (53 + e - PyFloat.prec) (3 - PyFloat.emax - PyFloat.prec) - e)
    with 0 by (unfold PyFloat.prec, PyFloat.emax; lia).
  cbn [shr shr_m].
  rewrite Zle_imp_le_bool by (unfold PyFloat.prec, PyFloat.emax; lia). done.
Qed.

(** [float(g)] is exact below 2^52. *)
Lemma float_of_int_exact p :
  let d := Z.pos (digits2_pos p) in
  d ≤ 52 →
  PyFloat.float_of_int (Z.pos p)
  = Ok (S754_finite false (Pos.iter xO p (Z.to_pos (53 - d))) (d - 53)).
Proof.
  intros d Hd. unfold PyFloat.float_of_int, binary_normalize, binary_round.
  unfold shl_align, fexp, emin. fold d.
  replace (Z.max (d + 0 - PyFloat.prec) (3 - PyFloat.emax - PyFloat.prec) - 0)
    with (Z.neg (Z.to_pos (53 - d))) by (unfold PyFloat.prec, PyFloat.emax; lia).
  replace (Z.max (d + 0 - PyFloat.prec) (3 - PyFloat.emax - PyFloat.prec))
    with (d - 53) by (unfold PyFloat.prec, PyFloat.emax; lia).
  rewrite binary_round_aux_exact; [done| |lia].
  rewrite digits2_pos_iter_xO. fold d. lia.
Qed.


(** [float * 1.2] then [int()], for a normal double below 1: the product of
    the mantissas is shifted right by [n] (52 or 53) and rounded to nearest,
    and [int()] drops the fractional bits. *)
Lemma int_of_mul_1_2 mz ez :
  Z.pos (digits2_pos mz) = 53 → -104 ≤ ez ≤ -3 →
  ∃ m1 n,
    (n = 52 ∨ n = 53) ∧
    - 2 ^ (n - 1) ≤ m1 * 2 ^ n - Z.pos mz * 5404319552844595 ≤ 2 ^ (n - 1) ∧
    PyFloat.int_of_float
      (SFmul PyFloat.prec PyFloat.emax (S754_finite false mz ez) PyFloat.lit_1_2)
    = Ok (m1 / 2 ^ (52 - ez - n)).
Proof.
  intros Hd He.
  pose proof (digits2_pos_bounds mz) as Hmz. rewrite Hd in Hmz.
  change (2 ^ (53 - 1)) with 4503599627370496 in Hmz.
  change (2 ^ 53) with 9007199254740992 in Hmz.
  unfold SFmul, PyFloat.lit_1_2. cbn [xorb].
  set (P := (mz * 5404319552844595)%positive).
  assert (HP : Z.pos P = Z.pos mz * 5404319552844595) by done.
  pose proof (digits2_pos_bounds P) as HdP.
  set (dP := Z.pos (digits2_pos P)) in *.
  assert (HdP' : dP = 105 ∨ dP = 106).
  { assert (104 < dP).
    { apply (Z.pow_lt_mono_r_iff 2); [lia..|].
      change (2 ^ 104) with 20282409603651670423947251286016. lia. }
    assert (dP - 1 < 106).
    { apply (Z.pow_lt_mono_r_iff 2); [lia..|].
      change (2 ^ 106) with 81129638414606681695789005144064. lia. }
    lia. }
  unfold binary_round_aux, shr_fexp, fexp, emin.
  change (Zdigits2 (Z.pos P)) with dP. cbn [shr_record_of_loc].
  set (k := Nat.pred (Z.to_nat (dP - 53))).
  replace (Z.max (dP + (ez + -52) - PyFloat.prec)
             (3 - PyFloat.emax - PyFloat.prec) - (ez + -52))
    with (Z.pos (Pos.of_nat (S k)))
    by (unfold PyFloat.prec, PyFloat.emax; lia).
  cbn [shr]. rewrite iter_pos_nat, Nat2Pos.id by done.
  destruct (round_shift_bound (Z.pos P) k) as [Hbound Hquot]; [lia|].
  set (mrs := Nat.iter (S k) shr_1 _) in *.
  set (m1 := round_nearest_even (shr_m mrs) (loc_of_shr_record mrs)) in *.
  set (e1 := ez + -52 + Z.pos (Pos.of_nat (S k))).
  exists m1, (dP - 53).
  split; [lia|].
  assert (Hk : Z.of_nat (S k) = dP - 53) by lia.
  assert (Hk' : Z.of_nat k = dP - 53 - 1) by lia.
  rewrite Hk, Hk', HP in Hbound. split; [exact Hbound|].
  assert (He1 : e1 = ez - 52 + (dP - 53)) by lia.
  (* the quotient has 53 digits *)
  assert (Hq : 4503599627370496 ≤ Z.pos P / 2 ^ Z.of_nat (S k) < 9007199254740992).
  { rewrite Hk. destruct HdP' as [HdP'|HdP']; rewrite HdP' in *.
    - change (2 ^ (105 - 53)) with 4503599627370496.
      change (2 ^ (105 - 1)) with 20282409603651670423947251286016 in HdP.
      change (2 ^ 105) with 40564819207303340847894502572032 in HdP.
      split; [apply Z.div_le_lower_bound|apply Z.div_lt_upper_bound]; lia.
    - change (2 ^ (106 - 53)) with 9007199254740992.
      change (2 ^ (106 - 1)) with 40564819207303340847894502572032 in HdP.
      change (2 ^ 106) with 81129638414606681695789005144064 in HdP.
      split; [apply Z.div_le_lower_bound|apply Z.div_lt_upper_bound]; lia. }
  destruct (decide (m1 = 9007199254740992)) as [Hm1|Hm1].
  - (* the rounding carried into a 54th digit *)
    rewrite Hm1. change (Zdigits2 9007199254740992) with 54.
    replace (Z.max (54 + e1 - PyFloat.prec)
               (3 - PyFloat.emax - PyFloat.prec) - e1)
      with 1 by (unfold PyFloat.prec, PyFloat.emax; lia).
    cbn [shr SpecFloat.iter_pos shr_1 shr_record_of_loc shr_m].
    rewrite Zle_imp_le_bool by (unfold PyFloat.prec, PyFloat.emax; lia).
    unfold PyFloat.int_of_float.
    rewrite (proj2 (Z.leb_gt 0 (e1 + 1))) by lia. f_equal.
    replace (52 - ez - (dP - 53)) with (Z.succ (- (e1 + 1))) by lia.
    rewrite Z.pow_succ_r by lia.
    change 9007199254740992 with (2 * 4503599627370496).
    rewrite Z.div_mul_cancel_l by lia. done.
  - destruct m1 as [|pm1|] eqn:Hpm1; [lia| |lia].
    assert (Hd1 : Z.pos (digits2_pos pm1) = 53)
      by (apply digits2_pos_unique;
          change (2 ^ (53 - 1)) with 4503599627370496;
          change (2 ^ 53) with 9007199254740992; lia).
    cbn [Zdigits2]. rewrite Hd1.
    replace (Z.max (53 + e1 - PyFloat.prec)
               (3 - PyFloat.emax - PyFloat.prec) - e1)
      with 0 by (unfold PyFloat.prec, PyFloat.emax; lia).
    cbn [shr shr_record_of_loc shr_m].
    rewrite Zle_imp_le_bool by (unfold PyFloat.prec, PyFloat.emax; lia).
    unfold PyFloat.int_of_float.
    rewrite (proj2 (Z.leb_gt 0 e1)) by lia.
    by replace (52 - ez - (dP - 53)) with (- e1) by lia.
Qed.


(** For every estimate below 2^50, [int(gas * 1.2)] is the exact
    [floor (6 * gas / 5)]. *)
Lemma with_margin_exact gas :
  0 ≤ gas < 2 ^ 50 → Gas.with_margin gas = Ok (gas * 6 / 5).
Proof.
  intros [Hlo Hhi]. destruct gas as [|p|]; [done| |lia].
  pose proof (digits2_pos_bounds p) as Hp.
  set (d := Z.pos (digits2_pos p)) in *.
  assert (Hd : d ≤ 50).
  { assert (d - 1 < 50); [|lia]. apply (Z.pow_lt_mono_r_iff 2); lia. }
  unfold Gas.with_margin, PyFloat.int_mul_float.
  rewrite float_of_int_exact by (fold d; lia). fold d.
  set (mz := Pos.iter xO p (Z.to_pos (53 - d))).
  assert (Hmz : Z.pos mz = Z.pos p * 2 ^ (53 - d)).
  { subst mz. rewrite iter_xO_mul_pow2, Z2Pos.id by lia. done. }
  assert (Hdz : Z.pos (digits2_pos mz) = 53).
  { subst mz. rewrite digits2_pos_iter_xO. fold d. lia. }
  pose proof (digits2_pos_bounds mz) as Hbz. rewrite Hdz in Hbz.
  change (2 ^ (53 - 1)) with 4503599627370496 in Hbz.
  change (2 ^ 53) with 9007199254740992 in Hbz.
  destruct (int_of_mul_1_2 mz (d - 53) Hdz) as (m1 & n & Hn & Hb & ->); [lia|].
  f_equal.
  set (q := Z.pos p * 6 / 5).
  assert (Hq : 5 * q ≤ 6 * Z.pos p ≤ 5 * q + 4).
  { pose proof (Z.div_mod (Z.pos p * 6) 5).
    pose proof (Z.mod_pos_bound (Z.pos p * 6) 5). subst q. lia. }
  assert (Hq0 : 0 ≤ q) by lia.
  symmetry. apply Z.div_unique with (m1 - q * 2 ^ (52 - (d - 53) - n)); [|lia].
  left. destruct Hn as [-> | ->].
  - (* shifted by 52 *)
    replace (52 - (d - 53) - 52) with (53 - d) by lia.
    change (2 ^ (52 - 1)) with 2251799813685248 in Hb.
    change (2 ^ 52) with 4503599627370496 in Hb.
    set (T := 2 ^ (53 - d)) in *.
    assert (HT : 8 ≤ T)
      by (change 8 with (2 ^ 3); apply Z.pow_le_mono_r; lia).
    assert (5 * (q * T) ≤ 6 * Z.pos mz ≤ 5 * (q * T) + 4 * T) by nia.
    lia.
  - (* shifted by 53 *)
    replace (52 - (d - 53) - 53) with (52 - d) by lia.
    change (2 ^ (53 - 1)) with 4503599627370496 in Hb.
    change (2 ^ 53) with 9007199254740992 in Hb.
    assert (HK : 2 ^ (53 - d) = 2 * 2 ^ (52 - d)).
    { replace (53 - d) with (Z.succ (52 - d)) by lia.
      rewrite Z.pow_succ_r by lia. done. }
    set (T := 2 ^ (52 - d)) in *.
    assert (HT : 4 ≤ T)
      by (change 4 with (2 ^ 2); apply Z.pow_le_mono_r; lia).
    assert (10 * (q * T) ≤ 6 * Z.pos mz ≤ 10 * (q * T) + 8 * T) by nia.
    lia.
Qed.

End rounding.

(** ** Gas estimation *)

Section gas_estimation.
Import Trace Web3Client.
Context `{!AsyncWeb3, !Settings}.

(** After the nonce is fetched a native transfer asks for the estimate and,
    whatever the answer, goes on to sign the transaction with the value
    [estimate_gas] returned. *)
Lemma send_native_token_func_proceeds key to amt account checksum_to nonce gas_price w :
  from_key key = Ok account →
  to_checksum_address to = Ok checksum_to →
  node_get_transaction_count (trace w) (la_address account) = Ok nonce →
  to_wei gas_price_gwei "gwei" = Ok gas_price →
  let transaction : pydict := list_to_map
    [("nonce", PInt nonce); ("to", PStr checksum_to); ("value", PInt amt);
     ("gas", PInt gas_limit); ("gasPrice", PInt gas_price);
     ("chainId", PInt chain_id)] in
  let fetched := [EvGetTransactionCount (la_address account) (Ok nonce)] in
  let answer := node_estimate_gas (trace w ++ fetched) transaction in
  let signed := <["gas" := PInt (Gas.value answer)]> transaction in
  ∃ r evs,
    send_native_token_func key to amt w
    = (r, extend w (fetched ++ EvEstimateGas transaction answer
                      :: Gas.fallback_log answer
                      ++ EvSignTransaction signed (sign_transaction signed key)
                      :: evs)).
Proof.
  intros Hkey Hto Hnonce Hwei transaction fetched answer signed.
  unfold send_native_token_func, get_account_from_key.
  unfold mbind at 1, M_bind at 1, lift at 1. rewrite Hkey.
  unfold mbind at 1, M_bind at 1, lift at 1. rewrite Hto.
  unfold mbind at 1, M_bind at 1, ask at 1. rewrite Hnonce.
  unfold mbind at 1, M_bind at 1, lift at 1. rewrite Hwei.
  unfold mbind at 1, M_bind at 1. fold transaction. rewrite emit_extend.
  fold fetched.
  destruct (wp_estimate_gas transaction (extend w fetched))
    as (? & ? & -> & -> & ->).
  rewrite trace_extend. fold answer. rewrite extend_extend. fold signed.
  unfold mbind at 1, M_bind at 1, record at 1. rewrite emit_extend, extend_extend.
  set (rest := mbind _).
  set (w2 := extend w _).
  destruct (sign_transaction signed key) as [raw|e] eqn:Hsign.
  - assert (Hrest : wp (rest (ask (λ h, node_send_raw_transaction h raw)
                                 (EvSendRawTransaction raw))) (λ _ _ _, True)).
    { subst rest. wp_exec; done. }
    destruct (Hrest w2) as (r & evs & -> & _). exists r, evs. f_equal.
    subst w2. rewrite extend_extend. f_equal.
    by rewrite <- !app_assoc.
  - exists (Raise e), []. by subst w2.
Qed.

(** The same for a token transfer, once the node has built the call. *)
Lemma transfer_erc20_func_proceeds key to amt token account contract
    checksum_to nonce gas_price transaction w :
  from_key key = Ok account →
  to_checksum_address token = Ok contract →
  to_checksum_address to = Ok checksum_to →
  node_get_transaction_count (trace w) (la_address account) = Ok nonce →
  to_wei gas_price_gwei "gwei" = Ok gas_price →
  let params : pydict := list_to_map
    [("from", PStr (la_address account)); ("nonce", PInt nonce);
     ("gas", PInt gas_price); ("chainId", PInt chain_id)] in
  let fetched := [EvGetTransactionCount (la_address account) (Ok nonce)] in
  let built := [EvBuildTransfer contract checksum_to amt params (Ok transaction)] in
  node_build_transfer (trace w ++ fetched) contract checksum_to amt params
    = Ok transaction →
  let answer := node_estimate_gas (trace w ++ fetched ++ built) transaction in
  let signed := <["gas" := PInt (Gas.value answer)]> transaction in
  ∃ r evs,
    transfer_erc20_func key to amt token w
    = (r, extend w (fetched ++ built ++ EvEstimateGas transaction answer
                      :: Gas.fallback_log answer
                      ++ EvSignTransaction signed (sign_transaction signed key)
                      :: evs)).
Proof.
  intros Hkey Htoken Hto Hnonce Hwei params fetched built Hbuild answer signed.
  unfold transfer_erc20_func, get_account_from_key, get_contract.
  unfold mbind at 1, M_bind at 1, lift at 1. rewrite Hkey.
  unfold mbind at 1, M_bind at 1, lift at 1. rewrite Htoken.
  unfold mbind at 1, M_bind at 1, lift at 1. rewrite Hto.
  unfold mbind at 1, M_bind at 1, ask at 1. rewrite Hnonce.
  unfold mbind at 1, M_bind at 1, lift at 1. rewrite Hwei.
  unfold mbind at 1, M_bind at 1, ask at 1. fold params.
  rewrite emit_extend. fold fetched. rewrite trace_extend, Hbuild.
  rewrite emit_extend, extend_extend. fold built.
  unfold mbind at 1, M_bind at 1.
  destruct (wp_estimate_gas transaction (extend w (fetched ++ built)))
    as (? & ? & -> & -> & ->).
  rewrite trace_extend. fold answer. rewrite extend_extend. fold signed.
  unfold mbind at 1, M_bind at 1, record at 1. rewrite emit_extend, extend_extend.
  set (rest := mbind _).
  set (w2 := extend w _).
  destruct (sign_transaction signed key) as [raw|e] eqn:Hsign.
  - assert (Hrest : wp (rest (ask (λ h, node_send_raw_transaction h raw)
                                 (EvSendRawTransaction raw))) (λ _ _ _, True)).
    { subst rest. wp_exec; done. }
    destruct (Hrest w2) as (r & evs & -> & _). exists r, evs. f_equal.
    subst w2. rewrite extend_extend. f_equal.
    by rewrite <- !app_assoc.
  - exists (Raise e), []. subst w2. by rewrite <- !app_assoc.
Qed.

(** C5.  [estimate_gas] never raises, so gas estimation never aborts a
    submission.  When the estimation succeeds, with an estimate in the range
    of the quantities of gas a node reports ([0 <= gas < 2^50]), the estimate
    comes back with the 20% margin, truncated to an integer:
    [floor (6 * gas / 5)], which is what [int(gas * 1.2)] is on that range.
    When the estimation fails, [settings.gas_limit] comes back instead.  In
    every case a native transfer and a token transfer go on to sign the
    transaction with the value that came back. *)
Theorem estimate_gas_never_raises transaction w :
  let answer := node_estimate_gas (trace w) transaction in
  (∃ evs, estimate_gas transaction w = (Ok (Gas.value answer), extend w evs)) ∧
  (∀ e, answer = Raise e → Gas.value answer = gas_limit) ∧
  (∀ gas, answer = Ok gas → 0 ≤ gas < 2 ^ 50 →
     Gas.value answer = gas * 6 / 5) ∧
  (∀ gas, answer = Ok gas →
     Gas.value answer = match Gas.with_margin gas with
                        | Ok with_margin => with_margin
                        | Raise _ => gas_limit
                        end) ∧
  (∀ key to amt account checksum_to nonce gas_price,
     from_key key = Ok account →
     to_checksum_address to = Ok checksum_to →
     node_get_transaction_count (trace w) (la_address account) = Ok nonce →
     to_wei gas_price_gwei "gwei" = Ok gas_price →
     let transaction : pydict := list_to_map
       [("nonce", PInt nonce); ("to", PStr checksum_to); ("value", PInt amt);
        ("gas", PInt gas_limit); ("gasPrice", PInt gas_price);
        ("chainId", PInt chain_id)] in
     let fetched := [EvGetTransactionCount (la_address account) (Ok nonce)] in
     let answer := node_estimate_gas (trace w ++ fetched) transaction in
     let signed := <["gas" := PInt (Gas.value answer)]> transaction in
     ∃ r evs,
       send_native_token_func key to amt w
       = (r, extend w (fetched ++ EvEstimateGas transaction answer
                         :: Gas.fallback_log answer
                         ++ EvSignTransaction signed (sign_transaction signed key)
                         :: evs))) ∧
  (∀ key to amt token account contract checksum_to nonce gas_price built_tx,
     from_key key = Ok account →
     to_checksum_address token = Ok contract →
     to_checksum_address to = Ok checksum_to →
     node_get_transaction_count (trace w) (la_address account) = Ok nonce →
     to_wei gas_price_gwei "gwei" = Ok gas_price →
     let params : pydict := list_to_map
       [("from", PStr (la_address account)); ("nonce", PInt nonce);
        ("gas", PInt gas_price); ("chainId", PInt chain_id)] in
     let fetched := [EvGetTransactionCount (la_address account) (Ok nonce)] in
     let built :=
       [EvBuildTransfer contract checksum_to amt params (Ok built_tx)] in
     node_build_transfer (trace w ++ fetched) contract checksum_to amt params
       = Ok built_tx →
     let answer := node_estimate_gas (trace w ++ fetched ++ built) built_tx in
     let signed := <["gas" := PInt (Gas.value answer)]> built_tx in
     ∃ r evs,
       transfer_erc20_func key to amt token w
       = (r, extend w (fetched ++ built ++ EvEstimateGas built_tx answer
                         :: Gas.fallback_log answer
                         ++ EvSignTransaction signed (sign_transaction signed key)
                         :: evs))).
Proof.
  intros answer. repeat split.
  - destruct (wp_estimate_gas transaction w) as (r & evs & -> & -> & _).
    by eexists.
  - intros e He. unfold Gas.value. by rewrite He.
  - intros gas He Hgas. unfold Gas.value. rewrite He. cbn [Gas.attempt].
    by rewrite with_margin_exact.
  - intros gas He. unfold Gas.value. by rewrite He.
  - intros. by apply send_native_token_func_proceeds.
  - intros. by eapply transfer_erc20_func_proceeds.
Qed.

End gas_estimation.

(** Far outside that range, at 2^1024, the conversion of the estimate to a
    double raises inside the [try], and the default gas limit comes back as
    for any other failure. *)
Lemma huge_estimate_falls_back_to_default :
  let node := Demo.w3 true (Ok (2 ^ 1024)) Demo.accepts 1 0 in
  let run := @Web3Client.estimate_gas node Demo.settings ∅ Demo.empty in
  @node_estimate_gas node [] ∅ = Ok (2 ^ 1024) ∧
  Gas.with_margin (2 ^ 1024)
    = Raise (Exn OverflowError "int too large to convert to float") ∧
  run.1 = Ok 100000.
Proof. vm_compute. done. Qed.

(** ** Balances *)

Section balances.
Import Trace Web3Client.
Context `{!AsyncWeb3, !Settings}.



Lemma wp_get_balance_func address token :
  wp (get_balance_func address token) (λ h r evs,
    Forall (λ ev, is_broadcast ev = false ∧ is_native_balance_call ev = false)
      evs ∧
    ∀ balance, r = Ok balance →
      ∃ contract owner,
        to_checksum_address token = Ok contract ∧
        to_checksum_address address = Ok owner ∧
        evs = [EvCallBalanceOf contract owner (Ok balance)]).
Proof.
  unfold get_balance_func, get_contract. wp_exec.
  all: split; [repeat first [apply Forall_nil_2 | apply Forall_cons_2]; done|].
  all: intros balance [= <-] || intros balance [=].
  by eexists _, _.
Qed.

Lemma wp_get_balance address token :
  wp (get_balance address token) (λ h r evs,
    Forall (λ ev, is_broadcast ev = false ∧ is_native_balance_call ev = false)
      evs ∧
    ∀ balance, r = Ok balance →
      ∃ contract owner,
        to_checksum_address token = Ok contract ∧
        to_checksum_address address = Ok owner ∧
        last evs = Some (EvCallBalanceOf contract owner (Ok balance))).
Proof.
  eapply wp_mono;
    [apply wp_async_retry_3, wp_get_balance_func|]. intros h r evs Hrun.
  split.
  - refine (retry_run_Forall _ _ _ _ _ _ _ _ _ _ Hrun);
      [done|done|by intros ? ? ? [? _]].
  - intros balance ->. apply retry_run_last in Hrun
      as (h' & before & evs' & -> & _ & Hlast).
    destruct (Hlast balance eq_refl) as (contract & owner & ? & ? & ->).
    exists contract, owner. by rewrite last_snoc.
Qed.


End balances.


(** ** The parameters of a token transfer *)

Section token_transfer.
Import Trace Web3Client.
Context `{!AsyncWeb3, !Settings}.

(** C8.  In every run of a token transfer, every dictionary handed to
    [build_transaction] has its ["gas"] entry set to the gas price
    ([to_wei(settings.gas_price_gwei, "gwei")]) and has no ["gasPrice"]
    entry; and such a call is made whenever the key and the addresses
    decode, the node reports a nonce and the gas price converts. *)
Theorem build_transaction_gas_is_the_gas_price key to amt token w :
  let run := transfer_erc20 key to amt token w in
  ∃ evs, run.2 = extend w evs ∧
    Forall gas_is_gas_price evs ∧
    ∀ account,
      from_key key = Ok account →
      is_Ok (to_checksum_address token) = true →
      is_Ok (to_checksum_address to) = true →
      is_Ok (node_get_transaction_count (trace w) (la_address account)) = true →
      is_Ok (to_wei gas_price_gwei "gwei") = true →
      Exists (λ ev, is_build_transfer ev = true) evs.
Proof.
  intros run.
  destruct (wp_transfer_erc20 key to amt token w) as (r & evs & Hrun & Hr).
  subst run. rewrite Hrun. exists evs. split; [done|]. split.
  - refine (retry_run_Forall _ _ _ _ _ _ _ _ _ _ Hr);
      [done|done|by intros ? ? ? (_ & _ & _ & ? & _)].
  - intros account Hkey Htoken Hto Hnonce Hwei.
    apply retry_run_first in Hr
      as (r1 & evs1 & rest & -> & _ & _ & _ & _ & Hbuild).
    apply Exists_app. left. by eapply Hbuild.
Qed.

End token_transfer.

(** C8 on a run: the one call to [build_transaction] carries the gas price
    of the default settings, 0.1 gwei, as its ["gas"]. *)
Lemma build_transaction_gas_is_the_gas_price_witness :
  let run := @Web3Client.transfer_erc20 (Demo.w3 true (Ok 52000) Demo.accepts 1 0)
               Demo.settings "0xa11ce" "0xB0" 5 "0x70" Demo.empty in
  ∃ evs, run.2 = Trace.extend Demo.empty evs ∧
    Forall (@Trace.gas_is_gas_price (Demo.w3 true (Ok 52000) Demo.accepts 1 0)
              Demo.settings) evs ∧
    Exists (λ ev, Trace.is_build_transfer ev = true) evs.
Proof.
  destruct (@build_transaction_gas_is_the_gas_price
              (Demo.w3 true (Ok 52000) Demo.accepts 1 0) Demo.settings
              "0xa11ce" "0xB0" 5 "0x70" Demo.empty) as (evs & Hrun & Hall & Hex).
  exists evs. split; [exact Hrun|]. split; [exact Hall|].
  apply (Hex {| la_address := "0xF0"; la_key_hex := "0xa11ce" |});
    reflexivity.
Defined.

(** ** The account repository *)

Section repository.
Import Trace.
Context `{!AsyncWeb3, !Settings}.

Lemma get_user_by_name_found name user w :
  users w !! name = Some user →
  AccountRepository.get_user_by_name name w = (Ok user, w).
Proof.
  intros Hrow. unfold AccountRepository.get_user_by_name,
    Session.select_by_name, mbind, M_bind. by rewrite Hrow.
Qed.

(** C6.  When both accounts exist and the balance lookup reports a balance
    strictly below the amount, [transfer_from_to] raises
    [InsufficientBalanceError] in the world the lookup left: nothing was
    broadcast. *)
Theorem insufficient_balance_raises_before_broadcast
    from_name to_name amount token from_user to_user balance w w1 :
  users w !! from_name = Some from_user →
  users w !! to_name = Some to_user →
  Web3Client.get_balance (User_address from_user) token w = (Ok balance, w1) →
  balance < amount →
  AccountRepository.transfer_from_to from_name to_name amount token w
  = (Raise (Exn InsufficientBalanceError
              ("Insufficient balance. Available: " +:+ pretty balance +:+
               ", Required: " +:+ pretty amount)), w1) ∧
  broadcasts (trace w1) = broadcasts (trace w).
Proof.
  intros Hfrom Hto Hbalance Hlt. split.
  - unfold AccountRepository.transfer_from_to.
    unfold mbind at 1, M_bind at 1. rewrite (get_user_by_name_found _ _ _ Hfrom).
    unfold mbind at 1, M_bind at 1. rewrite (get_user_by_name_found _ _ _ Hto).
    unfold mbind at 1, M_bind at 1, try_except at 1.
    unfold mbind at 1, M_bind at 1. rewrite Hbalance.
    rewrite bool_decide_eq_true_2 by done. unfold raise at 1.
    by rewrite bool_decide_eq_true_2.
  - destruct (wp_get_balance (User_address from_user) token w)
      as (r & evs & Hrun & Hev & _).
    rewrite Hbalance in Hrun. injection Hrun as _ ->.
    rewrite trace_extend, broadcasts_app, (broadcasts_none evs); [lia|].
    eapply Forall_impl; [exact Hev|]. by intros ? [? _].
Qed.

(** The world in which a new account has just been committed. *)
Lemma create_account_commits name account w w1 :
  session_new w = [] →
  users w !! name = None →
  Web3Client.create_account w = (Ok account, w1) →
  Session.address_taken (ba_address account) (users w) = false →
  let user := {| User_name := name; User_address := ba_address account;
                 User_private_key := ba_private_key account |} in
  AccountRepository.create_account name w
  = (mbind (λ faucet_tx_hash,
              mret {| ur_name := name; ur_address := ba_address account;
                      ur_private_key := ba_private_key account;
                      ur_faucet_tx_hash := Some faucet_tx_hash |})
           (AccountRepository.get_initial_fund name (Some user)))
      {| users := <[name := user]> (users w); session_new := [];
         trace := trace w1 |}.
Proof.
  intros Hsession Hfree Hcreate Hunique user.
  assert (users w1 = users w ∧ session_new w1 = session_new w) as [Hu Hs].
  { revert Hcreate. unfold Web3Client.create_account, mbind, M_bind, lift.
    cbn. repeat case_match; unfold mret, M_ret; intros; simplify_eq; done. }
  unfold AccountRepository.create_account.
  unfold mbind at 1, M_bind at 1, Session.select_by_name at 1.
  rewrite Hfree, Hsession. cbn [list_find fmap option_fmap option_map].
  unfold mbind at 1, M_bind at 1. rewrite Hcreate. fold user.
  unfold mbind at 1, M_bind at 1, Session.add at 1.
  unfold mbind at 1, M_bind at 1, Session.commit at 1.
  cbn [users session_new trace]. rewrite Hs, Hsession, Hu.
  cbn [app Session.flush User_name User_address user].
  rewrite Hfree, Hunique.
  unfold mbind at 1, M_bind at 1, Session.refresh at 1.
  cbn [users User_name user]. by rewrite lookup_insert_eq.
Qed.

(** C10.  [create_account] commits the new row before it asks the faucet:
    when the faucet transfer then raises, [create_account] raises
    [BlockchainError] and the row stays, so that creating the same name
    again raises [AccountAlreadyExistsError]. *)
Theorem create_account_keeps_the_row_when_the_faucet_fails
    name account amount_wei e w w1 w3 :
  session_new w = [] →
  users w !! name = None →
  Web3Client.create_account w = (Ok account, w1) →
  Session.address_taken (ba_address account) (users w) = false →
  to_wei initial_faucet_gwei "gwei" = Ok amount_wei →
  let user := {| User_name := name; User_address := ba_address account;
                 User_private_key := ba_private_key account |} in
  Web3Client.send_native_token faucet_private_key (ba_address account)
    amount_wei
    {| users := <[name := user]> (users w); session_new := [];
       trace := trace w1 |}
  = (Raise e, w3) →
  ∃ w4,
    AccountRepository.create_account name w
    = (Raise (Exn BlockchainError ("Faucet funding failed: " +:+ exn_str e)), w4) ∧
    users w4 !! name = Some user ∧
    (AccountRepository.create_account name w4).1
    = Raise (Exn AccountAlreadyExistsError
               ("Account with name '" +:+ name +:+ "' already exists")).
Proof.
  intros Hsession Hfree Hcreate Hunique Hwei user Hfaucet.
  rewrite (create_account_commits _ _ _ _ Hsession Hfree Hcreate Hunique).
  fold user. set (w2 := {| users := _ |}) in *.
  destruct (wp_send_native_token faucet_private_key (ba_address account)
              amount_wei w2) as (r & evs & Hrun & _).
  rewrite Hfaucet in Hrun. injection Hrun as <- ->.
  unfold AccountRepository.get_initial_fund.
  unfold mbind, M_bind, mret, M_ret, lift, try_except, logger, raise.
  rewrite Hwei. cbn [User_address user]. rewrite Hfaucet.
  eexists. split; [reflexivity|].
  assert (Hrow : ∀ ev, users (emit ev (extend w2 evs)) !! name = Some user).
  { intros ev. cbn [users emit extend w2]. by rewrite lookup_insert_eq. }
  split; [apply Hrow|].
  unfold AccountRepository.create_account, Session.select_by_name.
  unfold mbind, M_bind, logger, raise. by rewrite Hrow.
Qed.

End repository.

(** ** The theorems on concrete runs *)

(** C3, as stated, fails: the node rejects every broadcast with "nonce too
    low", and the submission broadcasts three times before it gives up. *)
Lemma rejected_broadcast_is_sent_three_times :
  let run := @Web3Client.send_native_token
               (Demo.w3 true (Ok 21000) Demo.rejects 1 0) Demo.settings
               "0xfaucet" "0xB0" 5 Demo.empty in
  run.1 = Raise (Exn ValueError "nonce too low") ∧
  Trace.broadcasts (trace run.2) = 3%nat ∧
  Trace.sleeps (trace run.2) = [PyFloat.lit_2_0; PyFloat.lit_2_0].
Proof. vm_compute. done. Qed.

Lemma rejected_broadcast_is_retried_witness :
  let node := Demo.w3 true (Ok 21000) Demo.rejects 1 0 in
  let rejection := Exn ValueError "nonce too low" in
  (∃ evs,
     @Web3Client.send_native_token node Demo.settings "0xfaucet" "0xB0" 5
       Demo.empty = (Raise rejection, Trace.extend Demo.empty evs) ∧
     Trace.broadcasts evs = 3%nat ∧
     Trace.sleeps evs = [PyFloat.lit_2_0; PyFloat.lit_2_0] ∧
     Trace.attempts_made "send_native_token"
       (Raise rejection : result string) evs = 3%nat) ∧
  (∃ evs,
     @Web3Client.transfer_erc20 node Demo.settings "0xfaucet" "0xB0" 5 "0x70"
       Demo.empty = (Raise rejection, Trace.extend Demo.empty evs) ∧
     Trace.broadcasts evs = 3%nat ∧
     Trace.sleeps evs = [PyFloat.lit_2_0; PyFloat.lit_2_0] ∧
     Trace.attempts_made "transfer_erc20"
       (Raise rejection : result string) evs = 3%nat).
Proof.
  intros node rejection.
  apply (@rejected_broadcast_is_retried node Demo.settings
           "0xfaucet" "0xB0" "0x70" 5).
  - repeat split; intros; try reflexivity.
    cbn. by repeat case_match.
  - intros; reflexivity.
Defined.

(** C4, as stated, fails: every receipt reports status 0, no
    [TransactionRevertedError] exists, the attempt raises a plain
    [Exception], and three transactions are broadcast. *)
Lemma reverted_transaction_is_sent_three_times :
  let run := @Web3Client.send_native_token
               (Demo.w3 true (Ok 21000) Demo.accepts 0 0) Demo.settings
               "0xfaucet" "0xB0" 5 Demo.empty in
  run.1 = Raise (Exn Exception "Transaction failed: 0xab") ∧
  Trace.broadcasts (trace run.2) = 3%nat ∧
  Trace.nonce_fetches (trace run.2) = 3%nat.
Proof. vm_compute. done. Qed.

Lemma reverted_transaction_is_retried_witness :
  let node := Demo.w3 true (Ok 21000) Demo.accepts 0 0 in
  (∃ e evs tx1 tx2 tx3,
     @Web3Client.send_native_token node Demo.settings "0xfaucet" "0xB0" 5
       Demo.empty = (Raise e, Trace.extend Demo.empty evs) ∧
     @Trace.transaction_failed node e ∧ Trace.broadcasts evs = 3%nat ∧
     Trace.sleeps evs = [PyFloat.lit_2_0; PyFloat.lit_2_0] ∧
     Trace.attempts_made "send_native_token" (Raise e : result string) evs
       = 3%nat ∧
     Trace.nonce_fetches evs = 3%nat ∧
     Trace.nonce_fresh "send_native_token" Trace.native_carrier evs = true ∧
     Trace.broadcast_hashes evs = [tx1; tx2; tx3] ∧
     e = Exn Exception ("Transaction failed: " +:+ @to_hex node tx3)) ∧
  (∃ e evs tx1 tx2 tx3,
     @Web3Client.transfer_erc20 node Demo.settings "0xfaucet" "0xB0" 5 "0x70"
       Demo.empty = (Raise e, Trace.extend Demo.empty evs) ∧
     @Trace.transaction_failed node e ∧ Trace.broadcasts evs = 3%nat ∧
     Trace.sleeps evs = [PyFloat.lit_2_0; PyFloat.lit_2_0] ∧
     Trace.attempts_made "transfer_erc20" (Raise e : result string) evs
       = 3%nat ∧
     Trace.nonce_fetches evs = 3%nat ∧
     Trace.nonce_fresh "transfer_erc20" Trace.erc20_carrier evs = true ∧
     Trace.broadcast_hashes evs = [tx1; tx2; tx3] ∧
     e = Exn Exception ("Transaction failed: " +:+ @to_hex node tx3)).
Proof.
  intros node.
  apply (@reverted_transaction_is_retried node Demo.settings
           "0xfaucet" "0xB0" "0x70" 5).
  - repeat split; intros; try reflexivity.
    cbn. by repeat case_match.
  - intros; reflexivity.
  - intros h tx_hash. exists {["status" := PInt 0]}, (PInt 0).
    split; [reflexivity|]. split; [reflexivity|discriminate].
Defined.

(** C6 on the scenario of the specification: balance 100, amount 150. *)
Lemma insufficient_balance_raises_before_broadcast_witness :
  let node := Demo.w3 true (Ok 52000) Demo.accepts 1 100 in
  let w1 := Trace.extend Demo.bank [EvCallBalanceOf "0x70" "0xA1" (Ok 100)] in
  @AccountRepository.transfer_from_to node Demo.settings
    "alice" "bob" 150 "0x70" Demo.bank
  = (Raise (Exn InsufficientBalanceError
              "Insufficient balance. Available: 100, Required: 150"), w1) ∧
  Trace.broadcasts (trace w1) = Trace.broadcasts (trace Demo.bank).
Proof.
  intros node w1.
  apply (@insufficient_balance_raises_before_broadcast node Demo.settings
           "alice" "bob" 150 "0x70" Demo.alice Demo.bob 100 Demo.bank w1).
  - reflexivity.
  - reflexivity.
  - reflexivity.
  - lia.
Defined.

(** C10 on a run: the node is unreachable when the faucet broadcasts. *)
Lemma create_account_keeps_the_row_when_the_faucet_fails_witness :
  let node := Demo.w3 true (Ok 21000) Demo.unreachable 1 0 in
  let user := {| User_name := "carol"; User_address := Demo.new_address;
                 User_private_key := "0x11" |} in
  ∃ w4,
    @AccountRepository.create_account node Demo.settings "carol" Demo.empty
    = (Raise (Exn BlockchainError "Faucet funding failed: connection refused"),
       w4) ∧
    users w4 !! "carol" = Some user ∧
    (@AccountRepository.create_account node Demo.settings "carol" w4).1
    = Raise (Exn AccountAlreadyExistsError
               "Account with name 'carol' already exists").
Proof.
  intros node user.
  eapply (@create_account_keeps_the_row_when_the_faucet_fails node
            Demo.settings "carol"
            {| ba_address := Demo.new_address; ba_private_key := "0x11" |}
            10000000000 (Exn ConnectionError "connection refused") Demo.empty).
  - reflexivity.
  - reflexivity.
  - reflexivity.
  - reflexivity.
  - reflexivity.
  - vm_compute. reflexivity.
Defined.


(** ** UTF-8 *)

Section utf8.
Import Utf8.
Local Open Scope N_scope.

Lemma to_N_byte_of_N n : n < 256 → Byte.to_N (byte_of_N n) = n.
Proof.
  intros Hn. unfold byte_of_N. destruct (Byte.of_N n) as [b|] eqn:Hb.
  - by apply Byte.to_of_N.
  - apply Byte.of_N_None_iff in Hb. lia.
Qed.

Lemma byte_of_N_to_N b : byte_of_N (Byte.to_N b) = b.
Proof. unfold byte_of_N. by rewrite Byte.of_to_N. Qed.

Lemma continuation_byte_of_N x :
  x < 64 → continuation (byte_of_N (0x80 + x)) = Some x.
Proof.
  intros Hx. unfold continuation. rewrite to_N_byte_of_N by lia.
  rewrite (proj2 (N.leb_le _ _)), (proj2 (N.ltb_lt _ _)) by lia.
  cbn [andb]. f_equal. lia.
Qed.

Lemma decode_encode_char c bs rest :
  encode_char c = Some bs →
  decode_opt (bs ++ rest) = cons c <$> decode_opt rest.
Proof.
  unfold encode_char, is_surrogate.
  destruct (N.ltb_spec c 0x80) as [H1|H1].
  { intros [= <-]. cbn [app decode_opt]. rewrite to_N_byte_of_N by lia.
    by rewrite (proj2 (N.ltb_lt _ _)) by lia. }
  destruct (N.ltb_spec c 0x800) as [H2|H2].
  { intros [= <-]. cbn [app decode_opt].
    pose proof (N.Div0.div_mod c 64). pose proof (N.mod_upper_bound c 64).
    assert (c / 64 < 32) by (apply N.Div0.div_lt_upper_bound; lia).
    assert (2 ≤ c / 64) by (apply N.div_le_lower_bound; lia).
    rewrite to_N_byte_of_N by lia.
    rewrite (proj2 (N.ltb_ge _ 0x80)), (proj2 (N.ltb_ge _ 0xC2)),
      (proj2 (N.ltb_lt _ 0xE0)) by lia.
    rewrite continuation_byte_of_N by lia.
    do 2 f_equal. lia. }
  destruct (N.ltb_spec c 0x10000) as [H3|H3].
  { destruct ((0xD800 <=? c) && (c <=? 0xDFFF)) eqn:Hs; [done|].
    intros [= <-]. cbn [app decode_opt].
    pose proof (N.Div0.div_mod c 64). pose proof (N.mod_upper_bound c 64).
    pose proof (N.Div0.div_mod (c / 64) 64).
    pose proof (N.mod_upper_bound (c / 64) 64).
    assert (Hdd : c / 4096 = c / 64 / 64)
      by (by rewrite N.Div0.div_div).
    assert (c / 4096 < 16) by (apply N.Div0.div_lt_upper_bound; lia).
    rewrite to_N_byte_of_N by lia.
    rewrite (proj2 (N.ltb_ge _ 0x80)), (proj2 (N.ltb_ge _ 0xC2)),
      (proj2 (N.ltb_ge _ 0xE0)), (proj2 (N.ltb_lt _ 0xF0)) by lia.
    rewrite !continuation_byte_of_N by lia.
    replace (0xE0 + c / 4096 - 0xE0) with (c / 4096) by lia.
    replace (c / 4096 * 4096 + c / 64 mod 64 * 64 + c mod 64) with c by lia.
    unfold is_surrogate. rewrite Hs, (proj2 (N.ltb_ge _ _)) by lia. done. }
  destruct (N.ltb_spec c 0x110000) as [H4|H4]; [|done].
  intros [= <-]. cbn [app decode_opt].
  pose proof (N.Div0.div_mod c 64). pose proof (N.mod_upper_bound c 64).
  pose proof (N.Div0.div_mod (c / 64) 64).
  pose proof (N.mod_upper_bound (c / 64) 64).
  pose proof (N.Div0.div_mod (c / 4096) 64).
  pose proof (N.mod_upper_bound (c / 4096) 64).
  assert (c / 4096 = c / 64 / 64) by (by rewrite N.Div0.div_div).
  assert (c / 262144 = c / 4096 / 64) by (by rewrite N.Div0.div_div).
  assert (c / 262144 < 5) by (apply N.Div0.div_lt_upper_bound; lia).
  rewrite to_N_byte_of_N by lia.
  rewrite (proj2 (N.ltb_ge _ 0x80)), (proj2 (N.ltb_ge _ 0xC2)),
    (proj2 (N.ltb_ge _ 0xE0)), (proj2 (N.ltb_ge _ 0xF0)),
    (proj2 (N.ltb_lt _ 0xF5)) by lia.
  rewrite !continuation_byte_of_N by lia.
  replace (0xF0 + c / 262144 - 0xF0) with (c / 262144) by lia.
  replace (c / 262144 * 262144 + c / 4096 mod 64 * 4096 + c / 64 mod 64 * 64
           + c mod 64) with c by lia.
  rewrite (proj2 (N.ltb_ge _ _)), (proj2 (N.ltb_ge _ _)) by lia. done.
Qed.

End utf8.

Section utf8_strings.
Import Utf8.
Local Open Scope N_scope.

Lemma decode_encode s bs :
  encode s = Ok bs → decode_opt bs = Some s.
Proof.
  revert bs. induction s as [|c s IH]; intros bs; cbn [encode].
  - by intros [= <-].
  - destruct (encode_char c) as [cs|] eqn:Hc; [|done].
    destruct (encode s) as [rest|] eqn:Hs; [|done].
    intros [= <-]. rewrite (decode_encode_char _ _ _ Hc), (IH rest); done.
Qed.

Lemma encode_encodable s : encodable s → ∃ bs, encode s = Ok bs.
Proof.
  induction 1 as [|c s [Hc Hs] _ [rest IH]]; [by exists []|].
  cbn [encode]. rewrite IH.
  assert (∃ cs, encode_char c = Some cs) as [cs ->]; [|by eexists].
  unfold encode_char. rewrite Hs.
  destruct (N.ltb_spec c 0x80); [by eexists|].
  destruct (N.ltb_spec c 0x800); [by eexists|].
  destruct (N.ltb_spec c 0x10000); [by eexists|].
  destruct (N.ltb_spec c 0x110000); [by eexists|lia].
Qed.

(** ASCII bytes are their own code points. *)
Lemma decode_ascii bs :
  Forall (λ b, Byte.to_N b < 128) bs → decode_opt bs = Some (Byte.to_N <$> bs).
Proof.
  induction 1 as [|b bs Hb _ IH]; [done|].
  cbn [decode_opt]. rewrite (proj2 (N.ltb_lt _ _)) by done. by rewrite IH.
Qed.

Lemma encode_ascii bs :
  Forall (λ b, Byte.to_N b < 128) bs → encode (Byte.to_N <$> bs) = Ok bs.
Proof.
  induction 1 as [|b bs Hb _ IH]; [done|].
  cbn [fmap list_fmap encode]. unfold encode_char.
  rewrite (proj2 (N.ltb_lt _ _)) by lia.
  change (list_fmap _ _ Byte.to_N bs) with (Byte.to_N <$> bs). rewrite IH.
  by rewrite byte_of_N_to_N.
Qed.

End utf8_strings.

(** The stand-in keeps the contract. *)
Section toy_fernet.
Import Utf8 ToyFernet.
Local Open Scope N_scope.

Lemma unnibble_nibble x : x < 16 → unnibble (nibble x) = Some x.
Proof.
  intros Hx. unfold unnibble, nibble. rewrite to_N_byte_of_N by lia.
  rewrite (proj2 (N.leb_le _ _)), (proj2 (N.ltb_lt _ _)) by lia.
  cbn [andb]. f_equal. lia.
Qed.

Lemma dearmor_armor data : dearmor (armor data) = Some data.
Proof.
  induction data as [|b data IH]; [done|].
  cbn [armor flat_map app dearmor]. fold (armor data).
  pose proof (Byte.to_N_bounded b).
  pose proof (N.Div0.div_mod (Byte.to_N b) 16).
  pose proof (N.mod_upper_bound (Byte.to_N b) 16).
  assert (Byte.to_N b / 16 < 16) by (apply N.Div0.div_lt_upper_bound; lia).
  rewrite !unnibble_nibble, IH by lia. cbn [fmap option_fmap option_map].
  replace (Byte.to_N b / 16 * 16 + Byte.to_N b mod 16) with (Byte.to_N b) by lia.
  by rewrite byte_of_N_to_N.
Qed.

Lemma armor_ascii data : Forall (λ b, Byte.to_N b < 128) (armor data).
Proof.
  induction data as [|b data IH]; [by constructor|].
  cbn [armor flat_map app]. fold (armor data).
  pose proof (Byte.to_N_bounded b).
  pose proof (N.mod_upper_bound (Byte.to_N b) 16).
  assert (Byte.to_N b / 16 < 16) by (apply N.Div0.div_lt_upper_bound; lia).
  repeat constructor; [unfold nibble; rewrite to_N_byte_of_N; lia..|done].
Qed.

Lemma toy_fernet_contract : @fernet_contract ToyFernet.fernet.
Proof.
  split; intros now iv data; [apply dearmor_armor|apply armor_ascii].
Qed.

End toy_fernet.

Section crypto.
Import Utf8 Crypto.
Context `{!Fernet}.
Hypothesis Hcontract : fernet_contract.

Lemma encrypt_private_key_token now iv plain_key data :
  encode plain_key = Ok data →
  encrypt_private_key now iv plain_key
  = Ok (Byte.to_N <$> fernet_encrypt now iv data).
Proof.
  intros Hdata. unfold encrypt_private_key, decode. rewrite Hdata.
  by rewrite decode_ascii by apply Hcontract.
Qed.

Lemma decrypt_private_key_token now iv plain_key data w :
  encode plain_key = Ok data →
  decrypt_private_key (Byte.to_N <$> fernet_encrypt now iv data) w
  = (Ok plain_key, emit (EvPrint fernet_key) w).
Proof.
  intros Hdata. unfold decrypt_private_key, mbind, M_bind, lift.
  rewrite encode_ascii by apply Hcontract.
  rewrite (fernet_decrypt_encrypt Hcontract). unfold decode.
  by rewrite (decode_encode _ _ Hdata).
Qed.

(** C9, as the code has it.  Under the contract of the Fernet library, for
    every string that UTF-8 can encode (no surrogate code point), decrypting
    what [encrypt_private_key] returned gives the string back; and
    [decrypt_private_key] raises [PrivateKeyEncryptionError] only on a token
    that [encrypt_private_key] returns for no string, at no time and with no
    initialisation vector. *)
Theorem decrypt_encrypt_private_key now iv plain_key w :
  encodable plain_key →
  (∃ token,
     encrypt_private_key now iv plain_key = Ok token ∧
     decrypt_private_key token w
     = (Ok plain_key, emit (EvPrint fernet_key) w)) ∧
  (∀ token e w',
     (decrypt_private_key token w').1 = Raise e →
     exn_cls e = PrivateKeyEncryptionError →
     ∀ now' iv' plain_key', encrypt_private_key now' iv' plain_key' ≠ Ok token).
Proof.
  intros Hk. split.
  - destruct (encode_encodable _ Hk) as [data Hdata].
    exists (Byte.to_N <$> fernet_encrypt now iv data).
    split; [by apply encrypt_private_key_token|].
    by apply decrypt_private_key_token.
  - intros token e w' Hraise Hcls now' iv' plain_key' Henc.
    destruct (encode plain_key') as [data|e'] eqn:Hdata;
      [|by unfold encrypt_private_key in Henc; rewrite Hdata in Henc].
    rewrite (encrypt_private_key_token _ _ _ _ Hdata) in Henc.
    injection Henc as <-.
    by rewrite (decrypt_private_key_token _ _ _ _ _ Hdata) in Hraise.
Qed.

End crypto.

(** C9, as stated, fails: the string made of the lone surrogate U+D800 is a
    Python string, and [encrypt_private_key] raises [UnicodeEncodeError] on
    it, so there is nothing to decrypt. *)
Lemma lone_surrogate_is_not_encrypted :
  @Crypto.encrypt_private_key ToyFernet.fernet 1762214400 [] [0xD800%N]
  = Raise (Exn UnicodeEncodeError "'utf-8' codec can't encode character") ∧
  Utf8.is_surrogate 0xD800 = true.
Proof. done. Qed.

(** C9 on the key ["0xabc"]. *)
Lemma decrypt_encrypt_private_key_witness :
  let plain_key := [48; 120; 97; 98; 99]%N in
  (∃ token,
     @Crypto.encrypt_private_key ToyFernet.fernet 1762214400 [] plain_key
     = Ok token ∧
     @Crypto.decrypt_private_key ToyFernet.fernet token Demo.empty
     = (Ok plain_key, emit (EvPrint (@fernet_key ToyFernet.fernet)) Demo.empty)) ∧
  (∀ token e w',
     (@Crypto.decrypt_private_key ToyFernet.fernet token w').1 = Raise e →
     exn_cls e = PrivateKeyEncryptionError →
     ∀ now' iv' plain_key',
       @Crypto.encrypt_private_key ToyFernet.fernet now' iv' plain_key'
       ≠ Ok token).
Proof.
  intros plain_key.
  apply (@decrypt_encrypt_private_key ToyFernet.fernet toy_fernet_contract).
  repeat constructor.
Defined.

(** * Further properties of the code *)

(** ** The retry decorator for any number of attempts *)

Section counting_events.
Import Trace.

Lemma count_events_app q evs1 evs2 :
  count_events q (evs1 ++ evs2)
  = (count_events q evs1 + count_events q evs2)%nat.
Proof. unfold count_events. by rewrite filter_app, length_app. Qed.

Lemma count_events_backoff q func_name max_retries delay attempt e :
  (∀ level event kw, q (EvLog level event kw) = false) →
  q (EvSleep delay) = false →
  count_events q (backoff_events func_name max_retries delay attempt e) = 0%nat.
Proof.
  intros Hlog Hsleep. unfold count_events, backoff_events.
  rewrite !filter_cons_False; [done|by rewrite Hsleep|by rewrite Hlog].
Qed.

Lemma count_events_give_up q func_name e :
  (∀ level event kw, q (EvLog level event kw) = false) →
  count_events q (give_up_events func_name e) = 0%nat.
Proof.
  intros Hlog. unfold count_events, give_up_events.
  rewrite !filter_cons_False; [done|by rewrite Hlog].
Qed.

(** When every attempt makes [c] calls of a kind, a decorated run makes [c]
    of them per attempt. *)
Lemma retry_run_count_events {A} func_name delay q (c : nat)
    (P : list Event → result A → list Event → Prop) h r evs :
  (∀ level event kw, q (EvLog level event kw) = false) →
  q (EvSleep delay) = false →
  (∀ h r evs, P h r evs →
     count_events q evs = c ∧ failures func_name evs = 0%nat) →
  retry_run func_name delay P h r evs →
  count_events q evs = (c * attempts_made func_name r evs)%nat ∧
  (1 ≤ attempts_made func_name r evs ≤ 3)%nat.
Proof.
  intros Hlog Hsleep HP Hrun. unfold attempts_made.
  destruct Hrun as [v evs1 H1|e1 evs1 v evs2 b1 H1 H2
    |e1 evs1 e2 evs2 v evs3 b1 b2 H1 H2 H3
    |e1 evs1 e2 evs2 e3 evs3 b1 b2 H1 H2 H3].
  all: apply HP in H1; destruct H1 as [? ?].
  all: try (apply HP in H2; destruct H2 as [? ?]).
  all: try (apply HP in H3; destruct H3 as [? ?]).
  all: rewrite ?count_events_app, ?failures_app.
  all: subst b1 || idtac; subst b2 || idtac.
  all: rewrite ?failures_backoff, ?failures_give_up,
         ?count_events_backoff, ?count_events_give_up by done.
  all: cbn [is_Ok]; lia.
Qed.

(** A decorated run that raises has made its three attempts. *)
Lemma retry_run_raise {A} func_name delay
    (P : list Event → result A → list Event → Prop) h e evs :
  (∀ h r evs, P h r evs → sleeps evs = [] ∧ failures func_name evs = 0%nat) →
  retry_run func_name delay P h (Raise e) evs →
  failures func_name evs = 3%nat ∧ sleeps evs = [delay; delay].
Proof.
  intros HP Hrun.
  inversion Hrun as [| | |e1 evs1 e2 evs2 e3 evs3 b1 b2 H1 H2 H3]; subst.
  apply HP in H1 as [Hs1 Hf1], H2 as [Hs2 Hf2], H3 as [Hs3 Hf3].
  rewrite !failures_app, !sleeps_app, Hs1, Hs2, Hs3, Hf1, Hf2, Hf3.
  subst b1 b2. by rewrite !failures_backoff, failures_give_up.
Qed.

Lemma wp_fmap {B C} (f : B → C) (m : M B) Q :
  wp m (λ h r evs,
    Q h (match r with Ok b => Ok (f b) | Raise e => Raise e end) evs) →
  wp (f <$> m) Q.
Proof.
  intros Hm w. destruct (Hm w) as (r & evs & Hrun & Hr).
  unfold fmap, M_fmap. rewrite Hrun. destruct r; eauto.
Qed.

End counting_events.

Section retry_general.
Import Trace Web3Client.
Context {A : Type}.
Variables (max_retries : Z) (delay : spec_float) (func_name : string).
Variables (func : M A).
Variables (p : Event → bool) (k : nat) (R : result A → Prop).
Hypothesis p_log : ∀ level event kw, p (EvLog level event kw) = false.
Hypothesis p_sleep : p (EvSleep delay) = false.
Hypothesis func_attempt : wp func (λ h r evs,
  R r ∧ (count_events p evs ≤ k)%nat ∧ sleeps evs = [] ∧
  failures func_name evs = 0%nat).

Lemma wp_on_failure attempt e :
  wp (on_failure max_retries delay func_name attempt e) (λ h r evs,
    r = Ok () ∧
    evs = if bool_decide (attempt < max_retries - 1)
          then backoff_events func_name max_retries delay attempt e
          else give_up_events func_name e).
Proof.
  unfold on_failure. case_bool_decide.
  - wp_exec. done.
  - wp_exec. done.
Qed.

(** The loop over the attempts [i, i+1, ..., max_retries - 1]. *)
Lemma wp_wrapper_loop (m : nat) : ∀ (i : Z) last,
  i + Z.of_nat m = max_retries →
  wp (wrapper_loop max_retries delay func_name func (seqZ i (Z.of_nat m)) last)
    (λ h r evs,
       let f := failures func_name evs in
       match r with
       | Ok v =>
           R (Ok v) ∧ (f < m)%nat ∧ sleeps evs = replicate f delay ∧
           (count_events p evs ≤ k * (f + 1))%nat
       | Raise e =>
           f = m ∧ sleeps evs = replicate (m - 1) delay ∧
           (count_events p evs ≤ k * m)%nat ∧
           match m with
           | O => evs = [] ∧
                  e = match last with
                      | Some e' => e'
                      | None =>
                          Exn TypeError
                            "exceptions must derive from BaseException"
                      end
           | S _ => R (Raise e)
           end
       end).
Proof.
  induction m as [|m IH]; intros i last Hi.
  - cbn [Z.of_nat seqZ]. rewrite seqZ_nil by lia. cbn [wrapper_loop].
    destruct last; wp_exec; cbn; repeat split; lia.
  - rewrite seqZ_cons by lia. cbn [wrapper_loop].
    replace (Z.pred (Z.of_nat (S m))) with (Z.of_nat m) by lia.
    apply wp_bind, wp_try_except, wp_fmap.
    eapply wp_mono; [exact func_attempt|].
    intros h r evs (HR & Hc & Hs & Hf). destruct r as [v|e].
    + apply wp_ret. intros _ _. rewrite !app_nil_r, Hf, Hs.
      repeat split; try done; lia.
    + intros w.
      destruct (wp_on_failure i e w) as (r1 & evs1 & Hrun1 & -> & ->).
      unfold mbind at 1, M_bind at 1. rewrite Hrun1.
      eexists (Ok (inr e)), _. split; [reflexivity|]. intros _.
      eapply wp_mono; [apply (IH (Z.succ i) (Some e)); lia|].
      intros h' r' evs' Hr' _.
      rewrite !failures_app, !sleeps_app, !count_events_app, Hf, Hs.
      case_bool_decide as Hlt.
      * destruct m as [|m']; [lia|].
        rewrite failures_backoff, count_events_backoff by done.
        cbn [backoff_events sleeps omap list_omap app].
        destruct r' as [v|e'].
        -- destruct Hr' as (? & ? & -> & ?). repeat split; try done; try lia.
        -- destruct Hr' as (-> & -> & ? & ?). repeat split; try done; try lia.
           cbn. by rewrite Nat.sub_0_r.
      * destruct m as [|m']; [|lia].
        rewrite failures_give_up, count_events_give_up by done.
        destruct r' as [v|e']; [destruct Hr' as (_ & ? & _); lia|].
        destruct Hr' as (_ & _ & _ & -> & ->). rewrite app_nil_r.
        repeat split; try done.
        change (count_events p []) with 0%nat. lia.
Qed.

(** X1.  [async_retry] with any positive [max_retries]: when one run of
    the function makes at most [k] calls of some kind and leaves the
    decorator's own records and sleeps alone, a decorated call makes between
    one and [max_retries] attempts, exactly [max_retries] when it raises, at
    most [k] such calls per attempt, and sleeps [delay] once between two
    attempts and never after the last; what it returns or raises is what
    an attempt returned or raised. *)
Theorem async_retry_policy :
  0 < max_retries →
  wp (async_retry max_retries delay func_name func) (λ h r evs,
    let a := attempts_made func_name r evs in
    R r ∧ (1 ≤ a)%nat ∧ Z.of_nat a ≤ max_retries ∧
    (is_Ok r = false → Z.of_nat a = max_retries) ∧
    (count_events p evs ≤ k * a)%nat ∧
    sleeps evs = replicate (a - 1) delay).
Proof.
  intros Hn. unfold async_retry.
  replace max_retries with (Z.of_nat (Z.to_nat max_retries)) at 2 by lia.
  eapply wp_mono; [apply wp_wrapper_loop; lia|].
  intros h r evs Hr. unfold attempts_made. destruct r as [v|e]; cbn [is_Ok].
  - destruct Hr as (? & ? & -> & ?). repeat split; try done; try lia.
    by rewrite Nat.add_sub.
  - destruct Hr as (Hf & -> & ? & HR). rewrite Hf, Nat.add_0_r.
    destruct (Z.to_nat max_retries) eqn:?; [lia|].
    repeat split; try done; lia.
Qed.

(** X2.  With [max_retries] zero or negative the loop has no iteration:
    the function is never run, the world is left as it was, and
    [raise last_exception] with [last_exception = None] raises a
    [TypeError]. *)
Theorem async_retry_without_attempts w :
  max_retries ≤ 0 →
  async_retry max_retries delay func_name func w
  = (Raise (Exn TypeError "exceptions must derive from BaseException"), w).
Proof.
  intros Hn. unfold async_retry. rewrite seqZ_nil by lia.
  reflexivity.
Qed.

End retry_general.

(** ** Startup *)

Section startup.
Import Trace Web3Client.
Context `{!Provider, !Settings}.

(** What [connect] does, by the answer of the probe. *)
Lemma connect_run w :
  connect w =
  match node_is_connected (trace w) with
  | Ok true =>
      (Ok (true, true),
       emit (EvLog INFO "Connected to blockchain" [("rpc_url", PStr rpc_url)]) w)
  | Ok false =>
      (Ok (false, false),
       emit (EvLog ERROR "Failed to connect to blockchain"
               [("rpc_url", PStr rpc_url)]) w)
  | Raise e =>
      (Ok (false, false),
       emit (EvLog ERROR "Blockchain connection error"
               [("error", PStr (exn_str e))]) w)
  end.
Proof.
  unfold connect, try_except, mbind, M_bind.
  destruct (node_is_connected (trace w)) as [[]|e]; reflexivity.
Qed.

(** X3.  [connect] never raises: whatever the probe answers or raises, it
    returns a flag, leaves [self._connected] equal to that flag, and logs
    one record; the flag is [True] exactly when the probe answered [True],
    and the record is at level INFO then and at level ERROR otherwise. *)
Theorem connect_never_raises w :
  ∃ connected level event kw,
    connect w = (Ok (connected, connected), emit (EvLog level event kw) w) ∧
    (connected = true ↔ node_is_connected (trace w) = Ok true) ∧
    (level = INFO ↔ connected = true) ∧
    (level = ERROR ↔ connected = false).
Proof.
  rewrite connect_run.
  destruct (node_is_connected (trace w)) as [[]|e].
  - eexists true, INFO, _, _. by repeat split.
  - eexists false, ERROR, _, _. by repeat split.
  - eexists false, ERROR, _, _. by repeat split.
Qed.

(** X4.  The startup half of [lifespan] always completes: it logs that the
    application starts, probes the node, and goes on to serve whether or not
    the node is reachable; it calls the node for nothing else, and its last
    record is the error "Failed to connect to blockchain" exactly when the
    probe did not answer [True]. *)
Theorem lifespan_startup_never_raises w :
  let started := EvLog INFO "Starting application"
                   [("app_name", PStr "Blockchain Banking API")] in
  let failed := EvLog ERROR "Failed to connect to blockchain" [] in
  ∃ evs,
    Main.lifespan_startup w = (Ok (), extend w (started :: evs)) ∧
    Forall (λ ev, is_node_call ev = false) evs ∧
    (last evs = Some failed
     ↔ node_is_connected (trace w ++ [started]) ≠ Ok true) ∧
    (1 ≤ length evs ≤ 2)%nat.
Proof.
  intros started failed.
  unfold Main.lifespan_startup, mbind at 1, M_bind at 1, logger at 1.
  fold started. unfold mbind, M_bind, fmap, M_fmap. rewrite connect_run.
  cbn [trace emit].
  destruct (node_is_connected (trace w ++ [started])) as [[]|e]; cbn.
  - eexists [_]. split; [by rewrite !emit_extend, !extend_extend|].
    split; [by repeat constructor|].
    split; [|cbn; lia]. cbn. split; [done|]. by intros [].
  - eexists [_; _].
    split; [unfold logger; by rewrite !emit_extend, !extend_extend|].
    split; [by repeat constructor|]. split; [by split|cbn; lia].
  - eexists [_; _].
    split; [unfold logger; by rewrite !emit_extend, !extend_extend|].
    split; [by repeat constructor|]. split; [by split|cbn; lia].
Qed.

End startup.

(** ** Key generation *)

Section account_generation.
Import Trace Web3Client.
Context `{!AsyncWeb3, !Settings}.

Lemma validate_address_Ok value r :
  validate_address value = Ok r →
  r = value ∧ String.prefix "0x" value = true ∧ String.length value = 42%nat.
Proof.
  unfold validate_address.
  destruct (String.prefix "0x" value); [|done].
  case_bool_decide; [|done]. by intros [= <-].
Qed.

Lemma validate_private_key_Ok value r :
  validate_private_key value = Ok r →
  r = value ∧ String.prefix "0x" value = true.
Proof.
  unfold validate_private_key.
  destruct (String.prefix "0x" value); [|done]. by intros [= <-].
Qed.

(** What [create_account] does to the world: one key is drawn. *)
Lemma create_account_world w :
  ∃ r, create_account w
       = (r, emit (EvAccountCreate (node_account_create (trace w))) w).
Proof.
  unfold create_account, mbind, M_bind, lift, mret, M_ret.
  repeat case_match; simplify_eq; eauto.
Qed.

(** X5.  [Web3Client.create_account] draws one key and does nothing else to
    the world, whether it returns or raises (it is not retried).  An account
    it returns holds the checksummed address of the generated key and
    [key.hex()] unchanged, the address is 42 characters long and starts with
    ["0x"], and the key starts with ["0x"]; when [key.hex()] comes without
    the ["0x"] prefix, or the checksummed address is not 42 characters long,
    it raises. *)
Theorem create_account_is_validated w :
  let generated := node_account_create (trace w) in
  ∃ r,
    create_account w = (r, emit (EvAccountCreate generated) w) ∧
    (∀ account, r = Ok account →
       to_checksum_address (la_address generated) = Ok (ba_address account) ∧
       ba_private_key account = la_key_hex generated ∧
       String.prefix "0x" (ba_address account) = true ∧
       String.length (ba_address account) = 42%nat ∧
       String.prefix "0x" (ba_private_key account) = true) ∧
    (String.prefix "0x" (la_key_hex generated) = false → is_Ok r = false) ∧
    (∀ checksum_address,
       to_checksum_address (la_address generated) = Ok checksum_address →
       String.length checksum_address ≠ 42%nat → is_Ok r = false).
Proof.
  intros generated. destruct (create_account_world w) as [r Hrun].
  exists r. split; [exact Hrun|]. revert Hrun.
  unfold create_account, mbind, M_bind, lift, mret, M_ret. fold generated.
  destruct (to_checksum_address (la_address generated)) as [checksum|e] eqn:Hc.
  2: { intros [= <-]. by repeat split. }
  destruct (validate_address checksum) as [address|e] eqn:Ha.
  2: { intros [= <-]. by repeat split. }
  apply validate_address_Ok in Ha as (-> & Hp & Hl).
  destruct (validate_private_key (la_key_hex generated)) as [key|e] eqn:Hk.
  2: { intros [= <-]. by repeat split. }
  apply validate_private_key_Ok in Hk as (-> & Hk).
  intros [= <-]. split; [|split].
  - by intros account [= <-].
  - by rewrite Hk.
  - intros ? [= <-] ?. done.
Qed.

End account_generation.

(** ** Balance queries and gas estimates *)

Section native_balance.
Import Trace Web3Client.
Context `{!AsyncWeb3, !Settings}.

Lemma wp_get_native_balance_func address :
  wp (get_native_balance_func address) (λ h r evs,
    match to_checksum_address address with
    | Ok owner =>
        r = node_get_balance h owner ∧
        evs = [EvGetBalance owner (node_get_balance h owner)]
    | Raise e => r = Raise e ∧ evs = []
    end).
Proof.
  intros w.
  unfold get_native_balance_func, mbind, M_bind, lift, ask, mret, M_ret.
  destruct (to_checksum_address address) as [owner|e].
  - exists (node_get_balance (trace w) owner),
      [EvGetBalance owner (node_get_balance (trace w) owner)].
    by destruct (node_get_balance (trace w) owner).
  - exists (Raise e), []. by rewrite extend_nil.
Qed.

(** X6.  A failure that no retry can cure is retried all the same: when the
    address (or, for a token balance, the token address) does not checksum,
    [get_native_balance] and [get_balance] make their three attempts, log
    two "Retry attempt" records and one "Max retries reached", sleep 2.0
    twice, and raise the error of the conversion, without one call to the
    node. *)
Theorem undecodable_address_is_retried address e w :
  to_checksum_address address = Raise e →
  let retries func_name :=
    backoff_events func_name 3 PyFloat.lit_2_0 0 e ++
    backoff_events func_name 3 PyFloat.lit_2_0 1 e ++
    give_up_events func_name e in
  get_native_balance address w
  = (Raise e, extend w (retries "get_native_balance")) ∧
  (∀ owner, get_balance owner address w
            = (Raise e, extend w (retries "get_balance"))) ∧
  (∀ token, is_Ok (to_checksum_address token) = true →
     get_balance address token w
     = (Raise e, extend w (retries "get_balance"))) ∧
  (∀ func_name,
     sleeps (retries func_name) = [PyFloat.lit_2_0; PyFloat.lit_2_0] ∧
     count_events is_node_call (retries func_name) = 0%nat).
Proof.
  intros He retries.
  assert (Hn : ∀ w', get_native_balance_func address w' = (Raise e, w')).
  { intros w'. unfold get_native_balance_func, mbind, M_bind, lift.
    by rewrite He. }
  assert (Ht : ∀ owner w', get_balance_func owner address w' = (Raise e, w')).
  { intros owner w'. unfold get_balance_func, get_contract, mbind, M_bind, lift.
    by rewrite He. }
  assert (Ha : ∀ token w', is_Ok (to_checksum_address token) = true →
            get_balance_func address token w' = (Raise e, w')).
  { intros token w' Hok.
    unfold get_balance_func, get_contract, mbind, M_bind, lift.
    destruct (to_checksum_address token); [|done]. by rewrite He. }
  split; [|split; [|split]].
  - unfold get_native_balance. rewrite async_retry_3, !Hn.
    by rewrite !extend_extend.
  - intros owner. unfold get_balance. rewrite async_retry_3, !Ht.
    by rewrite !extend_extend.
  - intros token Hok. unfold get_balance. rewrite async_retry_3, !Ha by done.
    by rewrite !extend_extend.
  - intros func_name. split; reflexivity.
Qed.

(** X7.  [get_native_balance] only ever asks the node for the native
    balance of the checksummed address: it never calls [balanceOf] and never
    broadcasts, it makes between one and three attempts with one
    [eth.get_balance] query in each when the address checksums and none at
    all when it does not, and the integer it returns is the one the last
    query answered. *)
Theorem get_native_balance_queries address w :
  let run := get_native_balance address w in
  ∃ evs, run.2 = extend w evs ∧
    Forall (λ ev, is_balanceOf_call ev = false ∧ is_broadcast ev = false) evs ∧
    (1 ≤ attempts_made "get_native_balance" run.1 evs ≤ 3)%nat ∧
    count_events is_native_balance_call evs
    = (if is_Ok (to_checksum_address address)
       then attempts_made "get_native_balance" run.1 evs else 0%nat) ∧
    ∀ balance, run.1 = Ok balance →
      ∃ owner, to_checksum_address address = Ok owner ∧
        last evs = Some (EvGetBalance owner (Ok balance)).
Proof.
  intros run.
  destruct (wp_async_retry_3 "get_native_balance" PyFloat.lit_2_0 _ _
              (wp_get_native_balance_func address) w) as (r & evs & Hrun & Hr).
  subst run. unfold get_native_balance. rewrite Hrun. cbn [fst snd].
  exists evs. split; [done|]. split; [|split; [|split]].
  - refine (retry_run_Forall _ _ _ _ _ _ _ _ _ _ Hr); [done|done|].
    intros h' r' evs'. destruct (to_checksum_address address).
    + intros [_ ->]. by repeat constructor.
    + intros [_ ->]. constructor.
  - eapply (retry_run_count_events _ _ is_native_balance_call
              (if is_Ok (to_checksum_address address) then 1 else 0)%nat);
      [done|done| |exact Hr].
    intros h' r' evs'. destruct (to_checksum_address address); by intros [_ ->].
  - eapply (retry_run_count_events _ _ is_native_balance_call
              (if is_Ok (to_checksum_address address) then 1 else 0)%nat)
      in Hr as [-> _]; [|done|done|].
    + destruct (to_checksum_address address); cbn [is_Ok]; lia.
    + intros h' r' evs'. destruct (to_checksum_address address); by intros [_ ->].
  - intros balance ->.
    apply retry_run_last in Hr as (h' & before & evs' & -> & Hlast).
    destruct (to_checksum_address address) as [owner|e]; [|by destruct Hlast].
    destruct Hlast as [Hb ->]. exists owner. split; [done|].
    by rewrite last_snoc, <- Hb.
Qed.

Lemma wp_get_balance_func_calls address token :
  wp (get_balance_func address token) (λ h r evs,
    match to_checksum_address token, to_checksum_address address with
    | Ok contract, Ok owner =>
        r = node_call_balanceOf h contract owner ∧
        evs = [EvCallBalanceOf contract owner (node_call_balanceOf h contract owner)]
    | _, _ => is_Ok r = false ∧ evs = []
    end).
Proof.
  intros w.
  unfold get_balance_func, get_contract, mbind, M_bind, lift, ask, mret, M_ret.
  destruct (to_checksum_address token) as [contract|e];
    [|exists (Raise e), []; by rewrite extend_nil].
  destruct (to_checksum_address address) as [owner|e];
    [|exists (Raise e), []; by rewrite extend_nil].
  exists (node_call_balanceOf (trace w) contract owner),
    [EvCallBalanceOf contract owner (node_call_balanceOf (trace w) contract owner)].
  by destruct (node_call_balanceOf (trace w) contract owner).
Qed.

(** X25.  Of the calls that reach the node, [get_balance] makes only
    [balanceOf] calls: it makes between one and three attempts, with one
    [balanceOf] call in each when the token address and the address
    checksum, and none at all when one of them does not. *)
Theorem get_balance_queries address token w :
  let run := get_balance address token w in
  ∃ evs, run.2 = extend w evs ∧
    Forall (λ ev, is_node_call ev = true → is_balanceOf_call ev = true) evs ∧
    (1 ≤ attempts_made "get_balance" run.1 evs ≤ 3)%nat ∧
    count_events is_balanceOf_call evs
    = (if is_Ok (to_checksum_address token)
          && is_Ok (to_checksum_address address)
       then attempts_made "get_balance" run.1 evs else 0%nat).
Proof.
  intros run.
  destruct (wp_async_retry_3 "get_balance" PyFloat.lit_2_0 _ _
              (wp_get_balance_func_calls address token) w)
    as (r & evs & Hrun & Hr).
  subst run. unfold get_balance. rewrite Hrun. cbn [fst snd].
  set (c := (if is_Ok (to_checksum_address token)
                && is_Ok (to_checksum_address address)
             then 1 else 0)%nat).
  assert (Hattempt : ∀ h' r' evs',
    match to_checksum_address token, to_checksum_address address with
    | Ok contract, Ok owner =>
        r' = node_call_balanceOf h' contract owner ∧
        evs' = [EvCallBalanceOf contract owner
                  (node_call_balanceOf h' contract owner)]
    | _, _ => is_Ok r' = false ∧ evs' = []
    end →
    count_events is_balanceOf_call evs' = c ∧
    failures "get_balance" evs' = 0%nat ∧
    Forall (λ ev, is_node_call ev = true → is_balanceOf_call ev = true) evs').
  { intros h' r' evs'. subst c.
    destruct (to_checksum_address token), (to_checksum_address address);
      intros [_ ->]; by repeat constructor. }
  exists evs. split; [done|]. split; [|split].
  - refine (retry_run_Forall _ _ _ _ _ _ _ _ _ _ Hr); [done|done|].
    intros h' r' evs' Hp. by apply Hattempt in Hp as (_ & _ & ?).
  - eapply (retry_run_count_events _ _ is_balanceOf_call c);
      [done|done| |exact Hr].
    intros h' r' evs' Hp. by apply Hattempt in Hp as (? & ? & _).
  - eapply (retry_run_count_events _ _ is_balanceOf_call c)
      in Hr as [-> _]; [|done|done|].
    + subst c. destruct (is_Ok _ && is_Ok _); lia.
    + intros h' r' evs' Hp. by apply Hattempt in Hp as (? & ? & _).
Qed.

(** X8.  The decorator of [estimate_gas] never has anything to retry: a
    call is one [eth.estimate_gas] request, followed by one warning when the
    default is used, with no sleep and no retry record, whatever the node
    answers. *)
Theorem estimate_gas_is_one_call transaction w :
  let answer := node_estimate_gas (trace w) transaction in
  ∃ evs,
    estimate_gas transaction w = (Ok (Gas.value answer), extend w evs) ∧
    evs = EvEstimateGas transaction answer :: Gas.fallback_log answer ∧
    count_events is_node_call evs = 1%nat ∧ sleeps evs = [] ∧
    failures "estimate_gas" evs = 0%nat ∧
    (is_Ok (Gas.attempt answer) = true → evs = [EvEstimateGas transaction answer]).
Proof.
  intros answer.
  destruct (wp_estimate_gas transaction w) as (r & evs & Hrun & -> & ->).
  fold answer in Hrun |- *. exists (EvEstimateGas transaction answer
                                       :: Gas.fallback_log answer).
  split; [exact Hrun|]. split; [done|].
  unfold Gas.fallback_log. by destruct (Gas.attempt answer).
Qed.

End native_balance.

Section margin.
Context `{!Settings}.

(** X9.  On estimates below 2^50, [int(gas * 1.2)] never lowers the
    estimate and adds at most a fifth of it, rounded down; for an estimate
    below 5 it adds nothing. *)
Theorem margin_never_lowers_the_estimate gas :
  0 ≤ gas < 2 ^ 50 →
  ∃ with_margin,
    Gas.with_margin gas = Ok with_margin ∧
    gas ≤ with_margin ∧ 5 * with_margin ≤ 6 * gas < 5 * with_margin + 5 ∧
    (with_margin = gas ↔ gas < 5).
Proof.
  intros Hgas. exists (gas * 6 / 5). split; [by apply with_margin_exact|].
  pose proof (Z.div_mod (gas * 6) 5). pose proof (Z.mod_pos_bound (gas * 6) 5).
  lia.
Qed.

End margin.

(** ** Errors of the repository *)

Section repository_errors.
Import Trace.
Context `{!AsyncWeb3, !Settings}.

Lemma get_user_by_name_cases name w :
  (∃ user, AccountRepository.get_user_by_name name w = (Ok user, w)) ∨
  AccountRepository.get_user_by_name name w
  = (Raise (Exn AccountNotFoundError ("Account '" +:+ name +:+ "' not found")),
     extend w [EvLog WARNING "Account not found" [("name", PStr name)]]).
Proof.
  unfold AccountRepository.get_user_by_name, Session.select_by_name,
    mbind, M_bind.
  destruct (users w !! name) as [user|]; [by left; exists user|].
  destruct (list_find _ _) as [[i user]|]; [by left; exists user|].
  by right.
Qed.

Lemma get_user_by_name_missing name w :
  session_new w = [] → users w !! name = None →
  AccountRepository.get_user_by_name name w
  = (Raise (Exn AccountNotFoundError ("Account '" +:+ name +:+ "' not found")),
     extend w [EvLog WARNING "Account not found" [("name", PStr name)]]).
Proof.
  intros Hs Hn.
  unfold AccountRepository.get_user_by_name, Session.select_by_name,
    mbind, M_bind. by rewrite Hn, Hs.
Qed.

Lemma wp_get_balance_sleeps address token :
  wp (Web3Client.get_balance address token) (λ h r evs,
    Forall (λ ev, is_broadcast ev = false ∧ is_native_balance_call ev = false)
      evs ∧
    (∀ e, r = Raise e →
       failures "get_balance" evs = 3%nat ∧
       sleeps evs = [PyFloat.lit_2_0; PyFloat.lit_2_0]) ∧
    ∀ balance, r = Ok balance →
      ∃ contract owner,
        to_checksum_address token = Ok contract ∧
        to_checksum_address address = Ok owner ∧
        last evs = Some (EvCallBalanceOf contract owner (Ok balance))).
Proof.
  assert (Hbody : wp (Web3Client.get_balance_func address token) (λ h r evs,
    (sleeps evs = [] ∧ failures "get_balance" evs = 0%nat) ∧
    Forall (λ ev, is_broadcast ev = false ∧ is_native_balance_call ev = false)
      evs ∧
    ∀ balance, r = Ok balance →
      ∃ contract owner,
        to_checksum_address token = Ok contract ∧
        to_checksum_address address = Ok owner ∧
        evs = [EvCallBalanceOf contract owner (Ok balance)])).
  { unfold Web3Client.get_balance_func, Web3Client.get_contract. wp_exec.
    all: split; [by split|].
    all: split; [repeat first [apply Forall_nil_2 | apply Forall_cons_2]; done|].
    all: intros balance [= <-] || intros balance [=].
    by eexists _, _. }
  eapply wp_mono; [apply wp_async_retry_3, Hbody|]. intros h r evs Hrun.
  split; [|split].
  - refine (retry_run_Forall _ _ _ _ _ _ _ _ _ _ Hrun);
      [done|done|by intros ? ? ? (_ & ? & _)].
  - intros e ->. eapply retry_run_raise; [|exact Hrun]. by intros ? ? ? [? _].
  - intros balance ->. apply retry_run_last in Hrun
      as (h' & before & evs' & -> & _ & _ & Hlast).
    destruct (Hlast balance eq_refl) as (contract & owner & ? & ? & ->).
    exists contract, owner. by rewrite last_snoc.
Qed.

(** X10.  [AccountRepository.get_balance] never broadcasts, and raises one
    of two errors only: [AccountNotFoundError], after one warning and no
    call to the node, when the name has no row; or [BlockchainError] with the
    message "Failed to get balance: " followed by the text of the cause,
    after the three attempts and the two sleeps of the client, whatever the
    class of the cause. *)
Theorem repository_get_balance_errors name token w :
  ∃ r evs,
    AccountRepository.get_balance name token w = (r, extend w evs) ∧
    broadcasts evs = 0%nat ∧
    ∀ e, r = Raise e →
      (e = Exn AccountNotFoundError ("Account '" +:+ name +:+ "' not found") ∧
       evs = [EvLog WARNING "Account not found" [("name", PStr name)]]) ∨
      (∃ cause,
         e = Exn BlockchainError ("Failed to get balance: " +:+ exn_str cause) ∧
         failures "get_balance" evs = 3%nat ∧
         sleeps evs = [PyFloat.lit_2_0; PyFloat.lit_2_0]).
Proof.
  unfold AccountRepository.get_balance, mbind, M_bind.
  destruct (get_user_by_name_cases name w) as [[user ->]| ->].
  - destruct (wp_get_balance_sleeps (User_address user) token w)
      as (r & evs & Hrun & Hev & Hraise & _).
    unfold try_except. rewrite Hrun.
    assert (Hb : broadcasts evs = 0%nat).
    { apply broadcasts_none. eapply Forall_impl; [exact Hev|]. by intros ? [? _]. }
    destruct r as [balance|cause].
    + by exists (Ok balance), evs.
    + eexists _, evs. split; [reflexivity|]. split; [done|].
      intros e [= <-]. right. exists cause. split; [done|].
      exact (Hraise cause eq_refl).
  - eexists _, _. split; [reflexivity|]. split; [done|].
    intros e [= <-]. by left.
Qed.

(** X11.  When the sender or the recipient has no row, [transfer_from_to]
    raises [AccountNotFoundError] naming the sender if the sender is missing
    and the recipient otherwise, and all it has done is log one warning:
    no balance lookup, no broadcast. *)
Theorem transfer_between_unknown_accounts from_name to_name amount token w :
  session_new w = [] →
  users w !! from_name = None ∨ users w !! to_name = None →
  let name := if bool_decide (users w !! from_name = None)
              then from_name else to_name in
  AccountRepository.transfer_from_to from_name to_name amount token w
  = (Raise (Exn AccountNotFoundError ("Account '" +:+ name +:+ "' not found")),
     extend w [EvLog WARNING "Account not found" [("name", PStr name)]]).
Proof.
  intros Hs Hmissing name. unfold AccountRepository.transfer_from_to.
  unfold mbind at 1, M_bind at 1. subst name.
  case_bool_decide as Hfrom.
  - by rewrite (get_user_by_name_missing _ _ Hs Hfrom).
  - destruct Hmissing as [?|Hto]; [done|].
    destruct (users w !! from_name) as [from_user|] eqn:Hrow; [|done].
    rewrite (get_user_by_name_found _ _ _ Hrow).
    unfold mbind at 1, M_bind at 1.
    by rewrite (get_user_by_name_missing _ _ Hs Hto).
Qed.

(** X12.  When the balance lookup of the sender raises, [transfer_from_to]
    logs "Failed to check balance" and raises [BlockchainError] with the
    message "Failed to check balance: " followed by the text of the cause;
    the lookup has slept 2.0 twice, and nothing was broadcast. *)
Theorem failed_balance_check_stops_the_transfer
    from_name to_name amount token from_user to_user e w w1 :
  users w !! from_name = Some from_user →
  users w !! to_name = Some to_user →
  Web3Client.get_balance (User_address from_user) token w = (Raise e, w1) →
  exn_cls e ≠ InsufficientBalanceError →
  AccountRepository.transfer_from_to from_name to_name amount token w
  = (Raise (Exn BlockchainError ("Failed to check balance: " +:+ exn_str e)),
     extend w1 [EvLog ERROR "Failed to check balance"
                  [("error", PStr (exn_str e))]]) ∧
  broadcasts (trace w1) = broadcasts (trace w) ∧
  sleeps (drop (length (trace w)) (trace w1))
  = [PyFloat.lit_2_0; PyFloat.lit_2_0].
Proof.
  intros Hfrom Hto Hbalance Hcls. split.
  - unfold AccountRepository.transfer_from_to.
    unfold mbind at 1, M_bind at 1. rewrite (get_user_by_name_found _ _ _ Hfrom).
    unfold mbind at 1, M_bind at 1. rewrite (get_user_by_name_found _ _ _ Hto).
    unfold mbind at 1, M_bind at 1, try_except at 1.
    unfold mbind at 1, M_bind at 1. rewrite Hbalance.
    by rewrite bool_decide_eq_false_2.
  - destruct (wp_get_balance_sleeps (User_address from_user) token w)
      as (r & evs & Hrun & Hev & Hraise & _).
    rewrite Hbalance in Hrun. injection Hrun as <- ->.
    rewrite trace_extend, broadcasts_app, (broadcasts_none evs).
    + split; [lia|]. rewrite drop_app_length.
      exact (proj2 (Hraise e eq_refl)).
    + eapply Forall_impl; [exact Hev|]. by intros ? [? _].
Qed.

(** X13.  When both accounts exist and the lookup reports a balance of at
    least the amount, [transfer_from_to] is the token transfer of the client
    from the world the lookup left, with the stored key of the sender and
    the stored address of the recipient: its value is returned and its
    exception is raised as it is, not as a [BlockchainError]. *)
Theorem sufficient_balance_hands_over_to_the_transfer
    from_name to_name amount token from_user to_user balance w w1 :
  users w !! from_name = Some from_user →
  users w !! to_name = Some to_user →
  Web3Client.get_balance (User_address from_user) token w = (Ok balance, w1) →
  amount ≤ balance →
  AccountRepository.transfer_from_to from_name to_name amount token w
  = Web3Client.transfer_erc20 (User_private_key from_user)
      (User_address to_user) amount token w1.
Proof.
  intros Hfrom Hto Hbalance Hle.
  unfold AccountRepository.transfer_from_to.
  unfold mbind at 1, M_bind at 1. rewrite (get_user_by_name_found _ _ _ Hfrom).
  unfold mbind at 1, M_bind at 1. rewrite (get_user_by_name_found _ _ _ Hto).
  unfold mbind at 1, M_bind at 1, try_except at 1.
  unfold mbind at 1, M_bind at 1. rewrite Hbalance.
  by rewrite bool_decide_eq_false_2 by lia.
Qed.

(** X14.  [transfer_from_to] leaves the tables alone and broadcasts at most
    three times, and it broadcasts only after a [balanceOf] call of the same
    run answered a balance of at least the amount. *)
Theorem transfer_broadcasts_only_after_the_balance_check
    from_name to_name amount token w :
  ∃ r evs,
    AccountRepository.transfer_from_to from_name to_name amount token w
    = (r, extend w evs) ∧
    (broadcasts evs ≤ 3)%nat ∧
    ((0 < broadcasts evs)%nat →
       ∃ contract owner balance,
         EvCallBalanceOf contract owner (Ok balance) ∈ evs ∧ amount ≤ balance).
Proof.
  unfold AccountRepository.transfer_from_to.
  unfold mbind at 1, M_bind at 1.
  destruct (get_user_by_name_cases from_name w) as [[from_user ->]| ->];
    [|eexists _, [_]; split; [reflexivity|];
      rewrite (broadcasts_none [_]) by (by repeat constructor); split; lia].
  unfold mbind at 1, M_bind at 1.
  destruct (get_user_by_name_cases to_name w) as [[to_user ->]| ->];
    [|eexists _, [_]; split; [reflexivity|];
      rewrite (broadcasts_none [_]) by (by repeat constructor); split; lia].
  unfold mbind at 1, M_bind at 1, try_except at 1.
  unfold mbind at 1, M_bind at 1.
  destruct (wp_get_balance_sleeps (User_address from_user) token w)
    as (r & evs & Hrun & Hev & _ & Hok).
  rewrite Hrun.
  assert (Hb : broadcasts evs = 0%nat).
  { apply broadcasts_none. eapply Forall_impl; [exact Hev|]. by intros ? [? _]. }
  destruct r as [balance|e].
  - case_bool_decide as Hlt.
    + unfold raise at 1. rewrite bool_decide_eq_true_2 by done.
      eexists _, evs. split; [reflexivity|]. rewrite Hb. split; lia.
    + unfold mret at 1, M_ret at 1.
      destruct (wp_transfer_erc20 (User_private_key from_user)
                  (User_address to_user) amount token (extend w evs))
        as (r2 & evs2 & Hrun2 & Hr2).
      rewrite Hrun2, extend_extend. exists r2, (evs ++ evs2).
      split; [done|].
      eapply retry_run_counts in Hr2 as (Ha & Hbr & _); [|by intros ? ? ? [? _]].
      rewrite broadcasts_app, Hb. split; [lia|]. intros _.
      destruct (Hok balance eq_refl) as (contract & owner & _ & _ & Hlast).
      exists contract, owner, balance. split; [|lia].
      apply elem_of_app. left. by apply last_Some_elem_of.
  - case_bool_decide.
    + eexists _, evs. split; [reflexivity|]. rewrite Hb. split; lia.
    + unfold mbind at 1, M_bind at 1, logger at 1.
      eexists _, (evs ++ [_]). rewrite emit_extend, extend_extend.
      split; [reflexivity|].
      rewrite broadcasts_app, Hb, (broadcasts_none [_]) by (by repeat constructor).
      split; lia.
Qed.

Lemma get_initial_fund_world name user w :
  ∃ r evs, AccountRepository.get_initial_fund name (Some user) w
           = (r, extend w evs).
Proof.
  unfold AccountRepository.get_initial_fund.
  unfold mbind at 1, M_bind at 1, mret at 1, M_ret at 1.
  unfold mbind at 1, M_bind at 1, lift at 1.
  destruct (to_wei initial_faucet_gwei "gwei") as [amount_wei|e];
    [|exists (Raise e), []; by rewrite extend_nil].
  destruct (wp_send_native_token faucet_private_key (User_address user)
              amount_wei w) as (r & evs & Hrun & _).
  unfold try_except. rewrite Hrun. destruct r as [tx_hash|cause]; [by eauto|].
  unfold mbind, M_bind, logger, raise.
  eexists _, (evs ++ [_]). by rewrite emit_extend, extend_extend.
Qed.

(** X15.  [get_initial_fund], given the row, sends the configured amount
    from the faucet key to the address of the row: it broadcasts at most
    three times, and when the transfer raises it logs "Faucet funding failed"
    last and raises [BlockchainError] with "Faucet funding failed: " and the
    text of the cause, after the two sleeps of the client.  The conversion of
    the amount is outside the [try]: its error is raised as it is, before
    anything is sent.  Without a row, it uses the row stored under the
    name. *)
Theorem faucet_failures_are_blockchain_errors name user w :
  match to_wei initial_faucet_gwei "gwei" with
  | Raise e =>
      AccountRepository.get_initial_fund name (Some user) w = (Raise e, w)
  | Ok amount_wei =>
      ∃ r evs,
        AccountRepository.get_initial_fund name (Some user) w
        = (r, extend w evs) ∧
        (broadcasts evs ≤ 3)%nat ∧
        ∀ e, r = Raise e →
          ∃ cause,
            Web3Client.send_native_token faucet_private_key
              (User_address user) amount_wei w
            = (Raise cause, extend w (removelast evs)) ∧
            e = Exn BlockchainError
                  ("Faucet funding failed: " +:+ exn_str cause) ∧
            last evs = Some (EvLog ERROR "Faucet funding failed"
                               [("name", PStr name);
                                ("error", PStr (exn_str cause))]) ∧
            sleeps evs = [PyFloat.lit_2_0; PyFloat.lit_2_0]
  end ∧
  (users w !! name = Some user →
   AccountRepository.get_initial_fund name None w
   = AccountRepository.get_initial_fund name (Some user) w).
Proof.
  split.
  2: { intros Hrow. unfold AccountRepository.get_initial_fund.
       unfold mbind at 1 3, M_bind at 1 3.
       by rewrite (get_user_by_name_found _ _ _ Hrow). }
  unfold AccountRepository.get_initial_fund.
  unfold mbind at 1, M_bind at 1, mret at 1, M_ret at 1.
  unfold mbind at 1, M_bind at 1, lift at 1.
  destruct (to_wei initial_faucet_gwei "gwei") as [amount_wei|e]; [|done].
  destruct (wp_send_native_token faucet_private_key (User_address user)
              amount_wei w) as (r & evs & Hrun & Hr).
  unfold try_except. rewrite Hrun.
  pose proof (retry_run_counts _ _ _ _ _ _
                (λ h r evs (H : _ ∧ _), proj1 H) Hr) as (Ha & Hb & Hs).
  destruct r as [tx_hash|cause].
  - exists (Ok tx_hash), evs. split; [done|]. split; [lia|done].
  - unfold mbind, M_bind, logger, raise.
    eexists _, (evs ++ [_]). rewrite emit_extend, extend_extend.
    split; [reflexivity|]. rewrite broadcasts_app.
    rewrite (broadcasts_none [_]) by (by repeat constructor).
    split; [lia|]. intros e [= <-]. exists cause.
    rewrite removelast_last, last_snoc, sleeps_app, app_nil_r.
    split; [done|]. split; [done|]. split; [done|].
    eapply retry_run_raise; [|exact Hr].
    intros ? ? ? [[] _]; by split.
Qed.

End repository_errors.

(** ** The table of users *)

Section table.
Import Table.

Lemma address_taken_false addr rows :
  Session.address_taken addr rows = false →
  ∀ name user, rows !! name = Some user → User_address user ≠ addr.
Proof.
  unfold Session.address_taken. intros Hnone name user Hrow Haddr.
  assert (Hex : existsb (λ kv : string * User,
                           bool_decide (User_address kv.2 = addr))
                  (map_to_list rows) = true); [|by rewrite Hex in Hnone].
  apply existsb_exists. exists (name, user). split.
  - apply list_elem_of_In. by apply elem_of_map_to_list.
  - by apply bool_decide_eq_true_2.
Qed.

Lemma table_ok_insert rows user :
  table_ok rows →
  rows !! User_name user = None →
  Session.address_taken (User_address user) rows = false →
  table_ok (<[User_name user := user]> rows).
Proof.
  intros [Hkey Huniq] Hfree Hnew. pose proof (address_taken_false _ _ Hnew) as Hn.
  split.
  - intros name u. destruct (decide (name = User_name user)) as [->|Hne].
    + rewrite lookup_insert_eq. by intros [= <-].
    + rewrite lookup_insert_ne by done. apply Hkey.
  - intros name1 name2 u1 u2.
    destruct (decide (name1 = User_name user)) as [->|Hne1];
      destruct (decide (name2 = User_name user)) as [->|Hne2];
      rewrite ?lookup_insert_eq, ?lookup_insert_ne by done.
    + done.
    + intros [= <-] Hrow Haddr. by destruct (Hn _ _ Hrow).
    + intros Hrow [= <-] Haddr. by destruct (Hn _ _ Hrow).
    + apply Huniq.
Qed.

Lemma table_ok_empty : table_ok ∅.
Proof. split; intros ?; intros; by rewrite lookup_empty in *. Qed.

End table.

Section creation.
Import Trace Table.
Context `{!AsyncWeb3, !Settings}.

(** The ways [create_account] can go, from a session with nothing pending:
    either the table is left as it was and the call raised, or the name was
    free, its row was inserted under an address no row had, and the row
    stays whatever the faucet did. *)
Lemma create_account_cases name w r w' :
  session_new w = [] →
  AccountRepository.create_account name w = (r, w') →
  session_new w' = [] ∧
  ((users w' = users w ∧ is_Ok r = false ∧
    (is_Some (users w !! name) →
       r = Raise (Exn AccountAlreadyExistsError
                    ("Account with name '" +:+ name +:+ "' already exists")) ∧
       w' = extend w [EvLog WARNING "Account already exists"
                        [("name", PStr name)]])) ∨
   (users w !! name = None ∧
    ∃ user,
      User_name user = name ∧
      Session.address_taken (User_address user) (users w) = false ∧
      users w' = <[name := user]> (users w) ∧
      ∀ response, r = Ok response →
        ur_name response = name ∧ ur_address response = User_address user ∧
        is_Some (ur_faucet_tx_hash response))).
Proof.
  intros Hsession. unfold AccountRepository.create_account.
  unfold mbind at 1, M_bind at 1, Session.select_by_name at 1.
  rewrite Hsession. cbn [list_find fmap option_fmap option_map].
  destruct (users w !! name) as [existing|] eqn:Hfree.
  { unfold mbind, M_bind, logger, raise. intros [= <- <-].
    split; [done|]. left. by repeat split. }
  unfold mbind at 1, M_bind at 1.
  destruct (create_account_world w) as [r0 ->].
  destruct r0 as [account|e].
  2: { intros [= <- <-]. split; [done|]. left.
       repeat split; try done; by intros [? [=]]. }
  set (user := {| User_name := name |}).
  unfold mbind at 1, M_bind at 1, Session.add at 1.
  unfold mbind at 1, M_bind at 1, Session.commit at 1.
  cbn [users session_new trace emit]. rewrite Hsession.
  cbn [app Session.flush User_name User_address user]. rewrite Hfree.
  destruct (Session.address_taken (ba_address account) (users w)) eqn:Hnew.
  { intros [= <- <-]. split; [done|]. left.
    repeat split; try done; by intros [? [=]]. }
  unfold mbind at 1, M_bind at 1, Session.refresh at 1.
  cbn [users User_name user]. rewrite lookup_insert_eq.
  set (w2 := {| users := _ |}).
  unfold mbind at 1, M_bind at 1.
  destruct (get_initial_fund_world name user w2) as (r1 & evs & ->).
  destruct r1 as [tx_hash|e]; intros [= <- <-].
  all: split; [done|]; right; split; [done|]; exists user.
  all: split; [done|]; split; [done|]; split; [done|].
  all: by intros response [= <-].
Qed.

(** X16.  When [create_account] succeeds, the response carries the name
    asked for, the address and the key of the generated account and the hash
    the faucet transfer returned; the row is in the table under the name, and
    [get_user_by_name] returns it. *)
Theorem created_account_can_be_looked_up
    name account amount_wei tx_hash w w1 w3 :
  session_new w = [] →
  users w !! name = None →
  Web3Client.create_account w = (Ok account, w1) →
  Session.address_taken (ba_address account) (users w) = false →
  to_wei initial_faucet_gwei "gwei" = Ok amount_wei →
  let user := {| User_name := name; User_address := ba_address account;
                 User_private_key := ba_private_key account |} in
  Web3Client.send_native_token faucet_private_key (ba_address account)
    amount_wei
    {| users := <[name := user]> (users w); session_new := [];
       trace := trace w1 |}
  = (Ok tx_hash, w3) →
  AccountRepository.create_account name w
  = (Ok {| ur_name := name; ur_address := ba_address account;
           ur_private_key := ba_private_key account;
           ur_faucet_tx_hash := Some tx_hash |}, w3) ∧
  users w3 = <[name := user]> (users w) ∧
  AccountRepository.get_user_by_name name w3 = (Ok user, w3).
Proof.
  intros Hsession Hfree Hcreate Hunique Hwei user Hfaucet.
  rewrite (create_account_commits _ _ _ _ Hsession Hfree Hcreate Hunique).
  fold user. set (w2 := {| users := _ |}) in *.
  destruct (wp_send_native_token faucet_private_key (ba_address account)
              amount_wei w2) as (r & evs & Hrun & _).
  rewrite Hfaucet in Hrun. injection Hrun as <- ->.
  assert (Hrows : users (extend w2 evs) = <[name := user]> (users w))
    by reflexivity.
  split; [|split; [done|]].
  - unfold AccountRepository.get_initial_fund.
    unfold mbind, M_bind, mret, M_ret, lift, try_except.
    rewrite Hwei. cbn [User_address user]. by rewrite Hfaucet.
  - apply get_user_by_name_found. rewrite Hrows. by rewrite lookup_insert_eq.
Qed.

(** X17.  [create_account] keeps the table of users well formed: from a
    session with nothing pending and a table in which every row is stored
    under its name and no two rows share an address, it ends, whether it
    returns or raises, with such a table; the rows stored under other names
    are untouched, and a row already stored under the name is kept as it
    is. *)
Theorem create_account_keeps_the_table_well_formed name w :
  session_new w = [] →
  table_ok (users w) →
  let w' := (AccountRepository.create_account name w).2 in
  table_ok (users w') ∧
  (∀ other, other ≠ name → users w' !! other = users w !! other) ∧
  (∀ user, users w !! name = Some user → users w' !! name = Some user).
Proof.
  intros Hsession Hok w'.
  destruct (AccountRepository.create_account name w) as [r w1] eqn:Hrun.
  subst w'. cbn [snd].
  destruct (create_account_cases _ _ _ _ Hsession Hrun)
    as (Hs & [(Hrows & _)|(Hfree & user & Hname & Hnew & Hrows & _)]).
  - split; [by rewrite Hrows|]. by rewrite Hrows.
  - rewrite Hrows. subst name. split; [by apply table_ok_insert|].
    split.
    + intros other Hne. by rewrite lookup_insert_ne.
    + intros existing. by rewrite Hfree.
Qed.

(** X18.  The route [POST /create_account] raises [HTTPException] with
    status 409 and the message of the repository when the name is taken, and
    then only a warning was logged.  It returns a response only for a name
    that was free, with that name, a faucet hash and the address of the row
    now stored.  Every other exception of the repository passes through the
    route unchanged, and the handler registered for [Exception] answers it
    with status 500 and the text of the exception in the body. *)
Theorem create_account_route_answers name w :
  session_new w = [] →
  (∀ existing, users w !! name = Some existing →
     Api.create_account name w
     = (Api.HTTPException 409
          ("Account with name '" +:+ name +:+ "' already exists"),
        extend w [EvLog WARNING "Account already exists"
                    [("name", PStr name)]])) ∧
  match (Api.create_account name w).1 with
  | Api.Returned response =>
      users w !! name = None ∧ ur_name response = name ∧
      is_Some (ur_faucet_tx_hash response) ∧
      ∃ user, users (Api.create_account name w).2 !! name = Some user ∧
              User_address user = ur_address response
  | Api.HTTPException status_code detail => status_code = 409
  | Api.Uncaught e =>
      users w !! name = None ∧ exn_cls e ≠ AccountAlreadyExistsError ∧
      ∀ method url w0,
        (Main.global_exception_handler method url e w0).1
        = Ok {| Main.status_code := 500;
                Main.content := [("detail", "Internal server error");
                                 ("error", exn_str e)] |}
  end.
Proof.
  intros Hsession. unfold Api.create_account.
  destruct (AccountRepository.create_account name w) as [r w1] eqn:Hrun.
  destruct (create_account_cases _ _ _ _ Hsession Hrun)
    as (Hs & [(Hrows & Hr & Hdup)|(Hfree & user & Hname & Hnew & Hrows & Hr)]).
  - split.
    + intros existing Hrow. destruct Hdup as [-> ->]; [by eexists|].
      by rewrite bool_decide_eq_true_2.
    + destruct r as [response|e]; [done|]. case_bool_decide as Hcls; [done|].
      cbn [fst]. split; [|by split].
      destruct (users w !! name) eqn:Hrow; [|done].
      destruct Hdup as [[= ->] _]; [by eexists|]. by destruct Hcls.
  - split; [intros existing Hrow; by rewrite Hrow in Hfree|].
    destruct r as [response|e].
    + cbn [fst snd]. destruct (Hr response eq_refl) as (? & ? & ?).
      repeat split; try done. exists user. rewrite Hrows, lookup_insert_eq.
      by split.
    + case_bool_decide; [done|]. cbn [fst]. by repeat split.
Qed.

End creation.

(** ** Decryption and validation *)

Section decryption.
Import Utf8 Crypto.
Context `{!Fernet}.

Lemma encode_raises s e : encode s = Raise e → exn_cls e = UnicodeEncodeError.
Proof.
  revert e. induction s as [|c s IH]; intros e; cbn [encode]; [done|].
  destruct (encode_char c); [|by intros [= <-]].
  destruct (encode s) as [rest|e']; [done|]. intros [= <-]. by apply IH.
Qed.

(** X19.  Every call of [decrypt_private_key] prints the encryption key of
    the settings to standard output, whatever the token and whether the call
    returns or raises, and does nothing else to the world. *)
Theorem decrypt_private_key_prints_the_key token w :
  ∃ r, decrypt_private_key token w = (r, emit (EvPrint fernet_key) w).
Proof.
  unfold decrypt_private_key, mbind, M_bind, lift, raise.
  destruct (encode token) as [data|e]; [|by eexists].
  destruct (fernet_decrypt data) as [plain|]; [|by eexists].
  destruct (decode plain); by eexists.
Qed.

End decryption.

Section names.
Import Utf8 Schemas.
Variable isalnum_char : N → bool.

(** X21.  [UserCreate] accepts a name exactly when it has at most 100
    characters, each of them is ["_"], ["-"] or alphanumeric, and at least
    one of them is neither ["_"] nor ["-"]: a name made of underscores and
    hyphens alone is rejected, as the empty name is.  An accepted name is
    returned unchanged. *)
Theorem UserCreate_accepts name :
  (is_Ok (UserCreate isalnum_char name) = true ↔
     (length name ≤ 100)%nat ∧
     (∃ c, c ∈ name ∧ c ≠ 95%N ∧ c ≠ 45%N) ∧
     ∀ c, c ∈ name → c = 95%N ∨ c = 45%N ∨ isalnum_char c = true) ∧
  (∀ v, UserCreate isalnum_char name = Ok v → v = name).
Proof.
  split.
  2: { unfold UserCreate, validate_name. intros v.
       do 2 (case_bool_decide; [done|]).
       destruct (negb _); [done|]. by intros [= <-]. }
  unfold UserCreate, validate_name, isalnum, replace_char.
  set (kept := filter (λ c, c ≠ 45%N) (filter (λ c, c ≠ 95%N) name)).
  assert (Hkept : ∀ c, c ∈ kept ↔ c ∈ name ∧ c ≠ 95%N ∧ c ≠ 45%N).
  { intros c. subst kept. rewrite !list_elem_of_filter. tauto. }
  assert (Hnil : kept = [] ↔ ¬ ∃ c, c ∈ name ∧ c ≠ 95%N ∧ c ≠ 45%N).
  { split.
    - intros Hk (c & Hc). apply Hkept in Hc. rewrite Hk in Hc.
      by apply elem_of_nil in Hc.
    - intros Hno. destruct kept as [|c kept'] eqn:Hk; [done|].
      destruct Hno. exists c. apply Hkept. by left. }
  assert (Hall : forallb isalnum_char kept = true ↔
            ∀ c, c ∈ name → c = 95%N ∨ c = 45%N ∨ isalnum_char c = true).
  { split.
    - intros Hf c Hc.
      destruct (decide (c = 95%N)) as [|H95]; [by left|].
      destruct (decide (c = 45%N)) as [|H45]; [by right; left|].
      right; right. rewrite forallb_forall in Hf. apply Hf.
      apply list_elem_of_In, Hkept. done.
    - intros Hn. apply forallb_forall. intros c Hc%list_elem_of_In.
      apply Hkept in Hc as (Hc & ? & ?). by destruct (Hn c Hc) as [|[|]]. }
  case_bool_decide as Hmin.
  { split; [done|]. intros (_ & (c & Hc & _) & _).
    destruct name; [by apply elem_of_nil in Hc|cbn in Hmin; lia]. }
  case_bool_decide as Hmax; [split; [done|]; intros (? & _); lia|].
  destruct (bool_decide (kept = [])) eqn:Hk; cbn [negb andb].
  - split; [done|]. apply bool_decide_eq_true_1 in Hk.
    intros (_ & Hex & _). by apply Hnil in Hk.
  - apply bool_decide_eq_false_1 in Hk.
    destruct (forallb isalnum_char kept) eqn:Hf; cbn [negb is_Ok].
    + split; [|done]. intros _. split; [lia|]. split; [|by apply Hall].
      destruct kept as [|c kept'] eqn:Hkk; [done|]. exists c. apply Hkept. by left.
    + split; [done|]. intros (_ & _ & Hn). apply Hall in Hn. congruence.
Qed.

End names.

(** ** What a submission signs and broadcasts *)

Section signing.
Import Trace Web3Client.
Context `{!AsyncWeb3, !Settings}.

Lemma wp_send_native_token_func_signs key to amt :
  wp (send_native_token_func key to amt) (λ h r evs,
    Forall (signs_the_request key to amt) evs).
Proof.
  unfold send_native_token_func, get_account_from_key.
  wp_exec.
  all: try (eapply wp_mono; [apply wp_estimate_gas|]; intros ? ? ? [-> ->]).
  all: wp_exec.
  all: unfold Gas.fallback_log; try destruct (Gas.attempt _).
  all: rewrite ?app_nil_r in *.
  all: repeat first [ apply Forall_nil_2 | apply Forall_cons_2 ].
  all: try exact I.
  all: try (split; [done|]).
  all: try (eexists; split; [eassumption|]).
  all: by eexists _, _; repeat split; try eassumption.
Qed.

Lemma wp_transfer_erc20_func_signs key to amt token :
  wp (transfer_erc20_func key to amt token) (λ h r evs,
    Forall (signs_the_token_request key to amt token) evs).
Proof.
  unfold transfer_erc20_func, get_account_from_key, get_contract.
  wp_exec.
  all: try (eapply wp_mono; [apply wp_estimate_gas|]; intros ? ? ? [-> ->]).
  all: wp_exec.
  all: unfold Gas.fallback_log; try destruct (Gas.attempt _).
  all: rewrite ?app_nil_r in *.
  all: repeat first [ apply Forall_nil_2 | apply Forall_cons_2 ].
  all: try exact I.
  all: try (by repeat split).
  all: try (split; [done|]).
  all: try (eexists; split; [eassumption|]).
  all: by eexists _, _, _, _, _, _, _; repeat split; try eassumption.
Qed.

(** X22.  In every attempt of a submission, what is signed is the
    transaction of the request, signed with the key of the call, and what is
    broadcast is such a signature.  For a native transfer the transaction
    names the checksummed recipient, the amount, the configured gas price
    and chain id; for a token transfer it is what the node built for
    [transfer(recipient, amount)] on the contract at the checksummed token
    address, from the account of the key, with its ["gas"] entry replaced. *)
Theorem submission_broadcasts_what_it_signed key to amt token w :
  (∃ r evs,
     send_native_token key to amt w = (r, extend w evs) ∧
     Forall (signs_the_request key to amt) evs) ∧
  (∃ r evs,
     transfer_erc20 key to amt token w = (r, extend w evs) ∧
     Forall (signs_the_token_request key to amt token) evs).
Proof.
  split.
  - destruct (wp_async_retry_3 "send_native_token" PyFloat.lit_2_0 _ _
                (wp_send_native_token_func_signs key to amt) w)
      as (r & evs & Hrun & Hr).
    exists r, evs. split; [exact Hrun|].
    refine (retry_run_Forall _ _ _ _ _ _ _ _ _ _ Hr); [done|done|done].
  - destruct (wp_async_retry_3 "transfer_erc20" PyFloat.lit_2_0 _ _
                (wp_transfer_erc20_func_signs key to amt token) w)
      as (r & evs & Hrun & Hr).
    exists r, evs. split; [exact Hrun|].
    refine (retry_run_Forall _ _ _ _ _ _ _ _ _ _ Hr); [done|done|done].
Qed.

End signing.

Section confirmation.
Import Trace Web3Client.
Context `{!AsyncWeb3, !Settings}.

Lemma confirmed_app before evs tx_hash_hex :
  confirmed tx_hash_hex evs → confirmed tx_hash_hex (before ++ evs).
Proof.
  intros (raw & tx_hash & receipt & ? & ? & ? & ?).
  exists raw, tx_hash, receipt. rewrite !elem_of_app. auto.
Qed.

Ltac confirmed_path :=
  intros ? [= <-];
  eexists _, _, _; split; [|split; [|split; [|reflexivity]]];
  [ repeat first [ by apply list_elem_of_here | apply list_elem_of_further ]
  | repeat first [ by apply list_elem_of_here | apply list_elem_of_further ]
  | match goal with
    | H : match ?d !! "status" with Some _ => _ | None => _ end = Ok ?v,
      Hb : bool_decide (?v ≠ PInt 1) = false |- _ =>
        apply bool_decide_eq_false_1 in Hb;
        destruct (d !! "status") as [status|]; [|done];
        injection H as ->; f_equal;
        destruct (decide (v = PInt 1)) as [Hv|Hv]; [exact Hv|by destruct Hb]
    end ].

Lemma wp_send_native_token_func_confirmed key to amt :
  wp (send_native_token_func key to amt) (λ h r evs,
    ∀ tx_hash_hex, r = Ok tx_hash_hex → confirmed tx_hash_hex evs).
Proof.
  unfold send_native_token_func, get_account_from_key.
  wp_exec.
  all: try (eapply wp_mono; [apply wp_estimate_gas|]; intros ? ? ? [-> ->]).
  all: wp_exec.
  all: try (intros ? [=]; fail).
  all: unfold Gas.fallback_log; try destruct (Gas.attempt _); cbn [app].
  all: confirmed_path.
Qed.

Lemma wp_transfer_erc20_func_confirmed key to amt token :
  wp (transfer_erc20_func key to amt token) (λ h r evs,
    ∀ tx_hash_hex, r = Ok tx_hash_hex → confirmed tx_hash_hex evs).
Proof.
  unfold transfer_erc20_func, get_account_from_key, get_contract.
  wp_exec.
  all: try (eapply wp_mono; [apply wp_estimate_gas|]; intros ? ? ? [-> ->]).
  all: wp_exec.
  all: try (intros ? [=]; fail).
  all: unfold Gas.fallback_log; try destruct (Gas.attempt _); cbn [app].
  all: confirmed_path.
Qed.

(** X24.  A submission returns a hash only for a transaction it has seen
    through: when [send_native_token] or [transfer_erc20] returns, its run
    holds a broadcast that the node answered with a hash, a receipt for that
    hash with status 1, and the value returned is the hexadecimal form of
    that hash. *)
Theorem returned_hash_is_confirmed key to amt token w :
  (∃ r evs,
     send_native_token key to amt w = (r, extend w evs) ∧
     ∀ tx_hash_hex, r = Ok tx_hash_hex → confirmed tx_hash_hex evs) ∧
  (∃ r evs,
     transfer_erc20 key to amt token w = (r, extend w evs) ∧
     ∀ tx_hash_hex, r = Ok tx_hash_hex → confirmed tx_hash_hex evs).
Proof.
  split.
  - destruct (wp_async_retry_3 "send_native_token" PyFloat.lit_2_0 _ _
                (wp_send_native_token_func_confirmed key to amt) w)
      as (r & evs & Hrun & Hr).
    exists r, evs. split; [exact Hrun|]. intros tx_hash_hex ->.
    apply retry_run_last in Hr as (h' & before & evs' & -> & Hlast).
    by apply confirmed_app, Hlast.
  - destruct (wp_async_retry_3 "transfer_erc20" PyFloat.lit_2_0 _ _
                (wp_transfer_erc20_func_confirmed key to amt token) w)
      as (r & evs & Hrun & Hr).
    exists r, evs. split; [exact Hrun|]. intros tx_hash_hex ->.
    apply retry_run_last in Hr as (h' & before & evs' & -> & Hlast).
    by apply confirmed_app, Hlast.
Qed.
End confirmation.

Section encryption.
Import Utf8 Crypto.
Context `{!Fernet}.
Hypothesis Hcontract : fernet_contract.
Local Open Scope N_scope.

Lemma encode_char_Some c bs :
  encode_char c = Some bs → c < 0x110000 ∧ is_surrogate c = false.
Proof.
  unfold encode_char, is_surrogate.
  destruct (N.ltb_spec c 0x80).
  { intros _. split; [lia|]. apply andb_false_iff. left. apply N.leb_gt. lia. }
  destruct (N.ltb_spec c 0x800).
  { intros _. split; [lia|]. apply andb_false_iff. left. apply N.leb_gt. lia. }
  destruct (N.ltb_spec c 0x10000).
  { destruct ((0xD800 <=? c) && (c <=? 0xDFFF)); [done|]. intros _. split; [lia|done]. }
  destruct (N.ltb_spec c 0x110000); [|done].
  intros _. split; [lia|]. apply andb_false_iff. right. apply N.leb_gt. lia.
Qed.

Lemma encode_Ok_encodable s bs : encode s = Ok bs → encodable s.
Proof.
  revert bs. induction s as [|c s IH]; intros bs; [by constructor|].
  cbn [encode]. destruct (encode_char c) as [cs|] eqn:Hc; [|done].
  destruct (encode s) as [rest|]; [|done]. intros _.
  constructor; [by eapply encode_char_Some|by eapply IH].
Qed.

(** X23.  Under the contract of the Fernet library, [encrypt_private_key]
    returns a token exactly for the strings UTF-8 can encode; on any other
    string it raises [UnicodeEncodeError]; and every token it returns is
    ASCII. *)
Theorem encrypt_private_key_errors now iv plain_key :
  (is_Ok (encrypt_private_key now iv plain_key) = true ↔ encodable plain_key) ∧
  (∀ e, encrypt_private_key now iv plain_key = Raise e →
        exn_cls e = UnicodeEncodeError) ∧
  (∀ token, encrypt_private_key now iv plain_key = Ok token →
            Forall (λ c, c < 128) token).
Proof.
  destruct (encode plain_key) as [data|e] eqn:Hdata.
  - rewrite (encrypt_private_key_token Hcontract _ _ _ _ Hdata).
    split; [|split].
    + split; [intros _; by eapply encode_Ok_encodable|done].
    + done.
    + intros token [= <-]. apply Forall_fmap.
      eapply Forall_impl; [apply (fernet_token_ascii Hcontract)|]. done.
  - unfold encrypt_private_key. rewrite Hdata. split; [|split].
    + split; [done|]. intros [bs Hbs]%encode_encodable. congruence.
    + intros e' [= <-]. by eapply encode_raises.
    + done.
Qed.
End encryption.

(** ** The further properties on concrete runs *)

(** X1 on five attempts, one second apart, at the native balance of an
    address that does not checksum: five attempts, four sleeps, no query. *)
Lemma async_retry_policy_witness :
  let node := Demo.w3 true (Ok 21000) Demo.accepts 1 0 in
  let func := @Web3Client.get_native_balance_func node "A1" in
  ∃ r evs,
    Web3Client.async_retry 5 PyFloat.lit_1_0 "get_native_balance" func
      Demo.empty = (r, Trace.extend Demo.empty evs) ∧
    let a := Trace.attempts_made "get_native_balance" r evs in
    is_Ok r = false ∧ (1 ≤ a)%nat ∧ Z.of_nat a ≤ 5 ∧
    (is_Ok r = false → Z.of_nat a = 5) ∧
    (Trace.count_events Trace.is_native_balance_call evs ≤ 0 * a)%nat ∧
    Trace.sleeps evs = replicate (a - 1) PyFloat.lit_1_0.
Proof.
  intros node func.
  refine (async_retry_policy 5 PyFloat.lit_1_0 "get_native_balance" func
            Trace.is_native_balance_call 0 (λ r, is_Ok r = false)
            _ _ _ _ Demo.empty).
  - reflexivity.
  - reflexivity.
  - intros w. exists (Raise (Exn ValueError "invalid address")), [].
    split; [by rewrite extend_nil|]. repeat split. reflexivity.
  - lia.
Defined.

(** X2 on a decorator with no attempt: the balance is not even asked for. *)
Lemma async_retry_without_attempts_witness :
  let node := Demo.w3 true (Ok 21000) Demo.accepts 1 0 in
  Web3Client.async_retry 0 PyFloat.lit_2_0 "get_native_balance"
    (@Web3Client.get_native_balance_func node "0xA1") Demo.empty
  = (Raise (Exn TypeError "exceptions must derive from BaseException"),
     Demo.empty).
Proof.
  intros node.
  apply (async_retry_without_attempts 0 PyFloat.lit_2_0 "get_native_balance"
           (@Web3Client.get_native_balance_func node "0xA1") Demo.empty).
  lia.
Defined.

(** X6 on the address ["A1"], which has no ["0x"] prefix. *)
Lemma undecodable_address_is_retried_witness :
  let node := Demo.w3 true (Ok 21000) Demo.accepts 1 0 in
  let e := Exn ValueError "invalid address" in
  let retries func_name :=
    Trace.backoff_events func_name 3 PyFloat.lit_2_0 0 e ++
    Trace.backoff_events func_name 3 PyFloat.lit_2_0 1 e ++
    Trace.give_up_events func_name e in
  @Web3Client.get_native_balance node "A1" Demo.empty
  = (Raise e, Trace.extend Demo.empty (retries "get_native_balance")) ∧
  (∀ owner, @Web3Client.get_balance node owner "A1" Demo.empty
            = (Raise e, Trace.extend Demo.empty (retries "get_balance"))) ∧
  (∀ token, is_Ok (@to_checksum_address node token) = true →
     @Web3Client.get_balance node "A1" token Demo.empty
     = (Raise e, Trace.extend Demo.empty (retries "get_balance"))) ∧
  (∀ func_name,
     Trace.sleeps (retries func_name) = [PyFloat.lit_2_0; PyFloat.lit_2_0] ∧
     Trace.count_events Trace.is_node_call (retries func_name) = 0%nat).
Proof.
  intros node e.
  apply (@undecodable_address_is_retried node "A1" e Demo.empty).
  reflexivity.
Defined.

(** X9 on the estimate of a plain transfer, 21000. *)
Lemma margin_never_lowers_the_estimate_witness :
  ∃ with_margin,
    Gas.with_margin 21000 = Ok with_margin ∧
    21000 ≤ with_margin ∧
    5 * with_margin ≤ 6 * 21000 < 5 * with_margin + 5 ∧
    (with_margin = 21000 ↔ 21000 < 5).
Proof. apply (margin_never_lowers_the_estimate 21000). lia. Defined.

(** X11 on a transfer from Carol, who has no account, to Bob. *)
Lemma transfer_between_unknown_accounts_witness :
  let node := Demo.w3 true (Ok 52000) Demo.accepts 1 100 in
  @AccountRepository.transfer_from_to node Demo.settings
    "carol" "bob" 5 "0x70" Demo.bank
  = (Raise (Exn AccountNotFoundError "Account 'carol' not found"),
     Trace.extend Demo.bank
       [EvLog WARNING "Account not found" [("name", PStr "carol")]]).
Proof.
  intros node.
  apply (@transfer_between_unknown_accounts node Demo.settings
           "carol" "bob" 5 "0x70" Demo.bank).
  - reflexivity.
  - left. reflexivity.
Defined.

(** X12 on a token address that does not checksum. *)
Lemma failed_balance_check_stops_the_transfer_witness :
  let node := Demo.w3 true (Ok 52000) Demo.accepts 1 100 in
  let e := Exn ValueError "invalid address" in
  let w1 := Trace.extend Demo.bank
              (Trace.backoff_events "get_balance" 3 PyFloat.lit_2_0 0 e ++
               Trace.backoff_events "get_balance" 3 PyFloat.lit_2_0 1 e ++
               Trace.give_up_events "get_balance" e) in
  @AccountRepository.transfer_from_to node Demo.settings
    "alice" "bob" 5 "70" Demo.bank
  = (Raise (Exn BlockchainError "Failed to check balance: invalid address"),
     Trace.extend w1 [EvLog ERROR "Failed to check balance"
                        [("error", PStr "invalid address")]]) ∧
  Trace.broadcasts (trace w1) = Trace.broadcasts (trace Demo.bank) ∧
  Trace.sleeps (drop (length (trace Demo.bank)) (trace w1))
  = [PyFloat.lit_2_0; PyFloat.lit_2_0].
Proof.
  intros node e w1.
  apply (@failed_balance_check_stops_the_transfer node Demo.settings
           "alice" "bob" 5 "70" Demo.alice Demo.bob e Demo.bank w1).
  - reflexivity.
  - reflexivity.
  - reflexivity.
  - discriminate.
Defined.

(** X13 on a balance of 100 and an amount of 50. *)
Lemma sufficient_balance_hands_over_to_the_transfer_witness :
  let node := Demo.w3 true (Ok 52000) Demo.accepts 1 100 in
  let w1 := Trace.extend Demo.bank [EvCallBalanceOf "0x70" "0xA1" (Ok 100)] in
  @AccountRepository.transfer_from_to node Demo.settings
    "alice" "bob" 50 "0x70" Demo.bank
  = @Web3Client.transfer_erc20 node Demo.settings "0xa11ce" "0xB0" 50 "0x70" w1.
Proof.
  intros node w1.
  apply (@sufficient_balance_hands_over_to_the_transfer node Demo.settings
           "alice" "bob" 50 "0x70" Demo.alice Demo.bob 100 Demo.bank w1).
  - reflexivity.
  - reflexivity.
  - reflexivity.
  - lia.
Defined.

(** X16 on a node that accepts the faucet transfer. *)
Lemma created_account_can_be_looked_up_witness :
  let node := Demo.w3 true (Ok 21000) Demo.accepts 1 0 in
  let user := {| User_name := "carol"; User_address := Demo.new_address;
                 User_private_key := "0x11" |} in
  ∃ w3,
    @AccountRepository.create_account node Demo.settings "carol" Demo.bank
    = (Ok {| ur_name := "carol"; ur_address := Demo.new_address;
             ur_private_key := "0x11"; ur_faucet_tx_hash := Some "0xab" |},
       w3) ∧
    users w3 = <["carol" := user]> (users Demo.bank) ∧
    @AccountRepository.get_user_by_name "carol" w3 = (Ok user, w3).
Proof.
  intros node user. eexists.
  eapply (@created_account_can_be_looked_up node Demo.settings "carol"
            {| ba_address := Demo.new_address; ba_private_key := "0x11" |}
            10000000000 "0xab" Demo.bank).
  - reflexivity.
  - reflexivity.
  - reflexivity.
  - reflexivity.
  - reflexivity.
  - vm_compute. reflexivity.
Defined.

(** X17 on the table of Alice and Bob, for the new name of Carol. *)
Lemma create_account_keeps_the_table_well_formed_witness :
  let node := Demo.w3 true (Ok 21000) Demo.accepts 1 0 in
  let w' := (@AccountRepository.create_account node Demo.settings "carol"
               Demo.bank).2 in
  Table.table_ok (users w') ∧
  (∀ other, other ≠ "carol" → users w' !! other = users Demo.bank !! other) ∧
  (∀ user, users Demo.bank !! "carol" = Some user →
           users w' !! "carol" = Some user).
Proof.
  intros node.
  apply (@create_account_keeps_the_table_well_formed node Demo.settings
           "carol" Demo.bank).
  - reflexivity.
  - apply (table_ok_insert _ Demo.alice); [|reflexivity|reflexivity].
    apply (table_ok_insert _ Demo.bob); [|reflexivity|reflexivity].
    apply table_ok_empty.
Defined.

(** X18 on the name of Alice, which is taken. *)
Lemma create_account_route_answers_witness :
  let node := Demo.w3 true (Ok 21000) Demo.accepts 1 0 in
  (∀ existing, users Demo.bank !! "alice" = Some existing →
     @Api.create_account node Demo.settings "alice" Demo.bank
     = (Api.HTTPException 409 "Account with name 'alice' already exists",
        Trace.extend Demo.bank
          [EvLog WARNING "Account already exists" [("name", PStr "alice")]])) ∧
  match (@Api.create_account node Demo.settings "alice" Demo.bank).1 with
  | Api.Returned response =>
      users Demo.bank !! "alice" = None ∧ ur_name response = "alice" ∧
      is_Some (ur_faucet_tx_hash response) ∧
      ∃ user,
        users (@Api.create_account node Demo.settings "alice" Demo.bank).2
          !! "alice" = Some user ∧
        User_address user = ur_address response
  | Api.HTTPException status_code detail => status_code = 409
  | Api.Uncaught e =>
      users Demo.bank !! "alice" = None ∧
      exn_cls e ≠ AccountAlreadyExistsError ∧
      ∀ method url w0,
        (@Main.global_exception_handler method url e w0).1
        = Ok {| Main.status_code := 500;
                Main.content := [("detail", "Internal server error");
                                 ("error", exn_str e)] |}
  end.
Proof.
  intros node.
  apply (@create_account_route_answers node Demo.settings "alice" Demo.bank).
  reflexivity.
Defined.

(** X23 on the key ["0xabc"] and the stand-in cipher. *)
Lemma encrypt_private_key_errors_witness :
  let plain_key := [48; 120; 97; 98; 99]%N in
  let run := @Crypto.encrypt_private_key ToyFernet.fernet 1762214400 []
               plain_key in
  (is_Ok run = true ↔ Utf8.encodable plain_key) ∧
  (∀ e, run = Raise e → exn_cls e = UnicodeEncodeError) ∧
  (∀ token, run = Ok token → Forall (λ c, (c < 128)%N) token).
Proof.
  intros plain_key run.
  apply (@encrypt_private_key_errors ToyFernet.fernet toy_fernet_contract).
Defined.
